(** * Utility bill split: extraction, ledger and monthly automation

    A shallow embedding of the bill pipeline of the repository:
    - [Patterns]   : config/pge_patterns.py  (ordered regex rules, [parse_bill_email]);
    - [Binary64]   : the Python floats of config/settings.py and of the two
                     products in [add_bill], as binary64 numbers;
    - [Sqlite]     : the part of Python's sqlite3 connection the ledger relies on
                     (pending changes, [commit], [close]);
    - [Database]   : src/database.py          (class BillDatabase);
    - [Processor]  : src/bill_processor.py    (class BillProcessor);
    - [Automation] : src/scheduler.py         (the generated monthly_automation.py).

    Conventions.
    - Text is a [string] of the standard library: one character per code
      point, code points below 256.
    - A bill amount is the Python float [float(match.group(1))] of a token
      [\d+\.\d{2}].  It is represented by the decimal it was read from, in
      cents ([Z]).  The float is [0.0] exactly when the decimal is zero, and
      two such floats are equal exactly when the decimals are, as long as the
      amount stays below 2^46: from there on binary64 numbers are more than
      a cent apart.
    - Products [amount * settings.RATIO] are binary64 products.  The ledger
      keeps them as [Times]; [Binary64] gives the number each of them is.
    - [CURRENT_TIMESTAMP] is an explicit argument [now] of every operation that
      writes a row. *)

From Stdlib Require Import List String Ascii ZArith Bool Arith Lia.
From Stdlib Require Import Sorting.Sorted Sorting.Permutation.
From Stdlib Require Import Floats.SpecFloat.
Import ListNotations.

#[local] Open Scope string_scope.
#[local] Open Scope list_scope.

(* ===================================================================== *)
(** * config/pge_patterns.py *)
(* ===================================================================== *)

Module Patterns.

(** ** The regular expressions in use

    Every pattern of the file is a sequence of literal characters and of
    quantified character classes, with capturing groups that are not nested.
    [re.search(pattern, text, re.IGNORECASE)] is leftmost, greedy and
    backtracking; the matcher below enumerates the ways to match in the
    engine's priority order, so the head of the enumeration is the match
    Python reports. *)

Inductive atom : Type :=
| Lit (c : ascii)        (* a literal character, compared ignoring case *)
| Digit                  (* \d *)
| Space                  (* \s *)
| ColonOrSpace.          (* [:\s] *)

Inductive item : Type :=
| One (a : atom)
| Many (a : atom) (lo : nat) (hi : option nat).   (* greedy a{lo,hi} *)

Inductive piece : Type :=
| Plain (i : item)
| Group (g : list item).

Definition pattern : Type := list piece.

Definition is_digit (c : ascii) : bool :=
  let n := nat_of_ascii c in ((48 <=? n) && (n <=? 57))%nat.

(* \s on code points below 256: \t \n \v \f \r, the separators 0x1c-0x1f,
   space, NEL (0x85) and the no-break space (0xa0) *)
Definition is_space (c : ascii) : bool :=
  let n := nat_of_ascii c in
  (((9 <=? n) && (n <=? 13)) || ((28 <=? n) && (n <=? 31)) || (n =? 32)
   || (n =? 133) || (n =? 160))%nat.

Definition lower (c : ascii) : ascii :=
  let n := nat_of_ascii c in
  if ((65 <=? n) && (n <=? 90))%nat then ascii_of_nat (n + 32) else c.

Definition atom_matches (a : atom) (c : ascii) : bool :=
  match a with
  | Lit l => Ascii.eqb (lower l) (lower c)
  | Digit => is_digit c
  | Space => is_space c
  | ColonOrSpace => Ascii.eqb c ":" || is_space c
  end.

Definition may_take (hi : option nat) : bool :=
  match hi with Some O => false | _ => true end.

(** [greedy a lo hi s]: the splits [(taken, rest)] of [s] where [taken] is a
    run of between [lo] and [hi] characters of class [a], longest first. *)
Fixpoint greedy (a : atom) (lo : nat) (hi : option nat) (s : string)
  : list (string * string) :=
  let stop := if Nat.eqb lo 0 then [(EmptyString, s)] else [] in
  match s with
  | EmptyString => stop
  | String c s' =>
      if may_take hi && atom_matches a c
      then map (fun tr => (String c (fst tr), snd tr))
               (greedy a (Nat.pred lo) (option_map Nat.pred hi) s') ++ stop
      else stop
  end.

Definition match_item (i : item) (s : string) : list (string * string) :=
  match i with
  | One a =>
      match s with
      | String c s' => if atom_matches a c then [(String c EmptyString, s')] else []
      | EmptyString => []
      end
  | Many a lo hi => greedy a lo hi s
  end.

Fixpoint match_seq (g : list item) (s : string) : list (string * string) :=
  match g with
  | [] => [(EmptyString, s)]
  | i :: g' =>
      flat_map (fun tr =>
                  map (fun ur => (String.append (fst tr) (fst ur), snd ur))
                      (match_seq g' (snd tr)))
               (match_item i s)
  end.

(** Matching a whole pattern at the start of [s]: the captured groups, in
    order, and the unread rest. *)
Fixpoint match_here (p : pattern) (s : string) : list (list string * string) :=
  match p with
  | [] => [([], s)]
  | Plain i :: p' => flat_map (fun tr => match_here p' (snd tr)) (match_item i s)
  | Group g :: p' =>
      flat_map (fun tr =>
                  map (fun gr => (fst tr :: fst gr, snd gr)) (match_here p' (snd tr)))
               (match_seq g s)
  end.

(** [re.search]: the first start position with a match. *)
Fixpoint search (p : pattern) (s : string) : option (list string) :=
  match match_here p s with
  | m :: _ => Some (fst m)
  | [] =>
      match s with
      | EmptyString => None
      | String _ s' => search p s'
      end
  end.

(** ** The rule tables *)

Fixpoint lits (s : string) : pattern :=
  match s with
  | EmptyString => []
  | String c s' => Plain (One (Lit c)) :: lits s'
  end.

Definition spaces : piece := Plain (Many Space 0 None).                (* \s* *)
Definition colon_spaces : piece := Plain (Many ColonOrSpace 0 None).     (* [:\s]* *)

(* (\d+\.\d{2}) *)
Definition amount_token : piece :=
  Group [Many Digit 1 None; One (Lit "."); Many Digit 2 (Some 2)].

(* \d{2}/\d{2}/\d{4} *)
Definition date_token : list item :=
  [Many Digit 2 (Some 2); One (Lit "/"); Many Digit 2 (Some 2); One (Lit "/");
   Many Digit 4 (Some 4)].

Definition AMOUNT_PATTERNS : list pattern :=
  [ lits "Statement balance:" ++ [spaces] ++ lits "$" ++ [amount_token];
    lits "Amount Due" ++ [colon_spaces] ++ lits "$" ++ [amount_token];
    lits "Total Amount Due" ++ [colon_spaces] ++ lits "$" ++ [amount_token];
    lits "Current charges" ++ [colon_spaces] ++ lits "$" ++ [amount_token];
    lits "**$" ++ [amount_token] ++ lits "**";
    lits "<strong>$" ++ [amount_token] ++ lits "</strong>";
    lits "$" ++ [amount_token] ++ lits "</strong>" ].

Definition DATE_PATTERNS : list pattern :=
  [ lits "Payment due date:" ++ [spaces; Group date_token];
    lits "Due Date" ++ [colon_spaces; Group date_token];
    lits "Due by" ++ [colon_spaces; Group date_token];
    lits "**" ++ [Group date_token; spaces] ++ lits "**";
    lits "<strong>" ++ [Group date_token; spaces] ++ lits "</strong>";
    [Group date_token; spaces] ++ lits "</strong>" ].

Definition PERIOD_PATTERNS : list pattern :=
  [ lits "Bill period" ++ [colon_spaces; Group date_token; spaces] ++ lits "-"
      ++ [spaces; Group date_token];
    lits "Service period" ++ [colon_spaces; Group date_token; spaces] ++ lits "to"
      ++ [spaces; Group date_token] ].

(** [for pattern in ...: match = re.search(...); if match: ...] *)
Fixpoint first_match (ps : list pattern) (text : string) : option (list string) :=
  match ps with
  | [] => None
  | p :: ps' =>
      match search p text with
      | Some groups => Some groups
      | None => first_match ps' text
      end
  end.

(** [float(s)] for a token [\d+\.\d{2}], in cents: the digits of the token
    read as one decimal number, the point left out. *)
Definition digit_value (c : ascii) : Z := Z.of_nat (nat_of_ascii c) - 48.

Fixpoint digits_from (acc : Z) (s : string) : Z :=
  match s with
  | EmptyString => acc
  | String c s' => if is_digit c then digits_from (10 * acc + digit_value c) s'
                   else digits_from acc s'
  end.

Definition float_of_token (s : string) : Z := digits_from 0 s.

Definition extract_amount (text : string) : option Z :=
  match first_match AMOUNT_PATTERNS text with
  | Some (g1 :: _) => Some (float_of_token g1)
  | _ => None
  end.

Definition extract_due_date (text : string) : option string :=
  match first_match DATE_PATTERNS text with
  | Some (g1 :: _) => Some g1
  | _ => None
  end.

Definition extract_bill_period (text : string) : option (string * string) :=
  match first_match PERIOD_PATTERNS text with
  | Some (g1 :: g2 :: _) => Some (g1, g2)
  | _ => None
  end.

(** The dictionary built by [parse_bill_email]. *)
Record parsed : Type := mkParsed {
  p_amount : Z;
  p_due_date : string;
  p_bill_period : option (string * string);
  p_raw_text : string
}.

(** The two [ValueError]s. *)
Inductive parse_error : Type :=
| CouldNotExtractAmount      (* "Could not extract bill amount from email" *)
| CouldNotExtractDueDate.    (* "Could not extract due date from email" *)

(** Python truthiness of an optional float and of an optional string. *)
Definition truthy_float (x : option Z) : bool :=
  match x with
  | Some v => negb (Z.eqb v 0)
  | None => false
  end.

Definition truthy_str (x : option string) : bool :=
  match x with
  | Some EmptyString => false
  | Some _ => true
  | None => false
  end.

Definition parse_bill_email (text : string) : parse_error + parsed :=
  let amount := extract_amount text in
  let due_date := extract_due_date text in
  let bill_period := extract_bill_period text in
  if negb (truthy_float amount) then inl CouldNotExtractAmount
  else if negb (truthy_str due_date) then inl CouldNotExtractDueDate
  else
    match amount, due_date with
    | Some a, Some d => inr (mkParsed a d bill_period text)
    | _, _ => inl CouldNotExtractAmount
    end.

(** ** Measures used to reason about captured groups *)

Definition min_len_item (i : item) : nat :=
  match i with
  | One _ => 1
  | Many _ lo _ => lo
  end.

Definition min_len (g : list item) : nat :=
  fold_right (fun i n => min_len_item i + n) 0 g.

Fixpoint groups_of (p : pattern) : list (list item) :=
  match p with
  | [] => []
  | Plain _ :: p' => groups_of p'
  | Group g :: p' => g :: groups_of p'
  end.

(** ** The rule a table answers with

    [no_rule ps text]: no rule of the table matches the text.
    [first_rule ps text p groups]: [p] is the first rule of the table, in the
    order of the table, that matches the text, and [groups] is what it
    captures at its leftmost match. *)

Definition no_rule (ps : list pattern) (text : string) : Prop :=
  Forall (fun q => search q text = None) ps.

Definition first_rule (ps : list pattern) (text : string) (p : pattern)
  (groups : list string) : Prop :=
  exists before after,
    ps = before ++ p :: after
    /\ no_rule before text
    /\ search p text = Some groups.

End Patterns.

(* ===================================================================== *)
(** * config/settings.py *)
(* ===================================================================== *)

Module Settings.

(** The two configured split ratios, [float(os.getenv(...))]. *)
Inductive ratio : Type :=
| ROOMMATE_SPLIT_RATIO
| MY_SPLIT_RATIO.

(** [amount * ratio], a binary64 product, left unevaluated. *)
Record product : Type := Times {
  factor_amount : Z;
  factor_ratio : ratio
}.

End Settings.

(* ===================================================================== *)
(** * Python floats: the amount, the ratios and the two products *)
(* ===================================================================== *)

(** A Python [float] is a binary64 number: [float(s)] is the binary64 number
    nearest to the decimal numeral [s], and [x * y] is the binary64 number
    nearest to the exact product, ties going to the even mantissa in both.
    These are [SFdiv] and [SFmul] of the standard library's specification of
    IEEE 754 arithmetic, at precision 53 and maximal exponent 1024. *)

Module Binary64.

Import Settings.

#[local] Open Scope Z_scope.

Definition prec : Z := 53.
Definition emax : Z := 1024.

(** [float(s)] for a decimal numeral [s] that reads num / den. *)
Definition float_of_decimal (num : Z) (den : positive) : spec_float :=
  match num with
  | Z0 => S754_zero false
  | Zpos p => SFdiv prec emax (S754_finite false p 0) (S754_finite false den 0)
  | Zneg p => SFdiv prec emax (S754_finite true p 0) (S754_finite false den 0)
  end.

(** [float(match.group(1))] for a token [\d+\.\d{2}] that reads so many
    cents. *)
Definition float_of_cents (cents : Z) : spec_float := float_of_decimal cents 100.

(** The values of [settings.ROOMMATE_SPLIT_RATIO] and
    [settings.MY_SPLIT_RATIO]: [float(os.getenv(...))], whatever the
    environment holds. *)
Record split_ratios : Type := mkSplitRatios {
  roommate_ratio : spec_float;
  my_ratio : spec_float
}.

Definition ratio_value (cfg : split_ratios) (r : ratio) : spec_float :=
  match r with
  | ROOMMATE_SPLIT_RATIO => roommate_ratio cfg
  | MY_SPLIT_RATIO => my_ratio cfg
  end.

(** The defaults, [float('0.333333')] and [float('0.666667')]. *)
Definition default_ratios : split_ratios :=
  mkSplitRatios (float_of_decimal 333333 1000000)
                (float_of_decimal 666667 1000000).

(** The binary64 number a product [amount * ratio] is, and that sqlite
    stores as it is. *)
Definition stored (cfg : split_ratios) (p : product) : spec_float :=
  SFmul prec emax (float_of_cents (factor_amount p))
        (ratio_value cfg (factor_ratio p)).

(** ** Exact values

    A finite binary64 number is a whole multiple of 2^-1074.  [units x] is
    that multiple, so [units x / one] is the number itself. *)

Definition one : Z := 2 ^ 1074.

Definition units (x : spec_float) : Z :=
  match x with
  | S754_finite s m e => (if s then -1 else 1) * (Z.pos m * 2 ^ (e + 1074))
  | _ => 0
  end.

(** Zero, or a positive finite number. *)
Definition plain (x : spec_float) : bool :=
  match x with
  | S754_zero _ => true
  | S754_finite false _ e => -1074 <=? e
  | _ => false
  end.

(** A ratio: a binary64 number that is finite and not negative. *)
Definition is_ratio (x : spec_float) : bool :=
  valid_binary prec emax x && plain x.

(** Two ratios that sum to 1.0, to within 10^-12. *)
Definition valid_ratios (cfg : split_ratios) : bool :=
  is_ratio (roommate_ratio cfg) && is_ratio (my_ratio cfg)
  && (10 ^ 12 * Z.abs (units (roommate_ratio cfg) + units (my_ratio cfg) - one)
      <=? one).

(** [x + y], taken exactly, is less than half a cent away from an amount of
    so many cents. *)
Definition sums_to_the_cent (x y : spec_float) (cents : Z) : bool :=
  plain x && plain y
  && (2 * Z.abs (100 * (units x + units y) - cents * one) <? one).

(** ** Rounding

    [located N P mrs]: the record of [binary_round_aux] stands for the
    number N / P: its mantissa is the integer part, and the round and sticky
    bits tell where the rest lies between two integers. *)
Definition located (N P : Z) (mrs : shr_record) : Prop :=
  let rest := N - shr_m mrs * P in
  0 <= shr_m mrs
  /\ 0 <= rest < P
  /\ (shr_r mrs = false -> 2 * rest < P)
  /\ (shr_r mrs = true -> P <= 2 * rest)
  /\ (shr_s mrs = false -> shr_r mrs = false -> rest = 0)
  /\ (shr_s mrs = false -> shr_r mrs = true -> 2 * rest = P).

End Binary64.

(* ===================================================================== *)
(** * The sqlite3 connection *)
(* ===================================================================== *)

(** [sqlite3.connect] with the default isolation level: an INSERT or UPDATE
    opens a transaction implicitly, [commit] makes the pending changes
    durable, and [close] does not commit, so whatever is still pending is
    rolled back.  [_get_connection] only closes the connection it yields. *)

Module Sqlite.

Section Connection.

Variable DB : Type.

Record connection : Type := mkConnection {
  durable : DB;     (* what the database file holds *)
  working : DB      (* what statements on this connection see *)
}.

Definition connect (d : DB) : connection := mkConnection d d.

Definition execute (stmt : DB -> DB) (conn : connection) : connection :=
  mkConnection (durable conn) (stmt (working conn)).

Definition commit (conn : connection) : connection :=
  mkConnection (working conn) (working conn).

Definition close (conn : connection) : DB := durable conn.

End Connection.

Arguments mkConnection {DB}.
Arguments durable {DB}.
Arguments working {DB}.
Arguments connect {DB}.
Arguments execute {DB}.
Arguments commit {DB}.
Arguments close {DB}.

End Sqlite.

(* ===================================================================== *)
(** * src/database.py *)
(* ===================================================================== *)

Module Database.

Import Settings Sqlite.

(** ** The two tables *)

Record bill : Type := mkBill {
  id : Z;                              (* INTEGER PRIMARY KEY AUTOINCREMENT *)
  bill_amount : Z;                     (* NOT NULL *)
  due_date : string;                   (* NOT NULL, the text MM/DD/YYYY *)
  bill_period_start : option string;
  bill_period_end : option string;
  roommate_portion : product;          (* NOT NULL *)
  my_portion : product;                (* NOT NULL *)
  email_id : string;                   (* NOT NULL *)
  email_subject : string;
  email_date : string;
  pdf_path : option string;
  pdf_generated : bool;                (* DEFAULT FALSE *)
  pdf_sent : bool;                     (* DEFAULT FALSE *)
  venmo_link : option string;
  venmo_sent : bool;                   (* DEFAULT FALSE *)
  processed_date : Z;                  (* DEFAULT CURRENT_TIMESTAMP *)
  status : string;                     (* DEFAULT 'pending' *)
  notes : option string
}.

(** The formatted texts stored in [processing_log.details]. *)
Inductive details_text : Type :=
| DuplicateOf (original_email new_email existing_status : string)
    (* "Duplicate bill detected. Original email: .., New email: .., Status: .." *)
| NewBillOf (amount : Z) (due : string)       (* "New bill added: $.. due .." *)
| StatusChangedTo (new_status : string)         (* "Status changed to: .." *)
| PdfSavedTo (path : string)                    (* "PDF saved to: .." *)
| PdfSentToRoommate                             (* "PDF sent to roommate" *)
| VenmoLinkGenerated (link : string)            (* "Venmo link generated: .." *)
| OtherText (s : string).

Record log_row : Type := mkLog {
  log_id : Z;                          (* INTEGER PRIMARY KEY AUTOINCREMENT *)
  log_bill_id : option Z;              (* FOREIGN KEY, not enforced *)
  action : string;                     (* NOT NULL *)
  details : option details_text;
  timestamp : Z                        (* DEFAULT CURRENT_TIMESTAMP *)
}.

Record database : Type := mkDatabase {
  bills : list bill;                   (* in rowid order *)
  processing_log : list log_row;       (* in rowid order *)
  bills_seq : Z;                       (* sqlite_sequence, table bills *)
  log_seq : Z                          (* sqlite_sequence, table processing_log *)
}.

(** [_ensure_database] on a new file. *)
Definition empty_database : database := mkDatabase [] [] 0 0.

(** AUTOINCREMENT: one more than the largest rowid the table has ever held. *)
Definition next_rowid (seq : Z) (rowids : list Z) : Z :=
  1 + fold_right Z.max seq rowids.

(** ** Statements *)

(* WHERE bill_amount = ? AND due_date = ? *)
Definition same_key (amount : Z) (due : string) (b : bill) : bool :=
  Z.eqb (bill_amount b) amount && String.eqb (due_date b) due.

Definition log_insert (now : Z) (bill_id : option Z) (act : string)
  (det : option details_text) (d : database) : database :=
  let rowid := next_rowid (log_seq d) (map log_id (processing_log d)) in
  mkDatabase (bills d)
             (processing_log d ++ [mkLog rowid bill_id act det now])
             (bills_seq d) rowid.

Definition _log_action (now : Z) (conn : connection database) (bill_id : option Z)
  (act : string) (det : option details_text) : connection database :=
  execute (log_insert now bill_id act det) conn.

(* UPDATE bills SET ... WHERE id = ? *)
Definition update_where_id (bill_id : Z) (set : bill -> bill) (d : database)
  : database :=
  mkDatabase (map (fun b => if Z.eqb (id b) bill_id then set b else b) (bills d))
             (processing_log d) (bills_seq d) (log_seq d).

Definition bills_insert (row : bill) (d : database) : database :=
  mkDatabase (bills d ++ [row]) (processing_log d) (id row) (log_seq d).

(** ORDER BY: a stable insertion sort; [before x y] says that [x] may
    precede [y].  SQL leaves the order of rows with equal keys open. *)
Fixpoint insert_by {A : Type} (before : A -> A -> bool) (x : A) (l : list A)
  : list A :=
  match l with
  | [] => [x]
  | y :: l' => if before x y then x :: l else y :: insert_by before x l'
  end.

Fixpoint order_by {A : Type} (before : A -> A -> bool) (l : list A) : list A :=
  match l with
  | [] => []
  | x :: l' => insert_by before x (order_by before l')
  end.

(* LIMIT ?  (a negative bound means no bound) *)
Definition sql_limit {A : Type} (n : Z) (l : list A) : list A :=
  if Z.ltb n 0 then l else firstn (Z.to_nat n) l.

(** ** add_bill *)

Record bill_info : Type := mkBillInfo {
  amount : Z;
  info_due_date : string;
  bill_period : option (string * string);
  raw_text : string;
  info_email_id : string;
  info_email_subject : string;
  info_email_date : string;
  email_body : string
}.

(** The second component of the tuple [add_bill] returns. *)
Inductive add_message : Type :=
| DuplicateBillDetected (amount : Z) (due : string) (original_processed_on : Z)
| NewBillAdded (amount : Z) (due : string) (roommate you : product)
| DatabaseIntegrityError
| ErrorAddingBill.

Definition new_bill_row (now rowid : Z) (info : bill_info) : bill :=
  mkBill rowid (amount info) (info_due_date info)
    (option_map fst (bill_period info)) (option_map snd (bill_period info))
    (Times (amount info) ROOMMATE_SPLIT_RATIO) (Times (amount info) MY_SPLIT_RATIO)
    (info_email_id info) (info_email_subject info) (info_email_date info)
    None false false None false now "pending"
    (Some (String.append "Added from email: " (info_email_subject info))).

(** [raises]: a sqlite3 call inside the [try] raises an error other than a
    constraint violation (locked or unreachable database file). Nothing has
    been committed at that point. *)
Definition add_bill (now : Z) (raises : bool) (info : bill_info) (d : database)
  : database * (bool * add_message * option Z) :=
  if raises then (d, (false, ErrorAddingBill, None))
  else
    let roommate := Times (amount info) ROOMMATE_SPLIT_RATIO in
    let mine := Times (amount info) MY_SPLIT_RATIO in
    let conn := connect d in
    match find (same_key (amount info) (info_due_date info)) (bills (working conn)) with
    | Some existing =>
        let conn := _log_action now conn (Some (id existing)) "duplicate_detected"
                      (Some (DuplicateOf (email_id existing) (info_email_id info)
                                         (status existing))) in
        (close conn,
         (false,
          DuplicateBillDetected (amount info) (info_due_date info)
                                (processed_date existing),
          None))
    | None =>
        (* UNIQUE(bill_amount, due_date) *)
        if existsb (same_key (amount info) (info_due_date info)) (bills (working conn))
        then (close conn, (false, DatabaseIntegrityError, None))
        else
          let bill_id := next_rowid (bills_seq (working conn))
                                    (map id (bills (working conn))) in
          let conn := execute (bills_insert (new_bill_row now bill_id info)) conn in
          let conn := _log_action now conn (Some bill_id) "bill_added"
                        (Some (NewBillOf (amount info) (info_due_date info))) in
          let conn := commit conn in
          (close conn,
           (true,
            NewBillAdded (amount info) (info_due_date info) roommate mine,
            Some bill_id))
    end.

(** The database the insert path commits. *)
Definition added (now : Z) (info : bill_info) (d : database) : database :=
  let bill_id := next_rowid (bills_seq d) (map id (bills d)) in
  log_insert now (Some bill_id) "bill_added"
             (Some (NewBillOf (amount info) (info_due_date info)))
             (bills_insert (new_bill_row now bill_id info) d).

Definition log_action (now : Z) (raises : bool) (bill_id : option Z) (act : string)
  (det : option details_text) (d : database) : database :=
  if raises then d
  else close (commit (_log_action now (connect d) bill_id act det)).

(** ** Reads *)

Definition get_bill_by_id (bill_id : Z) (d : database) : option bill :=
  find (fun b => Z.eqb (id b) bill_id) (bills d).

Definition get_bills_by_status (st : string) (d : database) : list bill :=
  order_by (fun x y => String.leb (due_date x) (due_date y))
           (filter (fun b => String.eqb (status b) st) (bills d)).

(** ** Updates *)

Definition set_status (st : string) (new_notes : option string) (b : bill) : bill :=
  mkBill (id b) (bill_amount b) (due_date b) (bill_period_start b)
    (bill_period_end b) (roommate_portion b) (my_portion b) (email_id b)
    (email_subject b) (email_date b) (pdf_path b) (pdf_generated b) (pdf_sent b)
    (venmo_link b) (venmo_sent b) (processed_date b)
    st
    (match new_notes with Some n => Some n | None => notes b end).  (* COALESCE *)

Definition set_pdf_generated (path : string) (b : bill) : bill :=
  mkBill (id b) (bill_amount b) (due_date b) (bill_period_start b)
    (bill_period_end b) (roommate_portion b) (my_portion b) (email_id b)
    (email_subject b) (email_date b) (Some path) true (pdf_sent b)
    (venmo_link b) (venmo_sent b) (processed_date b) (status b) (notes b).

Definition set_pdf_sent (b : bill) : bill :=
  mkBill (id b) (bill_amount b) (due_date b) (bill_period_start b)
    (bill_period_end b) (roommate_portion b) (my_portion b) (email_id b)
    (email_subject b) (email_date b) (pdf_path b) (pdf_generated b) true
    (venmo_link b) (venmo_sent b) (processed_date b) (status b) (notes b).

Definition set_venmo_sent (link : string) (b : bill) : bill :=
  mkBill (id b) (bill_amount b) (due_date b) (bill_period_start b)
    (bill_period_end b) (roommate_portion b) (my_portion b) (email_id b)
    (email_subject b) (email_date b) (pdf_path b) (pdf_generated b) (pdf_sent b)
    (Some link) true (processed_date b) (status b) (notes b).

(** The shape shared by the four updates: one UPDATE, one log row, commit. *)
Definition update_and_log (now : Z) (raises : bool) (bill_id : Z)
  (set : bill -> bill) (act : string) (det : details_text) (d : database)
  : database * bool :=
  if raises then (d, false)
  else
    let conn := connect d in
    let conn := execute (update_where_id bill_id set) conn in
    let conn := _log_action now conn (Some bill_id) act (Some det) in
    let conn := commit conn in
    (close conn, true).

Definition update_bill_status (now : Z) (raises : bool) (bill_id : Z) (st : string)
  (new_notes : option string) (d : database) : database * bool :=
  update_and_log now raises bill_id (set_status st new_notes)
                 "status_updated" (StatusChangedTo st) d.

Definition mark_pdf_generated (now : Z) (raises : bool) (bill_id : Z) (path : string)
  (d : database) : database * bool :=
  update_and_log now raises bill_id (set_pdf_generated path)
                 "pdf_generated" (PdfSavedTo path) d.

Definition mark_pdf_sent (now : Z) (raises : bool) (bill_id : Z) (d : database)
  : database * bool :=
  update_and_log now raises bill_id set_pdf_sent "pdf_sent" PdfSentToRoommate d.

Definition mark_venmo_sent (now : Z) (raises : bool) (bill_id : Z) (link : string)
  (d : database) : database * bool :=
  update_and_log now raises bill_id (set_venmo_sent link)
                 "venmo_sent" (VenmoLinkGenerated link) d.

(** ** get_processing_log *)

Inductive log_view : Type :=
| LogRow (r : log_row)                       (* SELECT * FROM processing_log *)
| LogRowWithBill (r : log_row) (b_amount : option Z) (b_due_date : option string).
                                             (* pl.*, b.bill_amount, b.due_date *)

Definition view_row (v : log_view) : log_row :=
  match v with
  | LogRow r => r
  | LogRowWithBill r _ _ => r
  end.

(* processing_log pl LEFT JOIN bills b ON pl.bill_id = b.id *)
Definition left_join_bills (d : database) : list log_view :=
  flat_map
    (fun r =>
       match filter (fun b => match log_bill_id r with
                              | Some i => Z.eqb i (id b)
                              | None => false
                              end) (bills d) with
       | [] => [LogRowWithBill r None None]
       | matches =>
           map (fun b => LogRowWithBill r (Some (bill_amount b)) (Some (due_date b)))
               matches
       end)
    (processing_log d).

Definition newest_first (x y : log_view) : bool :=
  Z.leb (timestamp (view_row y)) (timestamp (view_row x)).

(* [if bill_id:] *)
Definition truthy_int (x : option Z) : bool :=
  match x with
  | Some n => negb (Z.eqb n 0)
  | None => false
  end.

Definition get_processing_log (bill_id : option Z) (limit : Z) (d : database)
  : list log_view :=
  if truthy_int bill_id then
    sql_limit limit
      (order_by newest_first
         (map LogRow
            (filter (fun r => match log_bill_id r, bill_id with
                              | Some i, Some j => Z.eqb i j
                              | _, _ => false
                              end) (processing_log d))))
  else
    sql_limit limit (order_by newest_first (left_join_bills d)).


End Database.

(* ===================================================================== *)
(** * src/gmail_parser.py, as far as the run reads it *)
(* ===================================================================== *)

Module Gmail.

Import Patterns Database.

(** A call either returns or raises. *)
Inductive outcome (A : Type) : Type :=
| Returned (a : A)
| Raised.

Arguments Returned {A}.
Arguments Raised {A}.

Record email : Type := mkEmail {
  subject : string;
  date : string;
  body : string
}.

(** What the Gmail API does for one message id: [get_email_content] returns
    the message, returns [None] after an [HttpError], or lets any other
    exception through. *)
Inductive fetched : Type :=
| Message (e : email)
| HttpError
| OtherFailure.

Definition get_email_content (mailbox : string -> fetched) (message_id : string)
  : outcome (option email) :=
  match mailbox message_id with
  | Message e => Returned (Some e)
  | HttpError => Returned None
  | OtherFailure => Raised
  end.

Definition parse_pge_bill (mailbox : string -> fetched) (message_id : string)
  : outcome (option bill_info) :=
  match get_email_content mailbox message_id with
  | Raised => Raised
  | Returned None => Returned None
  | Returned (Some e) =>
      match parse_bill_email (body e) with
      | inr p =>
          Returned (Some (mkBillInfo (p_amount p) (p_due_date p) (p_bill_period p)
                                     (p_raw_text p) message_id (subject e) (date e)
                                     (body e)))
      | inl _ => Returned None          (* except ValueError *)
      end
  end.

End Gmail.

(* ===================================================================== *)
(** * src/bill_processor.py *)
(* ===================================================================== *)

Module Processor.

Import Settings Database Gmail.

Record new_bill : Type := mkNewBill {
  nb_bill_id : option Z;
  nb_amount : Z;
  nb_due_date : string;
  nb_roommate_portion : product;
  nb_email_subject : string
}.

Record duplicate_bill : Type := mkDuplicateBill {
  db_amount : Z;
  db_due_date : string;
  db_email_subject : string
}.

Inductive error_message : Type :=
| FailedToParseEmail (message_id : string)     (* "Failed to parse email .." *)
| ErrorProcessing (message_id : string).       (* "Error processing ..: .." *)

Record results : Type := mkResults {
  processed : nat;
  duplicates : nat;
  errors : nat;
  new_bills : list new_bill;
  duplicate_bills : list duplicate_bill;
  error_messages : list error_message
}.

Definition no_results : results := mkResults 0 0 0 [] [] [].

Definition count_error (m : error_message) (r : results) : results :=
  mkResults (processed r) (duplicates r) (S (errors r))
            (new_bills r) (duplicate_bills r) (error_messages r ++ [m]).

Definition count_processed (b : new_bill) (r : results) : results :=
  mkResults (S (processed r)) (duplicates r) (errors r)
            (new_bills r ++ [b]) (duplicate_bills r) (error_messages r).

Definition count_duplicate (b : duplicate_bill) (r : results) : results :=
  mkResults (processed r) (S (duplicates r)) (errors r)
            (new_bills r) (duplicate_bills r ++ [b]) (error_messages r).

(** What surrounds one run: the mailbox, the clock and the database file. *)
Record world : Type := mkWorld {
  mailbox : string -> fetched;
  clock : string -> Z;               (* CURRENT_TIMESTAMP while a message is handled *)
  sqlite_raises : string -> bool     (* the database raises while it is handled *)
}.

(** The body of [for i, message in enumerate(messages, 1)]. *)
Definition process_message (w : world) (st : database * results)
  (message_id : string) : database * results :=
  let (d, res) := st in
  match parse_pge_bill (mailbox w) message_id with
  | Raised => (d, count_error (ErrorProcessing message_id) res)
  | Returned None => (d, count_error (FailedToParseEmail message_id) res)
  | Returned (Some info) =>
      let '(d', (success, _, bill_id)) :=
        add_bill (clock w message_id) (sqlite_raises w message_id) info d in
      if success
      then (d', count_processed
                  (mkNewBill bill_id (amount info) (info_due_date info)
                             (Times (amount info) ROOMMATE_SPLIT_RATIO)
                             (info_email_subject info)) res)
      else (d', count_duplicate
                  (mkDuplicateBill (amount info) (info_due_date info)
                                   (info_email_subject info)) res)
  end.

Definition process_latest_bills (w : world) (messages : list string) (d : database)
  : database * results :=
  match messages with
  | [] => (d, no_results)                           (* "No PG&E emails found" *)
  | _ => fold_left (process_message w) messages (d, no_results)
  end.

(** How many messages a summary accounts for, and whether its counters agree
    with its lists. *)
Definition counted (r : results) : nat :=
  (processed r + duplicates r + errors r)%nat.

Definition consistent (r : results) : Prop :=
  List.length (new_bills r) = processed r
  /\ List.length (duplicate_bills r) = duplicates r
  /\ List.length (error_messages r) = errors r.

Definition get_pending_bills (d : database) : list bill :=
  get_bills_by_status "pending" d.

Definition mark_bill_completed (now : Z) (raises : bool) (bill_id : Z)
  (new_notes : option string) (d : database) : database * bool :=
  update_bill_status now raises bill_id "completed" new_notes d.

End Processor.

(* ===================================================================== *)
(** * src/scheduler.py: step 3 of the generated monthly_automation.py *)
(* ===================================================================== *)

Module Automation.

Import Settings Database Gmail Processor.

(** The dictionary returned by [process_bill_venmo_request]. *)
Record venmo_result : Type := mkVenmoResult {
  success : bool;
  venmo_url : string
}.

Record processed_bill : Type := mkProcessedBill {
  pb_bill_id : Z;
  pb_bill_amount : Z;
  pb_due_date : string;
  pb_roommate_portion : product;
  pb_my_portion : product
}.

(** The collaborators of the run.  [generate_bill_pdf] and
    [process_bill_venmo_request] catch their own exceptions;
    [send_bill_notification] belongs to a module outside the sources at hand
    and may return or raise. *)
Record collaborators : Type := mkCollaborators {
  inbox : string -> fetched;
  generate_bill_pdf : bill -> string -> option string;
  process_bill_venmo_request : bill -> bool -> venmo_result;
  send_bill_notification : bill -> option string -> venmo_result -> outcome bool;
  ENABLE_AUTO_OPEN : bool;
  now : Z;
  db_raises : bool
}.

Definition run_state : Type := (database * list processed_bill)%type.

(** "Generate Venmo request": the last part of the loop body. *)
Definition venmo_step (c : collaborators) (bill_id : Z) (b : bill) (st : run_state)
  : run_state :=
  let (d, processed_bills) := st in
  let venmo := process_bill_venmo_request c b (ENABLE_AUTO_OPEN c) in
  if success venmo then
    let d := fst (mark_venmo_sent (now c) (db_raises c) bill_id (venmo_url venmo) d) in
    (d, processed_bills ++
          [mkProcessedBill bill_id (bill_amount b) (due_date b)
                           (roommate_portion b) (my_portion b)])
  else (d, processed_bills).

(** "Send email notification", followed by the Venmo step.  An exception of
    the notifier ends the iteration ([except Exception: continue]). *)
Definition email_step (c : collaborators) (bill_id : Z) (b : bill) (st : run_state)
  : run_state :=
  let (d, processed_bills) := st in
  if negb (pdf_sent b) && pdf_generated b then
    let venmo := process_bill_venmo_request c b false in
    if success venmo then
      match send_bill_notification c b (pdf_path b) venmo with
      | Raised => (d, processed_bills)
      | Returned true =>
          venmo_step c bill_id b
            (fst (mark_pdf_sent (now c) (db_raises c) bill_id d), processed_bills)
      | Returned false => venmo_step c bill_id b (d, processed_bills)
      end
    else venmo_step c bill_id b (d, processed_bills)
  else venmo_step c bill_id b (d, processed_bills).

(** The body of [for bill_info in results['new_bills']].  [b] is the
    dictionary read once by [db.get_bill_by_id]; the later steps test that
    same dictionary. *)
Definition process_new_bill (c : collaborators) (st : run_state) (nb : new_bill)
  : run_state :=
  let (d, processed_bills) := st in
  match nb_bill_id nb with
  | None => st
  | Some bill_id =>
      match get_bill_by_id bill_id d with
      | None => st                      (* "Could not retrieve bill" *)
      | Some b =>
          if negb (pdf_generated b) then
            match get_email_content (inbox c) (email_id b) with
            | Raised => st
            | Returned None => st       (* "Could not retrieve email content" *)
            | Returned (Some e) =>
                match generate_bill_pdf c b (body e) with
                | Some (String ch path) =>
                    email_step c bill_id b
                      (fst (mark_pdf_generated (now c) (db_raises c) bill_id
                                               (String ch path) d),
                       processed_bills)
                | _ => st               (* "PDF generation failed" *)
                end
            end
          else email_step c bill_id b st
      end
  end.

Definition process_new_bills (c : collaborators) (news : list new_bill)
  (d : database) : run_state :=
  fold_left (process_new_bill c) news (d, []).

End Automation.

(* ===================================================================== *)
(** * Calendar order of due dates *)
(* ===================================================================== *)

Module Calendar.

Import Patterns.

(** The date a text MM/DD/YYYY denotes, as (year, month, day). *)
Definition date_of (s : string) : Z * Z * Z :=
  (digits_from 0 (substring 6 4 s),
   digits_from 0 (substring 0 2 s),
   digits_from 0 (substring 3 2 s)).

Definition not_after (x y : string) : bool :=
  let '(y1, m1, d1) := date_of x in
  let '(y2, m2, d2) := date_of y in
  Z.ltb y1 y2
  || (Z.eqb y1 y2 && (Z.ltb m1 m2 || (Z.eqb m1 m2 && Z.leb d1 d2))).

Fixpoint ascending (dates : list string) : bool :=
  match dates with
  | x :: ((y :: _) as rest) => not_after x y && ascending rest
  | _ => true
  end.

End Calendar.

(* ===================================================================== *)
(** * Concrete runs *)
(* ===================================================================== *)

Module Scenarios.

Import Patterns Settings Database Gmail Processor Automation.

#[local] Open Scope Z_scope.

(** A statement whose balance is zero. *)
Definition zero_balance_text : string :=
  "Amount Due: $0.00 Due Date: 01/15/2026".

Definition labelled_text : string :=
  "Amount Due: $123.45 Due Date: 01/15/2026".

(** A statement with a zero balance brought forward and an amount due. *)
Definition two_amounts_text : string :=
  "Statement balance: $0.00 Amount Due: $50.00 Due Date: 01/15/2026".

Definition august_plain : bill_info :=
  mkBillInfo 28815 "08/08/2025" None "Amount Due: $288.15 Due Date: 08/08/2025"
             "msg-plain" "Your PG&E statement" "Fri, 18 Jul 2025"
             "Amount Due: $288.15 Due Date: 08/08/2025".

Definition august_markup : bill_info :=
  mkBillInfo 28815 "08/08/2025" None "**$288.15** **08/08/2025**"
             "msg-markup" "Your PG&E statement is ready" "Sat, 19 Jul 2025"
             "**$288.15** **08/08/2025**".

Definition august_database : database :=
  fst (add_bill 100 false august_plain empty_database).

Definition december_bill : bill_info :=
  mkBillInfo 10000 "12/15/2025" None "Amount Due: $100.00 Due Date: 12/15/2025"
             "msg-dec" "Your PG&E statement" "Tue, 25 Nov 2025"
             "Amount Due: $100.00 Due Date: 12/15/2025".

Definition january_bill : bill_info :=
  mkBillInfo 12000 "01/15/2026" None "Amount Due: $120.00 Due Date: 01/15/2026"
             "msg-jan" "Your PG&E statement" "Fri, 26 Dec 2025"
             "Amount Due: $120.00 Due Date: 01/15/2026".

Definition year_end_database : database :=
  fst (add_bill 200 false january_bill
         (fst (add_bill 100 false december_bill empty_database))).

(** A run over one well-formed message while the database file is locked. *)
Definition locked_world : world :=
  mkWorld (fun _ => Message (mkEmail "Your PG&E statement" "Fri, 18 Jul 2025"
                                     "Amount Due: $288.15 Due Date: 08/08/2025"))
          (fun _ => 100)
          (fun _ => true).

(** Collaborators that all succeed. *)
Definition willing : collaborators :=
  mkCollaborators
    (fun _ => Message (mkEmail "Your PG&E statement" "Fri, 18 Jul 2025"
                               "Amount Due: $288.15 Due Date: 08/08/2025"))
    (fun _ _ => Some "data/pdfs/08-08-2025-pge-bill.pdf")
    (fun _ _ => mkVenmoResult true "venmo://paycharge?txn=charge")
    (fun _ _ _ => Returned true)
    true 300 false.

(** One run over the inbox holding the August statement. *)
Definition august_world : world :=
  mkWorld (fun _ => Message (mkEmail "Your PG&E statement" "Fri, 18 Jul 2025"
                                     "Amount Due: $288.15 Due Date: 08/08/2025"))
          (fun _ => 100)
          (fun _ => false).

Definition august_run : database * results :=
  process_latest_bills august_world ["msg-plain"] empty_database.

(** Step 3 of the automation after that run. *)
Definition august_pass : run_state :=
  process_new_bills willing (new_bills (snd august_run)) (fst august_run).

Definition flags (b : bill) : bool * bool * bool * string :=
  (pdf_generated b, pdf_sent b, venmo_sent b, status b).

(** An inbox of three messages: one that is gone, an outage notice, and the
    August statement. *)
Definition three_messages (message_id : string) : fetched :=
  if String.eqb message_id "msg-plain"
  then Message (mkEmail "Your PG&E statement" "Fri, 18 Jul 2025"
                        "Amount Due: $288.15 Due Date: 08/08/2025")
  else if String.eqb message_id "msg-notice"
  then Message (mkEmail "Outage notice" "Thu, 17 Jul 2025" "Planned maintenance")
  else HttpError.

(** A statement over fifty-three million million dollars. *)
Definition large_text : string :=
  "Amount Due: $53077652236138.90 Due Date: 08/08/2025".

Definition large_bill : bill_info :=
  mkBillInfo 5307765223613890 "08/08/2025" None large_text
             "msg-large" "Your PG&E statement" "Fri, 18 Jul 2025" large_text.

(** A log with one row attached to bill 0 and one row attached to bill 1. *)
Definition log_with_bill_zero : database :=
  log_action 150 false (Some 0) "note" (Some (OtherText "manual entry"))
             august_database.

End Scenarios.

(* ===================================================================== *)
(** * config/pge_patterns.py: the shape of what is extracted *)
(* ===================================================================== *)

Module Tokens.

Import Patterns.

Fixpoint string_forall (f : ascii -> bool) (s : string) : bool :=
  match s with
  | EmptyString => true
  | String c s' => f c && string_forall f s'
  end.

(** Two digits, a slash, two digits, a slash, four digits. *)
Definition is_date_token (s : string) : bool :=
  match s with
  | String m1 (String m2 (String s1 (String d1 (String d2 (String s2
      (String y1 (String y2 (String y3 (String y4 EmptyString))))))))) =>
      is_digit m1 && is_digit m2 && Ascii.eqb s1 "/"
      && is_digit d1 && is_digit d2 && Ascii.eqb s2 "/"
      && is_digit y1 && is_digit y2 && is_digit y3 && is_digit y4
  | _ => false
  end.

(** The text with every letter A-Z replaced by a-z. *)
Fixpoint fold_case (s : string) : string :=
  match s with
  | EmptyString => EmptyString
  | String c s' => String (lower c) (fold_case s')
  end.

Definition fold_split (tr : string * string) : string * string :=
  (fold_case (fst tr), fold_case (snd tr)).

Definition fold_groups (gr : list string * string) : list string * string :=
  (map fold_case (fst gr), fold_case (snd gr)).

End Tokens.

(* ===================================================================== *)
(** * src/database.py: further queries, and what the tables keep *)
(* ===================================================================== *)

Module Ledger.

Import Settings Sqlite Database.

(** [get_recent_bills]: ORDER BY processed_date DESC LIMIT ? *)
Definition get_recent_bills (limit : Z) (d : database) : list bill :=
  sql_limit limit
    (order_by (fun x y => Z.leb (processed_date y) (processed_date x)) (bills d)).

(** The deduplication key of a bill. *)
Definition key (b : bill) : Z * string := (bill_amount b, due_date b).

(** The columns no statement of the file ever assigns after the INSERT. *)
Definition fixed_columns (b : bill)
  : Z * Z * string * option string * option string * product * product
    * string * string * string * Z :=
  (id b, bill_amount b, due_date b, bill_period_start b, bill_period_end b,
   roommate_portion b, my_portion b, email_id b, email_subject b, email_date b,
   processed_date b).

(** The schema's constraints: rowids ascend in both tables, and the pair
    (bill_amount, due_date) is unique. *)
Definition well_formed (d : database) : Prop :=
  StronglySorted Z.lt (map id (bills d))
  /\ NoDup (map key (bills d))
  /\ StronglySorted Z.lt (map log_id (processing_log d)).

(** A later state of one bill: same fixed columns, no progress flag cleared. *)
Definition bill_evolves (b b' : bill) : Prop :=
  fixed_columns b' = fixed_columns b
  /\ (pdf_generated b = true -> pdf_generated b' = true)
  /\ (pdf_sent b = true -> pdf_sent b' = true)
  /\ (venmo_sent b = true -> venmo_sent b' = true).

(** A later state of the database: the log has only grown at its end, every
    bill is still there in its place, and new bills come after them. *)
Definition evolves (d d' : database) : Prop :=
  (exists rows, processing_log d' = processing_log d ++ rows)
  /\ (exists olds news, bills d' = olds ++ news
                        /\ Forall2 bill_evolves (bills d) olds).

End Ledger.

(* ===================================================================== *)
(** * src/gmail_parser.py: get_latest_bill *)
(* ===================================================================== *)

Module Inbox.

Import Database Gmail.

(** [for message in messages: bill = self.parse_pge_bill(message['id']);
    if bill: return bill], then [None]; an empty search result gives [None]
    at once. *)
Fixpoint get_latest_bill (mailbox : string -> fetched) (messages : list string)
  : outcome (option bill_info) :=
  match messages with
  | [] => Returned None
  | message_id :: rest =>
      match parse_pge_bill mailbox message_id with
      | Raised => Raised
      | Returned (Some bill) => Returned (Some bill)
      | Returned None => get_latest_bill mailbox rest
      end
  end.

(** What a message of the mailbox can be to [get_latest_bill].
    [gives_no_bill]: fetching it ends in an [HttpError], or it is fetched and
    its body is rejected by [parse_bill_email].
    [gives_bill]: it is fetched and its body parses; the bill is made of the
    parsed fields, the message id and the headers of the message. *)
Definition gives_no_bill (mailbox : string -> fetched) (message_id : string)
  : Prop :=
  mailbox message_id = HttpError
  \/ exists e err, mailbox message_id = Message e
                   /\ Patterns.parse_bill_email (body e) = inl err.

Definition gives_bill (mailbox : string -> fetched) (message_id : string)
  (bill : bill_info) : Prop :=
  exists e p, mailbox message_id = Message e
              /\ Patterns.parse_bill_email (body e) = inr p
              /\ bill = mkBillInfo (Patterns.p_amount p) (Patterns.p_due_date p)
                                   (Patterns.p_bill_period p)
                                   (Patterns.p_raw_text p)
                                   message_id (subject e) (date e) (body e).

End Inbox.

(* ===================================================================== *)
(** * src/bill_processor.py: what a run leaves, and the duplicate test *)
(* ===================================================================== *)

Module Runs.

Import Settings Database Gmail Processor.

(** Whether [parse_pge_bill] yields a bill for a message. *)
Definition parses (w : world) (message_id : string) : bool :=
  match parse_pge_bill (mailbox w) message_id with
  | Returned (Some _) => true
  | _ => false
  end.

(** A bill no step of the workflow has touched. *)
Definition untouched (b : bill) : Prop :=
  pdf_path b = None /\ pdf_generated b = false /\ pdf_sent b = false
  /\ venmo_link b = None /\ venmo_sent b = false /\ status b = "pending".

(** An entry of [results['new_bills']] whose id resolves to an untouched bill
    with the entry's amount, due date and subject. *)
Definition recorded_as (d : database) (nb : new_bill) : Prop :=
  exists i b,
    nb_bill_id nb = Some i /\ get_bill_by_id i d = Some b /\ untouched b
    /\ bill_amount b = nb_amount nb /\ due_date b = nb_due_date nb
    /\ email_subject b = nb_email_subject nb.

(** What [add_bill] writes for a parsed message: an amount above zero, a due
    date of the form dd/dd/dddd, and the two portions as products of that
    amount. *)
Definition sound_bill (b : bill) : Prop :=
  (0 < bill_amount b)%Z
  /\ Tokens.is_date_token (due_date b) = true
  /\ roommate_portion b = Times (bill_amount b) ROOMMATE_SPLIT_RATIO
  /\ my_portion b = Times (bill_amount b) MY_SPLIT_RATIO.

(** What holds of the database and the summary while a run that started on
    [d0] goes through its messages. *)
Definition run_invariant (d0 d : database) (r : results) : Prop :=
  List.length (bills d) = (List.length (bills d0) + processed r)%nat
  /\ (exists rows, processing_log d = processing_log d0 ++ rows
                   /\ List.length rows = processed r
                   /\ Forall (fun row => action row = "bill_added") rows)
  /\ Forall (recorded_as d) (new_bills r)
  /\ NoDup (map nb_bill_id (new_bills r)).

(** [test_duplicate_detection]: two runs, each after its own search of the
    inbox. *)
Definition test_duplicate_detection (w1 : world) (messages1 : list string)
  (w2 : world) (messages2 : list string) (d : database) : database * bool :=
  let first_run := process_latest_bills w1 messages1 d in
  let second_run := process_latest_bills w2 messages2 (fst first_run) in
  (fst second_run,
   Nat.eqb (processed (snd second_run)) 0 && Nat.ltb 0 (duplicates (snd second_run))).

End Runs.

(* ===================================================================== *)
(** * src/scheduler.py: the pass that follows a run *)
(* ===================================================================== *)

Module Passes.

Import Settings Database Gmail Processor Automation Runs.

(** The entries a pass can be handed after a run: each with its own id, each
    resolving to a bill no step has touched yet. *)
Definition pass_ready (news : list new_bill) (d : database) : Prop :=
  NoDup (map nb_bill_id news) /\ Forall (recorded_as d) news.

(** An entry of [processed_bills] whose bill has its document and its payment
    request recorded, and nothing else. *)
Definition requested (d : database) (pb : processed_bill) : Prop :=
  exists b,
    get_bill_by_id (pb_bill_id pb) d = Some b
    /\ pdf_generated b = true /\ pdf_path b <> None
    /\ venmo_sent b = true /\ venmo_link b <> None
    /\ pdf_sent b = false /\ status b = "pending"
    /\ bill_amount b = pb_bill_amount pb /\ due_date b = pb_due_date pb.

(** The columns a pass has no statement for. *)
Definition kept_by_pass (b : bill)
  : (Z * Z * string * option string * option string * product * product
     * string * string * string * Z) * string * option string :=
  (Ledger.fixed_columns b, status b, notes b).

Definition is_action (name : string) (r : log_row) : bool :=
  String.eqb (action r) name.

(** What a pass may do to the database: change none of the kept columns,
    add or remove no bill, and append log rows of its three actions. *)
Definition pass_step (d d' : database) : Prop :=
  map kept_by_pass (bills d') = map kept_by_pass (bills d)
  /\ exists rows,
       processing_log d' = processing_log d ++ rows
       /\ Forall (fun r => In (action r) ["pdf_generated"; "pdf_sent"; "venmo_sent"])
                 rows.

End Passes.


(* ===================================================================== *)
(** * src/pdf_generator.py: _clean_email_content *)
(* ===================================================================== *)

Module Cleaning.

Import Patterns.

(** [str.lower] on code points below 256: A-Z and the capital letters of
    Latin-1 (0xc0-0xde, the multiplication sign 0xd7 apart). *)
Definition str_lower_char (c : ascii) : ascii :=
  let n := nat_of_ascii c in
  if (((65 <=? n) && (n <=? 90))
      || ((192 <=? n) && (n <=? 222) && negb (n =? 215)))%nat
  then ascii_of_nat (n + 32) else c.

Fixpoint str_lower (s : string) : string :=
  match s with
  | EmptyString => EmptyString
  | String c s' => String (str_lower_char c) (str_lower s')
  end.

(** [needle in hay] *)
Definition contains (needle hay : string) : bool :=
  match String.index 0 needle hay with
  | Some _ => true
  | None => false
  end.

Definition newline : ascii := ascii_of_nat 10.

(** [s.split('\n')] *)
Fixpoint split_lines (s : string) : list string :=
  match s with
  | EmptyString => [EmptyString]
  | String c s' =>
      if Ascii.eqb c newline then EmptyString :: split_lines s'
      else match split_lines s' with
           | line :: lines => String c line :: lines
           | [] => [String c EmptyString]
           end
  end.

(** ['\n'.join(lines)] *)
Definition join_lines (lines : list string) : string :=
  String.concat (String newline EmptyString) lines.

Fixpoint lstrip (s : string) : string :=
  match s with
  | EmptyString => EmptyString
  | String c s' => if is_space c then lstrip s' else s
  end.

Fixpoint rstrip (s : string) : string :=
  match s with
  | EmptyString => EmptyString
  | String c s' =>
      match rstrip s' with
      | EmptyString => if is_space c then EmptyString else String c EmptyString
      | rest => String c rest
      end
  end.

(** [line.strip()] *)
Definition strip (s : string) : string := rstrip (lstrip s).

Definition nonempty (s : string) : bool :=
  match s with
  | EmptyString => false
  | String _ _ => true
  end.

(** [cleaned_lines and cleaned_lines[-1]] *)
Definition ends_with_text (cleaned_lines : list string) : bool :=
  match rev cleaned_lines with
  | [] => false
  | last_line :: _ => nonempty last_line
  end.

(** The body of [for line in lines]. *)
Definition keep_line (cleaned_lines : list string) (line : string) : list string :=
  let cleaned_line := strip line in
  if nonempty cleaned_line || ends_with_text cleaned_lines
  then cleaned_lines ++ [cleaned_line]
  else cleaned_lines.

Definition looks_like_html (email_content : string) : bool :=
  contains "<html>" (str_lower email_content)
  || contains "<body>" (str_lower email_content).

(** [html2text]: the converter of the html2text package, a parameter. *)
Definition _clean_email_content (html2text : string -> string)
  (email_content : string) : string :=
  let clean_content :=
    if looks_like_html email_content then html2text email_content
    else email_content in
  join_lines (fold_left keep_line (split_lines clean_content) []).

(** No blank line first, and no blank line after a blank line. *)
Fixpoint single_blanks (after_text : bool) (lines : list string) : bool :=
  match lines with
  | [] => true
  | line :: rest =>
      (nonempty line || after_text) && single_blanks (nonempty line) rest
  end.

(** Whether text precedes the end of a list of lines, [before] standing for
    what precedes the list. *)
Definition tail_text (before : bool) (lines : list string) : bool :=
  match rev lines with
  | [] => before
  | last_line :: _ => nonempty last_line
  end.

Definition starts_clean (s : string) : bool :=
  match s with
  | EmptyString => true
  | String c _ => negb (is_space c)
  end.

Definition no_newline (s : string) : bool :=
  Tokens.string_forall (fun c => negb (Ascii.eqb c newline)) s.

(** The lines the loop has kept: stripped, free of newlines, blank lines
    single. *)
Definition tidy (lines : list string) : Prop :=
  Forall (fun l => strip l = l) lines
  /\ Forall (fun l => no_newline l = true) lines
  /\ single_blanks false lines = true.

End Cleaning.

(* ===================================================================== *)
(** * Facts about the extractor *)
(* ===================================================================== *)

Section ExtractorFacts.

Import Patterns.

Lemma string_length_append (s t : string) :
  String.length (String.append s t) = String.length s + String.length t.
Proof.
  induction s as [|c s IH]; simpl; [reflexivity | now rewrite IH].
Qed.

Lemma greedy_length a s : forall lo hi t r,
  In (t, r) (greedy a lo hi s) -> lo <= String.length t.
Proof.
  assert (Hstop : forall lo (u : string) t r,
             In (t, r) (if Nat.eqb lo 0 then [(EmptyString, u)] else []) ->
             lo <= String.length t).
  { intros lo u t r H. destruct (Nat.eqb_spec lo 0) as [->|_]; simpl in H.
    - lia.
    - contradiction. }
  induction s as [|c s IH]; intros lo hi t r H; simpl in H.
  - eapply Hstop; eassumption.
  - destruct (may_take hi && atom_matches a c).
    + apply in_app_or in H. destruct H as [H|H].
      * apply in_map_iff in H. destruct H as [[t' r'] [E H]].
        inversion E; subst; clear E. apply IH in H. simpl. lia.
      * eapply Hstop; eassumption.
    + eapply Hstop; eassumption.
Qed.

Lemma match_item_length i s t r :
  In (t, r) (match_item i s) -> min_len_item i <= String.length t.
Proof.
  destruct i as [a|a lo hi]; simpl.
  - destruct s as [|c s]; [contradiction|].
    destruct (atom_matches a c); simpl; [|contradiction].
    intros [E|[]]. inversion E; subst. simpl. lia.
  - apply greedy_length.
Qed.

Lemma match_seq_length g : forall s t r,
  In (t, r) (match_seq g s) -> min_len g <= String.length t.
Proof.
  induction g as [|i g IH]; intros s t r H; simpl in *.
  - lia.
  - apply in_flat_map in H. destruct H as [[t1 r1] [H1 H2]].
    apply in_map_iff in H2. destruct H2 as [[t2 r2] [E H2]].
    inversion E; subst; clear E. simpl.
    apply match_item_length in H1. apply IH in H2.
    rewrite string_length_append. lia.
Qed.

(** Each captured group is at least as long as its group requires. *)
Lemma match_here_groups p : forall s gs r,
  In (gs, r) (match_here p s) ->
  Forall2 (fun g t => min_len g <= String.length t) (groups_of p) gs.
Proof.
  induction p as [|[i|g] p IH]; intros s gs r H; simpl in *.
  - destruct H as [E|[]]. inversion E; subst. constructor.
  - apply in_flat_map in H. destruct H as [[t1 r1] [_ H]]. eapply IH; eassumption.
  - apply in_flat_map in H. destruct H as [[t1 r1] [H1 H2]].
    apply in_map_iff in H2. destruct H2 as [[gs' r'] [E H2]].
    inversion E; subst; clear E. simpl. constructor.
    + eapply match_seq_length; eassumption.
    + eapply IH; eassumption.
Qed.

Lemma search_groups p : forall s gs,
  search p s = Some gs ->
  Forall2 (fun g t => min_len g <= String.length t) (groups_of p) gs.
Proof.
  induction s as [|c s IH]; intros gs H; simpl in H.
  - destruct (match_here p EmptyString) as [|[gs' r] ms] eqn:E; [discriminate|].
    inversion H; subst. apply (match_here_groups p EmptyString gs r).
    rewrite E. now left.
  - destruct (match_here p (String c s)) as [|[gs' r] ms] eqn:E.
    + now apply IH.
    + inversion H; subst. apply (match_here_groups p (String c s) gs r).
      rewrite E. now left.
Qed.

Lemma first_match_some ps text gs :
  first_match ps text = Some gs -> exists p, In p ps /\ search p text = Some gs.
Proof.
  induction ps as [|p ps IH]; simpl; [discriminate|].
  destruct (search p text) as [gs'|] eqn:E.
  - intros H. inversion H; subst. exists p. auto.
  - intros H. destruct (IH H) as [q [Hq Hs]]. exists q. auto.
Qed.

(** A due date that was extracted is a ten-character token. *)
Lemma extract_due_date_length text d :
  extract_due_date text = Some d -> 10 <= String.length d.
Proof.
  unfold extract_due_date.
  destruct (first_match DATE_PATTERNS text) as [gs|] eqn:E; [|discriminate].
  destruct gs as [|g gs]; [discriminate|].
  intros H. inversion H; subst; clear H.
  apply first_match_some in E. destruct E as [p [Hp Hs]].
  apply search_groups in Hs.
  assert (Hg : hd_error (groups_of p) = Some date_token).
  { simpl in Hp. repeat (destruct Hp as [<-|Hp]; [reflexivity|]). contradiction. }
  destruct (groups_of p) as [|g0 gs0]; [discriminate|].
  simpl in Hg. inversion Hg; subst. inversion Hs; subst. assumption.
Qed.

Lemma truthy_due_date text d :
  extract_due_date text = Some d -> truthy_str (Some d) = true.
Proof.
  intros H. apply extract_due_date_length in H.
  destruct d; simpl in *; [lia | reflexivity].
Qed.

(** ** The rule that answers *)

Lemma first_match_no_rule ps text :
  no_rule ps text -> first_match ps text = None.
Proof.
  induction 1 as [|q ps Hq _ IH]; cbn [first_match]; [reflexivity|].
  now rewrite Hq.
Qed.

Lemma first_match_first_rule ps text p groups :
  first_rule ps text p groups -> first_match ps text = Some groups.
Proof.
  intros [before [after [-> [Hnone Hp]]]].
  induction Hnone as [|q before Hq _ IH]; cbn [app first_match].
  - now rewrite Hp.
  - now rewrite Hq.
Qed.

(** For every table and text, either no rule matches or one rule is the
    first to match. *)
Lemma rules_decide ps text :
  no_rule ps text \/ exists p groups, first_rule ps text p groups.
Proof.
  induction ps as [|q ps IH].
  - left. constructor.
  - destruct (search q text) as [groups|] eqn:E.
    + right. exists q, groups, [], ps. repeat split; [constructor | exact E].
    + destruct IH as [IH|[p [groups [before [after [-> [Hnone Hp]]]]]]].
      * left. now constructor.
      * right. exists p, groups, (q :: before), after.
        repeat split; [now constructor | exact Hp].
Qed.

Lemma first_rule_in ps text p groups :
  first_rule ps text p groups -> In p ps /\ search p text = Some groups.
Proof.
  intros [before [after [-> [_ Hp]]]]. split; [|exact Hp].
  apply in_or_app. right. now left.
Qed.

(** A rule of the amount table or of the due-date table captures one group. *)
Lemma one_group_captured ps text p groups :
  ps = AMOUNT_PATTERNS \/ ps = DATE_PATTERNS ->
  first_rule ps text p groups -> exists g, groups = [g].
Proof.
  intros Hps Hfirst. apply first_rule_in in Hfirst. destruct Hfirst as [Hp Hs].
  apply search_groups in Hs.
  destruct Hps as [-> | ->]; simpl in Hp;
    repeat (destruct Hp as [<-|Hp];
            [simpl in Hs; inversion Hs as [|? g ? gs _ Hrest]; subst;
             inversion Hrest; subst; now exists g|]);
    contradiction.
Qed.

(** C7, as amended.  The amount is what the first amount rule that matches
    captures, in the order of the table; later rules are not consulted.
    [parse_bill_email] raises the missing-amount error when no amount rule
    matches, and also when that amount is zero.  Otherwise it raises the
    missing-due-date error when no due-date rule matches.  Otherwise it
    returns that amount, the date captured by the first due-date rule that
    matches, the text, and the billing period of [extract_bill_period], which
    is none when no period rule matches. *)
Theorem parse_bill_email_outcomes (text : string) :
  (no_rule AMOUNT_PATTERNS text ->
   parse_bill_email text = inl CouldNotExtractAmount)
  /\ (forall p groups, first_rule AMOUNT_PATTERNS text p groups ->
      exists g,
        groups = [g]
        /\ (float_of_token g = 0%Z ->
            parse_bill_email text = inl CouldNotExtractAmount)
        /\ (float_of_token g <> 0%Z -> no_rule DATE_PATTERNS text ->
            parse_bill_email text = inl CouldNotExtractDueDate)
        /\ (float_of_token g <> 0%Z ->
            forall q dates, first_rule DATE_PATTERNS text q dates ->
            exists due,
              dates = [due]
              /\ parse_bill_email text
                 = inr (mkParsed (float_of_token g) due
                                 (extract_bill_period text) text)))
  /\ (no_rule PERIOD_PATTERNS text -> extract_bill_period text = None).
Proof.
  split; [|split].
  - intros Hnone. unfold parse_bill_email, extract_amount.
    now rewrite (first_match_no_rule _ _ Hnone).
  - intros p groups Hfirst.
    destruct (one_group_captured _ _ _ _ (or_introl eq_refl) Hfirst) as [g ->].
    exists g. split; [reflexivity|].
    assert (Ea : extract_amount text = Some (float_of_token g)).
    { unfold extract_amount. now rewrite (first_match_first_rule _ _ _ _ Hfirst). }
    unfold parse_bill_email. rewrite Ea. cbn [truthy_float].
    split; [|split].
    + intros ->. reflexivity.
    + intros Ha Hnone. destruct (Z.eqb_spec (float_of_token g) 0); [contradiction|].
      unfold extract_due_date. now rewrite (first_match_no_rule _ _ Hnone).
    + intros Ha q dates Hdate.
      destruct (one_group_captured _ _ _ _ (or_intror eq_refl) Hdate) as [due ->].
      exists due. split; [reflexivity|].
      assert (Ed : extract_due_date text = Some due).
      { unfold extract_due_date.
        now rewrite (first_match_first_rule _ _ _ _ Hdate). }
      rewrite Ed, (truthy_due_date _ _ Ed).
      destruct (Z.eqb_spec (float_of_token g) 0); [contradiction | reflexivity].
  - intros Hnone. unfold extract_bill_period.
    now rewrite (first_match_no_rule _ _ Hnone).
Qed.

(** The amended C7 at a labelled sample: the second amount rule is the first
    to match and captures 123.45, the second due-date rule captures
    01/15/2026, no period rule matches, and the draft has no period. *)
Lemma parse_bill_email_outcomes_witness :
  first_rule AMOUNT_PATTERNS Scenarios.labelled_text
             (lits "Amount Due" ++ [colon_spaces] ++ lits "$" ++ [amount_token])
             ["123.45"]
  /\ first_rule DATE_PATTERNS Scenarios.labelled_text
                (lits "Due Date" ++ [colon_spaces; Group date_token])
                ["01/15/2026"]
  /\ no_rule PERIOD_PATTERNS Scenarios.labelled_text
  /\ parse_bill_email Scenarios.labelled_text
     = inr (mkParsed 12345%Z "01/15/2026" None Scenarios.labelled_text).
Proof.
  assert (Ha : first_rule AMOUNT_PATTERNS Scenarios.labelled_text
                 (lits "Amount Due" ++ [colon_spaces] ++ lits "$" ++ [amount_token])
                 ["123.45"]).
  { exists (firstn 1 AMOUNT_PATTERNS), (skipn 2 AMOUNT_PATTERNS).
    split; [reflexivity|]. split; [|reflexivity].
    repeat constructor. }
  assert (Hd : first_rule DATE_PATTERNS Scenarios.labelled_text
                 (lits "Due Date" ++ [colon_spaces; Group date_token])
                 ["01/15/2026"]).
  { exists (firstn 1 DATE_PATTERNS), (skipn 2 DATE_PATTERNS).
    split; [reflexivity|]. split; [|reflexivity].
    repeat constructor. }
  assert (Hp : no_rule PERIOD_PATTERNS Scenarios.labelled_text)
    by (repeat constructor).
  split; [exact Ha|]. split; [exact Hd|]. split; [exact Hp|].
  destruct (parse_bill_email_outcomes Scenarios.labelled_text) as [_ [H2 H3]].
  destruct (H2 _ _ Ha) as [g [Eg [_ [_ H]]]].
  injection Eg as <-.
  destruct (H ltac:(discriminate) _ _ Hd) as [due [Edue Hparse]].
  injection Edue as <-.
  rewrite Hparse, (H3 Hp). reflexivity.
Defined.

(** C7 as stated fails on a zero balance: an amount rule and a due-date rule
    both match, and the text is still rejected with the missing-amount
    error. *)
Lemma zero_balance_is_rejected :
  extract_amount Scenarios.zero_balance_text = Some 0%Z
  /\ extract_due_date Scenarios.zero_balance_text = Some "01/15/2026"
  /\ parse_bill_email Scenarios.zero_balance_text = inl CouldNotExtractAmount.
Proof. repeat split; reflexivity. Qed.

(** Later rules are not consulted: with a zero balance brought forward, the
    first rule captures 0.00, and the text is rejected with the
    missing-amount error although the second rule would capture 50.00 and a
    due-date rule matches. *)
Lemma later_amount_rule_is_not_consulted :
  first_rule AMOUNT_PATTERNS Scenarios.two_amounts_text
             (lits "Statement balance:" ++ [spaces] ++ lits "$" ++ [amount_token])
             ["0.00"]
  /\ search (lits "Amount Due" ++ [colon_spaces] ++ lits "$" ++ [amount_token])
            Scenarios.two_amounts_text = Some ["50.00"]
  /\ extract_due_date Scenarios.two_amounts_text = Some "01/15/2026"
  /\ parse_bill_email Scenarios.two_amounts_text = inl CouldNotExtractAmount.
Proof.
  split; [|repeat split; reflexivity].
  exists [], (skipn 1 AMOUNT_PATTERNS).
  split; [reflexivity|]. split; [constructor | reflexivity].
Qed.

End ExtractorFacts.

Section ExtractorRules.

Import Patterns.

(** A rule of [AMOUNT_PATTERNS] that matches always yields its group, so
    [extract_amount] is [None] exactly when no amount rule matches. *)
Lemma extract_amount_none text :
  extract_amount text = None <-> first_match AMOUNT_PATTERNS text = None.
Proof.
  unfold extract_amount. split.
  - destruct (first_match AMOUNT_PATTERNS text) as [gs|] eqn:E; [|reflexivity].
    destruct gs as [|g gs]; [|discriminate]. intros _.
    apply first_match_some in E. destruct E as [p [Hp Hs]].
    apply search_groups in Hs. exfalso.
    simpl in Hp.
    repeat (destruct Hp as [<-|Hp]; [simpl in Hs; inversion Hs|]). contradiction.
  - intros ->. reflexivity.
Qed.

Lemma extract_due_date_none text :
  extract_due_date text = None <-> first_match DATE_PATTERNS text = None.
Proof.
  unfold extract_due_date. split.
  - destruct (first_match DATE_PATTERNS text) as [gs|] eqn:E; [|reflexivity].
    destruct gs as [|g gs]; [|discriminate]. intros _.
    apply first_match_some in E. destruct E as [p [Hp Hs]].
    apply search_groups in Hs. exfalso.
    simpl in Hp.
    repeat (destruct Hp as [<-|Hp]; [simpl in Hs; inversion Hs|]). contradiction.
  - intros ->. reflexivity.
Qed.

End ExtractorRules.

(* ===================================================================== *)
(** * Facts about the ledger *)
(* ===================================================================== *)

Section LedgerFacts.

Import Settings Sqlite Database.

#[local] Open Scope Z_scope.

(** ** Lists *)

Lemma find_none_existsb {A} (f : A -> bool) l :
  find f l = None -> existsb f l = false.
Proof.
  induction l as [|x l IH]; simpl; [reflexivity|].
  destruct (f x); [discriminate | exact IH].
Qed.

Lemma find_app_skip {A} (f : A -> bool) l l' :
  (forall x, In x l -> f x = false) -> find f (l ++ l') = find f l'.
Proof.
  induction l as [|x l IH]; simpl; intros H; [reflexivity|].
  rewrite (H x (or_introl eq_refl)). apply IH. intros y Hy. apply H. now right.
Qed.

Lemma filter_nothing {A} (f : A -> bool) l :
  (forall x, In x l -> f x = false) -> filter f l = [].
Proof.
  induction l as [|x l IH]; simpl; intros H; [reflexivity|].
  rewrite (H x (or_introl eq_refl)). apply IH. intros y Hy. apply H. now right.
Qed.

Lemma find_absent {A} (f : A -> bool) l :
  (forall x, In x l -> f x = false) -> find f l = None.
Proof.
  induction l as [|x l IH]; simpl; intros H; [reflexivity|].
  rewrite (H x (or_introl eq_refl)). apply IH. intros y Hy. apply H. now right.
Qed.

(** ** Row identifiers *)

Lemma next_rowid_above seq rowids i :
  In i rowids -> i < next_rowid seq rowids.
Proof.
  unfold next_rowid.
  induction rowids as [|j rowids IH]; cbn [fold_right In]; [contradiction|].
  intros [->|H]; [lia|]. specialize (IH H). lia.
Qed.

Lemma next_rowid_fresh seq rowids : ~ In (next_rowid seq rowids) rowids.
Proof. intros H. apply (next_rowid_above seq) in H. lia. Qed.

Lemma next_rowid_unused seq d b :
  In b (bills d) -> Z.eqb (id b) (next_rowid seq (map id (bills d))) = false.
Proof.
  intros H. apply Z.eqb_neq. intros E.
  apply (next_rowid_fresh seq (map id (bills d))). rewrite <- E.
  now apply in_map.
Qed.

(** ** The two paths of add_bill *)

Lemma same_key_true a due b :
  same_key a due b = true <-> bill_amount b = a /\ due_date b = due.
Proof.
  unfold same_key. rewrite andb_true_iff, Z.eqb_eq, String.eqb_eq. tauto.
Qed.

(** The duplicate path: the log row is written on the connection and the
    connection is closed without a commit, so the database is as before. *)
Lemma add_bill_duplicate now info d existing :
  find (same_key (amount info) (info_due_date info)) (bills d) = Some existing ->
  add_bill now false info d
  = (d, (false,
         DuplicateBillDetected (amount info) (info_due_date info)
                               (processed_date existing),
         None)).
Proof.
  intros H. unfold add_bill. cbn. rewrite H. reflexivity.
Qed.

Lemma add_bill_new now info d :
  find (same_key (amount info) (info_due_date info)) (bills d) = None ->
  add_bill now false info d
  = (added now info d,
     (true,
      NewBillAdded (amount info) (info_due_date info)
                   (Times (amount info) ROOMMATE_SPLIT_RATIO)
                   (Times (amount info) MY_SPLIT_RATIO),
      Some (next_rowid (bills_seq d) (map id (bills d))))).
Proof.
  intros H. unfold add_bill. cbn. rewrite H, (find_none_existsb _ _ H).
  reflexivity.
Qed.

(** The UNIQUE constraint never fires: the lookup has already excluded it. *)
Lemma add_bill_no_integrity_error now raises info d :
  snd (fst (snd (add_bill now raises info d))) <> DatabaseIntegrityError.
Proof.
  unfold add_bill. destruct raises; cbn; [discriminate|].
  destruct (find _ (bills d)) eqn:E; cbn; [discriminate|].
  rewrite (find_none_existsb _ _ E). cbn. discriminate.
Qed.

(** C1: for a store without the key, two [add_bill] calls with drafts of the
    same (amount, due date) leave exactly one bill with that key, the row the
    first call inserted; the second call reports a duplicate, quoting the
    processing date of that row, and leaves the store as the first call left
    it. *)
Theorem add_bill_twice now1 now2 info1 info2 d :
  amount info2 = amount info1 ->
  info_due_date info2 = info_due_date info1 ->
  (forall b, In b (bills d) ->
             ~ (bill_amount b = amount info1 /\ due_date b = info_due_date info1)) ->
  let first := add_bill now1 false info1 d in
  let second := add_bill now2 false info2 (fst first) in
  exists row,
    snd first = (true,
                 NewBillAdded (amount info1) (info_due_date info1)
                              (Times (amount info1) ROOMMATE_SPLIT_RATIO)
                              (Times (amount info1) MY_SPLIT_RATIO),
                 Some (id row))
    /\ row = new_bill_row now1 (id row) info1
    /\ bills (fst first) = bills d ++ [row]
    /\ snd second = (false,
                     DuplicateBillDetected (amount info2) (info_due_date info2)
                                           (processed_date row),
                     None)
    /\ fst second = fst first
    /\ filter (same_key (amount info1) (info_due_date info1)) (bills (fst second))
       = [row]
    /\ get_bill_by_id (id row) (fst second) = Some row.
Proof.
  intros Ea Ed Habsent first second.
  assert (Hnone : forall b, In b (bills d) ->
                    same_key (amount info1) (info_due_date info1) b = false).
  { intros b Hb. destruct (same_key _ _ b) eqn:E; [|reflexivity].
    apply same_key_true in E. elim (Habsent b Hb E). }
  assert (Hfirst : first = _) by (apply add_bill_new; now apply find_absent).
  set (row := new_bill_row now1 (next_rowid (bills_seq d) (map id (bills d))) info1).
  assert (Hkey : same_key (amount info1) (info_due_date info1) row = true).
  { apply same_key_true. split; reflexivity. }
  assert (Hfind : find (same_key (amount info2) (info_due_date info2))
                       (bills (fst first)) = Some row).
  { rewrite Hfirst, Ea, Ed. cbn [fst added log_insert bills_insert bills].
    rewrite (find_app_skip _ _ _ Hnone). cbn [find]. fold row. now rewrite Hkey. }
  assert (Hsecond : second = _) by (apply add_bill_duplicate; exact Hfind).
  exists row. rewrite Hsecond. cbn [fst snd]. rewrite Hfirst. cbn [fst snd].
  repeat split.
  - cbn [added log_insert bills_insert bills]. rewrite filter_app.
    rewrite (filter_nothing _ _ Hnone). cbn [filter app]. fold row.
    now rewrite Hkey.
  - unfold get_bill_by_id. cbn [added log_insert bills_insert bills].
    rewrite find_app_skip.
    + cbn [find]. fold row. cbn [id row new_bill_row]. now rewrite Z.eqb_refl.
    + intros b Hb. cbn [id row new_bill_row]. now apply next_rowid_unused.
Qed.

(** C1 on a new database: the plain and the markup rendering of the bill of
    288.15 due 08/08/2025. *)
Lemma add_bill_twice_witness :
  exists row,
    snd (add_bill 100 false Scenarios.august_plain empty_database)
    = (true,
       NewBillAdded 28815 "08/08/2025"
                    (Times 28815 ROOMMATE_SPLIT_RATIO) (Times 28815 MY_SPLIT_RATIO),
       Some (id row))
    /\ row = new_bill_row 100 (id row) Scenarios.august_plain
    /\ bills Scenarios.august_database = [] ++ [row]
    /\ snd (add_bill 200 false Scenarios.august_markup Scenarios.august_database)
       = (false,
          DuplicateBillDetected 28815 "08/08/2025" (processed_date row),
          None)
    /\ fst (add_bill 200 false Scenarios.august_markup Scenarios.august_database)
       = Scenarios.august_database
    /\ filter (same_key 28815 "08/08/2025")
              (bills (fst (add_bill 200 false Scenarios.august_markup
                                    Scenarios.august_database)))
       = [row]
    /\ get_bill_by_id (id row)
                      (fst (add_bill 200 false Scenarios.august_markup
                                     Scenarios.august_database))
       = Some row.
Proof.
  apply (add_bill_twice 100 200 Scenarios.august_plain Scenarios.august_markup
                        empty_database).
  - reflexivity.
  - reflexivity.
  - intros b Hb. destruct Hb.
Defined.

(** C2, at the bill of August already on file: the key is found, the call
    reports the duplicate and adds no bill, and the database it leaves holds
    no [duplicate_detected] row; the row written on the connection was never
    committed. *)
Theorem duplicate_add_leaves_no_log_row :
  find (same_key 28815 "08/08/2025") (bills Scenarios.august_database) <> None
  /\ add_bill 200 false Scenarios.august_markup Scenarios.august_database
     = (Scenarios.august_database,
        (false, DuplicateBillDetected 28815 "08/08/2025" 100, None))
  /\ filter (fun r => String.eqb (action r) "duplicate_detected")
            (processing_log
               (fst (add_bill 200 false Scenarios.august_markup
                              Scenarios.august_database)))
     = [].
Proof.
  split; [discriminate|]. split; reflexivity.
Qed.

End LedgerFacts.

Section LedgerUpdates.

Import Settings Sqlite Database.

#[local] Open Scope Z_scope.

Lemma update_and_log_runs now bill_id set act det d :
  update_and_log now false bill_id set act det d
  = (log_insert now (Some bill_id) act (Some det) (update_where_id bill_id set d),
     true).
Proof. reflexivity. Qed.

Lemma update_and_log_raises now bill_id set act det d :
  update_and_log now true bill_id set act det d = (d, false).
Proof. reflexivity. Qed.

Lemma update_where_id_bills_missing bill_id set d :
  get_bill_by_id bill_id d = None ->
  bills (update_where_id bill_id set d) = bills d.
Proof.
  unfold get_bill_by_id, update_where_id. cbn [bills]. intros H.
  rewrite <- (map_id (bills d)) at 2. apply map_ext_in. intros b Hb.
  now rewrite (find_none _ _ H b Hb).
Qed.

(** Reading a bill back after [UPDATE ... WHERE id = ?]. *)
Lemma get_after_update i j set d :
  (forall b, id (set b) = id b) ->
  get_bill_by_id j (update_where_id i set d)
  = if Z.eqb j i then option_map set (get_bill_by_id j d) else get_bill_by_id j d.
Proof.
  intros Hid. unfold get_bill_by_id, update_where_id. cbn [bills].
  induction (bills d) as [|b l IH]; cbn [map find].
  - now destruct (Z.eqb j i).
  - destruct (Z.eqb_spec (id b) i) as [Ei|Ei].
    + rewrite Hid. destruct (Z.eqb_spec (id b) j) as [Ej|Ej].
      * assert (E : j = i) by congruence. apply Z.eqb_eq in E. now rewrite E.
      * exact IH.
    + destruct (Z.eqb_spec (id b) j) as [Ej|Ej].
      * assert (E : j <> i) by congruence. apply Z.eqb_neq in E. now rewrite E.
      * exact IH.
Qed.

Lemma get_after_log_insert now bill_id act det j d :
  get_bill_by_id j (log_insert now bill_id act det d) = get_bill_by_id j d.
Proof. reflexivity. Qed.

(** The outcome shared by the four updates. *)
Lemma update_and_log_outcome now raises bill_id set act det d :
  snd (update_and_log now raises bill_id set act det d) = negb raises
  /\ (raises = true -> fst (update_and_log now raises bill_id set act det d) = d)
  /\ (raises = false -> get_bill_by_id bill_id d = None ->
      bills (fst (update_and_log now raises bill_id set act det d)) = bills d
      /\ exists row,
           processing_log (fst (update_and_log now raises bill_id set act det d))
           = processing_log d ++ [row]
           /\ log_bill_id row = Some bill_id /\ action row = act).
Proof.
  destruct raises.
  - rewrite update_and_log_raises. repeat split; try discriminate; reflexivity.
  - rewrite update_and_log_runs. cbn [fst snd negb].
    split; [reflexivity|]. split; [discriminate|]. intros _ Hmiss. split.
    + cbn [log_insert bills]. now apply update_where_id_bills_missing.
    + eexists. cbn [log_insert update_where_id processing_log].
      split; [reflexivity|]. split; reflexivity.
Qed.

(** None of the four updates looks at the number of rows its UPDATE touched.
    Each returns [True] whenever the database raises no error, also when no
    bill has the given id; in that case no bill changes and one log row
    carrying the id is appended.  Each returns [False] exactly when the
    database raises, and the database is then unchanged. *)
Lemma updates_succeed_without_a_record now raises bill_id st new_notes path link d :
  let ops :=
    [ update_bill_status now raises bill_id st new_notes d;
      mark_pdf_generated now raises bill_id path d;
      mark_pdf_sent now raises bill_id d;
      mark_venmo_sent now raises bill_id link d ] in
  Forall (fun r : database * bool =>
            snd r = negb raises
            /\ (raises = true -> fst r = d)
            /\ (raises = false -> get_bill_by_id bill_id d = None ->
                bills (fst r) = bills d
                /\ exists row, processing_log (fst r) = processing_log d ++ [row]
                               /\ log_bill_id row = Some bill_id))
         ops.
Proof.
  assert (H : forall set act det,
             let r := update_and_log now raises bill_id set act det d in
             snd r = negb raises
             /\ (raises = true -> fst r = d)
             /\ (raises = false -> get_bill_by_id bill_id d = None ->
                 bills (fst r) = bills d
                 /\ exists row, processing_log (fst r) = processing_log d ++ [row]
                                /\ log_bill_id row = Some bill_id)).
  { intros set act det r.
    destruct (update_and_log_outcome now raises bill_id set act det d)
      as [H1 [H2 H3]].
    split; [exact H1|]. split; [exact H2|].
    intros Hr Hm. destruct (H3 Hr Hm) as [Hb [row [Hl [Hi _]]]].
    split; [exact Hb | exists row; auto]. }
  cbv zeta.
  unfold update_bill_status, mark_pdf_generated, mark_pdf_sent, mark_venmo_sent.
  repeat (apply Forall_cons; [apply H|]). apply Forall_nil.
Qed.

(** The four updates on a new database, id 42. *)
Lemma updates_succeed_without_a_record_witness :
  get_bill_by_id 42 empty_database = None
  /\ Forall (fun r : database * bool =>
               snd r = true
               /\ bills (fst r) = []
               /\ exists row, processing_log (fst r) = [row]
                              /\ log_bill_id row = Some 42)
            [ update_bill_status 7 false 42 "completed" None empty_database;
              mark_pdf_generated 7 false 42 "bill.pdf" empty_database;
              mark_pdf_sent 7 false 42 empty_database;
              mark_venmo_sent 7 false 42 "venmo://x" empty_database ].
Proof.
  split; [reflexivity|].
  eapply Forall_impl;
    [| exact (updates_succeed_without_a_record 7 false 42 "completed" None
                "bill.pdf" "venmo://x" empty_database)].
  intros r [H1 [_ H3]]. destruct (H3 eq_refl eq_refl) as [Hb Hrow].
  split; [exact H1|]. split; [exact Hb | exact Hrow].
Defined.

(** C6: the four updates on a database without bill 42.  The claim asks for
    a failure.  Each update returns [True], changes no bill, and appends a
    log row whose [bill_id] is 42, an id that belongs to no bill, although
    the schema declares [processing_log.bill_id] a foreign key into
    [bills]. *)
Theorem update_of_missing_bill_returns_true :
  get_bill_by_id 42 empty_database = None
  /\ Forall (fun r : database * bool =>
               snd r = true
               /\ bills (fst r) = []
               /\ map log_bill_id (processing_log (fst r)) = [Some 42]
               /\ get_bill_by_id 42 (fst r) = None)
            [ update_bill_status 7 false 42 "completed" None empty_database;
              mark_pdf_generated 7 false 42 "bill.pdf" empty_database;
              mark_pdf_sent 7 false 42 empty_database;
              mark_venmo_sent 7 false 42 "venmo://x" empty_database ]
  /\ map action
         (flat_map (fun r : database * bool => processing_log (fst r))
            [ update_bill_status 7 false 42 "completed" None empty_database;
              mark_pdf_generated 7 false 42 "bill.pdf" empty_database;
              mark_pdf_sent 7 false 42 empty_database;
              mark_venmo_sent 7 false 42 "venmo://x" empty_database ])
     = ["status_updated"; "pdf_generated"; "pdf_sent"; "venmo_sent"].
Proof.
  split; [reflexivity|]. split; [|reflexivity].
  repeat (apply Forall_cons; [repeat split; reflexivity|]). apply Forall_nil.
Qed.

(** C9: [update_bill_status] on an existing bill sets the status, replaces
    the notes when a note is given and keeps them when none is given, and
    leaves every other column of the bill as it was. *)
Theorem update_bill_status_frame now bill_id st new_notes d b :
  get_bill_by_id bill_id d = Some b ->
  exists b',
    get_bill_by_id bill_id (fst (update_bill_status now false bill_id st new_notes d))
    = Some b'
    /\ status b' = st
    /\ notes b' = match new_notes with Some n => Some n | None => notes b end
    /\ id b' = id b
    /\ bill_amount b' = bill_amount b
    /\ due_date b' = due_date b
    /\ bill_period_start b' = bill_period_start b
    /\ bill_period_end b' = bill_period_end b
    /\ roommate_portion b' = roommate_portion b
    /\ my_portion b' = my_portion b
    /\ email_id b' = email_id b
    /\ email_subject b' = email_subject b
    /\ email_date b' = email_date b
    /\ pdf_path b' = pdf_path b
    /\ pdf_generated b' = pdf_generated b
    /\ pdf_sent b' = pdf_sent b
    /\ venmo_link b' = venmo_link b
    /\ venmo_sent b' = venmo_sent b
    /\ processed_date b' = processed_date b.
Proof.
  intros Hb. exists (set_status st new_notes b).
  unfold update_bill_status. rewrite update_and_log_runs. cbn [fst].
  rewrite get_after_log_insert, get_after_update by reflexivity.
  rewrite Z.eqb_refl, Hb. cbn [option_map].
  repeat split.
Qed.

(** C9 on the bill of August, once with a note and once without. *)
Lemma update_bill_status_frame_witness :
  (exists b',
     get_bill_by_id 1 (fst (update_bill_status 500 false 1 "completed" None
                                               Scenarios.august_database))
     = Some b'
     /\ status b' = "completed"
     /\ notes b' = Some "Added from email: Your PG&E statement")
  /\ (exists b',
        get_bill_by_id 1 (fst (update_bill_status 500 false 1 "completed"
                                                  (Some "paid in cash")
                                                  Scenarios.august_database))
        = Some b'
        /\ status b' = "completed"
        /\ notes b' = Some "paid in cash").
Proof.
  split.
  - destruct (update_bill_status_frame 500 1 "completed" None
                Scenarios.august_database
                (new_bill_row 100 1 Scenarios.august_plain) eq_refl)
      as [b' [H1 [H2 [H3 _]]]].
    exists b'. auto.
  - destruct (update_bill_status_frame 500 1 "completed" (Some "paid in cash")
                Scenarios.august_database
                (new_bill_row 100 1 Scenarios.august_plain) eq_refl)
      as [b' [H1 [H2 [H3 _]]]].
    exists b'. auto.
Defined.

End LedgerUpdates.

Section LedgerQueries.

Import Settings Sqlite Database.

#[local] Open Scope Z_scope.

(** ** ORDER BY *)

Section OrderBy.

Context {A : Type} (before : A -> A -> bool).
Hypothesis before_total : forall x y, before x y = false -> before y x = true.

Let precedes (x y : A) : Prop := before x y = true.

Lemma insert_by_permutation x l : Permutation (insert_by before x l) (x :: l).
Proof.
  induction l as [|y l IH]; cbn [insert_by]; [apply Permutation_refl|].
  destruct (before x y); [apply Permutation_refl|].
  eapply Permutation_trans; [apply perm_skip, IH | apply perm_swap].
Qed.

Lemma order_by_permutation l : Permutation (order_by before l) l.
Proof.
  induction l as [|x l IH]; cbn [order_by]; [apply perm_nil|].
  eapply Permutation_trans; [apply insert_by_permutation | now apply perm_skip].
Qed.

Lemma insert_by_head a x l :
  precedes a x -> HdRel precedes a l -> HdRel precedes a (insert_by before x l).
Proof.
  intros Hax Hl. destruct l as [|y l]; cbn [insert_by].
  - now constructor.
  - destruct (before x y); constructor; [exact Hax|].
    now apply HdRel_inv in Hl.
Qed.

Lemma insert_by_sorted x l :
  Sorted precedes l -> Sorted precedes (insert_by before x l).
Proof.
  induction l as [|y l IH]; cbn [insert_by]; intros Hs.
  - repeat constructor.
  - destruct (before x y) eqn:E.
    + constructor; [exact Hs | now constructor].
    + apply Sorted_inv in Hs. destruct Hs as [Hs Hh]. constructor.
      * now apply IH.
      * apply insert_by_head; [now apply before_total | exact Hh].
Qed.

Lemma order_by_sorted l : Sorted precedes (order_by before l).
Proof.
  induction l as [|x l IH]; cbn [order_by]; [constructor|].
  now apply insert_by_sorted.
Qed.

End OrderBy.

Lemma in_firstn {A} n : forall (l : list A) x, In x (firstn n l) -> In x l.
Proof.
  induction n as [|n IH]; intros [|y l] x; cbn [firstn]; try contradiction.
  intros [->|H]; [now left | right; now apply IH].
Qed.

Lemma firstn_sorted {A} (R : A -> A -> Prop) n : forall l,
  Sorted R l -> Sorted R (firstn n l).
Proof.
  induction n as [|n IH]; intros [|x l] Hs; cbn [firstn]; try constructor.
  - apply IH. now apply Sorted_inv in Hs.
  - apply Sorted_inv in Hs. destruct Hs as [_ Hh].
    destruct l as [|y l]; [destruct n; constructor|].
    destruct n; cbn [firstn]; constructor. now apply HdRel_inv in Hh.
Qed.

Lemma sql_limit_in {A} n (l : list A) x : In x (sql_limit n l) -> In x l.
Proof. unfold sql_limit. destruct (n <? 0); [auto | apply in_firstn]. Qed.

Lemma sql_limit_sorted {A} (R : A -> A -> Prop) n l :
  Sorted R l -> Sorted R (sql_limit n l).
Proof. unfold sql_limit. destruct (n <? 0); [auto | apply firstn_sorted]. Qed.

(** ** get_bills_by_status *)

Lemma string_leb_total x y : String.leb x y = false -> String.leb y x = true.
Proof.
  intros H. destruct (String.leb_total x y) as [E|E]; [congruence | exact E].
Qed.

(** What the query does guarantee: the bills of the given status, each once,
    in ascending order of the stored text. *)
Lemma get_bills_by_status_text_order st d :
  Permutation (get_bills_by_status st d)
              (filter (fun b => String.eqb (status b) st) (bills d))
  /\ Sorted (fun x y => String.leb (due_date x) (due_date y) = true)
            (get_bills_by_status st d).
Proof.
  split.
  - apply order_by_permutation.
  - apply (order_by_sorted (fun x y => String.leb (due_date x) (due_date y))).
    intros x y. apply string_leb_total.
Qed.

(** C4, at two pending bills due 12/15/2025 and 01/15/2026: the query lists
    the bill of January 2026 before the bill of December 2025, which is not
    ascending calendar order; the stored MM/DD/YYYY texts are compared as
    texts. *)
Theorem pending_bills_out_of_calendar_order :
  map due_date (bills Scenarios.year_end_database) = ["12/15/2025"; "01/15/2026"]
  /\ map due_date (get_bills_by_status "pending" Scenarios.year_end_database)
     = ["01/15/2026"; "12/15/2025"]
  /\ Calendar.not_after "01/15/2026" "12/15/2025" = false
  /\ Calendar.ascending
       (map due_date (get_bills_by_status "pending" Scenarios.year_end_database))
     = false.
Proof. repeat split; reflexivity. Qed.

(** ** get_processing_log *)







End LedgerQueries.

(* ===================================================================== *)
(** * Facts about a run *)
(* ===================================================================== *)

Section RunFacts.

Import Settings Sqlite Database Gmail Processor Automation.

#[local] Open Scope Z_scope.

(** ** process_latest_bills *)

Lemma process_message_counts w d r message_id :
  consistent r ->
  counted (snd (process_message w (d, r) message_id)) = S (counted r)
  /\ consistent (snd (process_message w (d, r) message_id)).
Proof.
  intros [H1 [H2 H3]]. unfold process_message, counted, consistent.
  destruct (parse_pge_bill (mailbox w) message_id) as [[info|]|].
  - destruct (add_bill _ _ info d) as [d' [[[|] msg] bill_id]];
      cbn [snd processed duplicates errors new_bills duplicate_bills
           error_messages count_processed count_duplicate];
      rewrite ?length_app; cbn [List.length]; lia.
  - cbn [snd processed duplicates errors new_bills duplicate_bills
         error_messages count_error].
    rewrite ?length_app; cbn [List.length]; lia.
  - cbn [snd processed duplicates errors new_bills duplicate_bills
         error_messages count_error].
    rewrite ?length_app; cbn [List.length]; lia.
Qed.

Lemma fold_process_message_counts w messages : forall d r,
  consistent r ->
  counted (snd (fold_left (process_message w) messages (d, r)))
  = (counted r + List.length messages)%nat
  /\ consistent (snd (fold_left (process_message w) messages (d, r))).
Proof.
  induction messages as [|m messages IH]; intros d r Hr; cbn [fold_left List.length].
  - split; [cbn [snd]; lia | exact Hr].
  - destruct (process_message_counts w d r m Hr) as [Hc Hk].
    destruct (process_message w (d, r) m) as [d' r'] eqn:E. cbn [snd] in Hc, Hk.
    destruct (IH d' r' Hk) as [Hc' Hk']. split; [rewrite Hc'; lia | exact Hk'].
Qed.

(** Every message of a run is counted once, under [processed], [duplicates]
    or [errors], and each counter is the length of its list. *)
Lemma process_latest_bills_counts w messages d :
  counted (snd (process_latest_bills w messages d)) = List.length messages
  /\ consistent (snd (process_latest_bills w messages d)).
Proof.
  unfold process_latest_bills. destruct messages as [|m messages].
  - cbn. repeat split.
  - apply (fold_process_message_counts w (m :: messages) d no_results).
    repeat split.
Qed.

(** C8, at one well-formed message handled while the database file is
    locked: [add_bill] fails with "Error adding bill", no bill with that key
    exists, and the run reports the message under [duplicates] with no error
    message; its counters are those of a run that met a real duplicate. *)
Theorem storage_failure_counted_as_duplicate :
  find (same_key 28815 "08/08/2025") (bills empty_database) = None
  /\ snd (add_bill 100 true Scenarios.august_plain empty_database)
     = (false, ErrorAddingBill, None)
  /\ process_latest_bills Scenarios.locked_world ["msg-plain"] empty_database
     = (empty_database,
        mkResults 0 1 0 []
                  [mkDuplicateBill 28815 "08/08/2025" "Your PG&E statement"] [])
  /\ snd (process_latest_bills Scenarios.august_world ["msg-again"]
                               Scenarios.august_database)
     = snd (process_latest_bills Scenarios.locked_world ["msg-plain"]
                                 empty_database).
Proof. repeat split; reflexivity. Qed.

(** ** Step 3 of the automation *)

(** A bill without a document, when every collaborator succeeds: the
    document and the payment request are recorded, and the notification
    step is not entered, because it tests the dictionary read before the
    document was recorded. *)
Lemma pass_over_bill_without_document c d ps nb bill_id b e ch path :
  nb_bill_id nb = Some bill_id ->
  get_bill_by_id bill_id d = Some b ->
  pdf_generated b = false ->
  inbox c (email_id b) = Message e ->
  generate_bill_pdf c b (body e) = Some (String ch path) ->
  success (process_bill_venmo_request c b (ENABLE_AUTO_OPEN c)) = true ->
  db_raises c = false ->
  get_bill_by_id bill_id (fst (process_new_bill c (d, ps) nb))
  = Some (set_venmo_sent
            (venmo_url (process_bill_venmo_request c b (ENABLE_AUTO_OPEN c)))
            (set_pdf_generated (String ch path) b)).
Proof.
  intros Hnb Hb Hgen Hmail Hpdf Hvenmo Hdb.
  unfold process_new_bill. rewrite Hnb, Hb, Hgen. cbn [negb].
  unfold get_email_content. rewrite Hmail, Hpdf.
  unfold email_step. rewrite Hgen, andb_false_r.
  unfold venmo_step. rewrite Hvenmo, Hdb. cbn [fst].
  unfold mark_venmo_sent, mark_pdf_generated.
  rewrite !update_and_log_runs. cbn [fst].
  rewrite get_after_log_insert, get_after_update by reflexivity.
  rewrite get_after_log_insert, get_after_update by reflexivity.
  rewrite Z.eqb_refl, Hb. reflexivity.
Qed.

(** C5, at the bill of August right after it was added, with collaborators
    that all succeed: one pass records the document and the payment request
    but not the notification; the status stays [pending] until
    [update_bill_status] sets it. *)
Theorem full_pass_leaves_document_unsent :
  option_map Scenarios.flags (get_bill_by_id 1 (fst Scenarios.august_run))
  = Some (false, false, false, "pending")
  /\ option_map Scenarios.flags (get_bill_by_id 1 (fst Scenarios.august_pass))
     = Some (true, false, true, "pending")
  /\ option_map Scenarios.flags
       (get_bill_by_id 1
          (fst (mark_bill_completed 400 false 1 None (fst Scenarios.august_pass))))
     = Some (true, false, true, "completed").
Proof. repeat split; reflexivity. Qed.

End RunFacts.

(* ===================================================================== *)
(** * Further facts about the ledger *)
(* ===================================================================== *)

Section LedgerInvariants.

Import Settings Sqlite Database Ledger.

#[local] Open Scope Z_scope.

Lemma bill_evolves_refl b : bill_evolves b b.
Proof. repeat split; auto. Qed.

Lemma bill_evolves_trans b1 b2 b3 :
  bill_evolves b1 b2 -> bill_evolves b2 b3 -> bill_evolves b1 b3.
Proof.
  intros [F1 [G1 [S1 V1]]] [F2 [G2 [S2 V2]]].
  repeat split; [congruence | auto | auto | auto].
Qed.

Lemma Forall2_refl_on {A} (R : A -> A -> Prop) l :
  (forall x, R x x) -> Forall2 R l l.
Proof. intros H. induction l; constructor; auto. Qed.

Lemma evolves_refl d : evolves d d.
Proof.
  split.
  - exists []. now rewrite app_nil_r.
  - exists (bills d), []. split; [now rewrite app_nil_r|].
    apply Forall2_refl_on, bill_evolves_refl.
Qed.

Lemma Forall2_trans_on {A} (R : A -> A -> Prop) :
  (forall x y z, R x y -> R y z -> R x z) ->
  forall l1 l2 l3, Forall2 R l1 l2 -> Forall2 R l2 l3 -> Forall2 R l1 l3.
Proof.
  intros HR l1 l2 l3 H12. revert l3.
  induction H12; intros l3 H23; inversion H23; subst; constructor; eauto.
Qed.

Lemma evolves_trans d1 d2 d3 : evolves d1 d2 -> evolves d2 d3 -> evolves d1 d3.
Proof.
  intros [[r1 L1] [o1 [n1 [B1 F1]]]] [[r2 L2] [o2 [n2 [B2 F2]]]]. split.
  - exists (r1 ++ r2). now rewrite L2, L1, app_assoc.
  - rewrite B1 in F2. apply Forall2_app_inv_l in F2.
    destruct F2 as [o2a [o2b [Fa [Fb E]]]]. subst o2.
    exists o2a, (o2b ++ n2). split.
    + now rewrite B2, app_assoc.
    + eapply Forall2_trans_on; [apply bill_evolves_trans | exact F1 | exact Fa].
Qed.

Lemma log_insert_evolves now bill_id act det d :
  evolves d (log_insert now bill_id act det d).
Proof.
  split.
  - eexists. reflexivity.
  - exists (bills d), []. split; [cbn; now rewrite app_nil_r|].
    apply Forall2_refl_on, bill_evolves_refl.
Qed.

Lemma update_where_id_evolves bill_id set d :
  (forall b, bill_evolves b (set b)) ->
  evolves d (update_where_id bill_id set d).
Proof.
  intros Hset. split.
  - exists []. cbn. now rewrite app_nil_r.
  - exists (bills (update_where_id bill_id set d)), [].
    split; [now rewrite app_nil_r|]. cbn [update_where_id bills].
    induction (bills d) as [|b l IH]; cbn [map]; constructor; [|exact IH].
    destruct (id b =? bill_id); [apply Hset | apply bill_evolves_refl].
Qed.

Lemma update_and_log_evolves now raises bill_id set act det d :
  (forall b, bill_evolves b (set b)) ->
  evolves d (fst (update_and_log now raises bill_id set act det d)).
Proof.
  intros Hset. destruct raises.
  - apply evolves_refl.
  - rewrite update_and_log_runs. cbn [fst].
    eapply evolves_trans;
      [apply update_where_id_evolves, Hset | apply log_insert_evolves].
Qed.

Lemma add_bill_evolves now raises info d :
  evolves d (fst (add_bill now raises info d)).
Proof.
  destruct raises; [apply evolves_refl|].
  destruct (find (same_key (amount info) (info_due_date info)) (bills d)) eqn:E.
  - rewrite (add_bill_duplicate _ _ _ _ E). apply evolves_refl.
  - rewrite (add_bill_new _ _ _ E). cbn [fst]. unfold added.
    eapply evolves_trans; [|apply log_insert_evolves]. split.
    + exists []. cbn. now rewrite app_nil_r.
    + eexists (bills d), [_]. split; [reflexivity|].
      apply Forall2_refl_on, bill_evolves_refl.
Qed.

(** Whatever the ledger is asked to do, the log only grows at its end and
    every stored bill stays in place with its fixed columns; no progress
    flag is ever cleared, no row is ever deleted. *)
Theorem ledger_writes_evolve now raises info bill_id st new_notes path link
        log_bill act det d :
  Forall (evolves d)
    [ fst (add_bill now raises info d);
      fst (update_bill_status now raises bill_id st new_notes d);
      fst (mark_pdf_generated now raises bill_id path d);
      fst (mark_pdf_sent now raises bill_id d);
      fst (mark_venmo_sent now raises bill_id link d);
      log_action now raises log_bill act det d ].
Proof.
  repeat (apply Forall_cons); try apply Forall_nil.
  - apply add_bill_evolves.
  - apply update_and_log_evolves. intros b. repeat split; auto.
  - apply update_and_log_evolves. intros b. repeat split; auto.
  - apply update_and_log_evolves. intros b. repeat split; auto.
  - apply update_and_log_evolves. intros b. repeat split; auto.
  - unfold log_action. destruct raises; [apply evolves_refl|].
    apply log_insert_evolves.
Qed.

(** ** The schema's constraints *)

Lemma sorted_snoc l y :
  StronglySorted Z.lt l -> (forall x, In x l -> x < y) ->
  StronglySorted Z.lt (l ++ [y]).
Proof.
  induction l as [|x l IH]; intros Hs Hy; cbn [app].
  - repeat constructor.
  - apply StronglySorted_inv in Hs. destruct Hs as [Hs Hx]. constructor.
    + apply IH; [exact Hs | intros z Hz; apply Hy; now right].
    + apply Forall_app. split; [exact Hx|]. constructor; [|constructor].
      apply Hy. now left.
Qed.

Lemma nodup_snoc {A} (l : list A) y : NoDup l -> ~ In y l -> NoDup (l ++ [y]).
Proof.
  intros Hl Hy. apply NoDup_app; [exact Hl | repeat constructor; auto |].
  intros x Hx [<-|[]]. exact (Hy Hx).
Qed.

Lemma log_insert_well_formed now bill_id act det d :
  well_formed d -> well_formed (log_insert now bill_id act det d).
Proof.
  intros [Hi [Hk Hl]]. repeat split; [exact Hi | exact Hk |].
  cbn [log_insert processing_log]. rewrite map_app. cbn [map log_id].
  apply sorted_snoc; [exact Hl|]. intros x Hx. now apply next_rowid_above.
Qed.

Lemma update_where_id_well_formed bill_id set d :
  (forall b, fixed_columns (set b) = fixed_columns b) ->
  well_formed d -> well_formed (update_where_id bill_id set d).
Proof.
  intros Hset [Hi [Hk Hl]].
  assert (E : forall (A : Type) (f : bill -> A),
             (forall b, f (set b) = f b) ->
             map f (map (fun b => if id b =? bill_id then set b else b) (bills d))
             = map f (bills d)).
  { intros A f Hf. rewrite map_map. apply map_ext. intros b.
    destruct (id b =? bill_id); [apply Hf | reflexivity]. }
  repeat split; cbn [update_where_id bills processing_log].
  - rewrite E; [exact Hi|]. intros b. specialize (Hset b).
    unfold fixed_columns in Hset. congruence.
  - rewrite E; [exact Hk|]. intros b. specialize (Hset b).
    unfold fixed_columns, key in *. congruence.
  - exact Hl.
Qed.

Lemma update_and_log_well_formed now raises bill_id set act det d :
  (forall b, fixed_columns (set b) = fixed_columns b) ->
  well_formed d -> well_formed (fst (update_and_log now raises bill_id set act det d)).
Proof.
  intros Hset Hd. destruct raises; [exact Hd|].
  rewrite update_and_log_runs. cbn [fst].
  now apply log_insert_well_formed, update_where_id_well_formed.
Qed.

Lemma key_absent_not_in a due d :
  find (same_key a due) (bills d) = None -> ~ In (a, due) (map key (bills d)).
Proof.
  intros Hnone Hin. apply in_map_iff in Hin. destruct Hin as [b [Hk Hb]].
  pose proof (find_none _ _ Hnone b Hb) as Hf.
  unfold key in Hk. inversion Hk; subst.
  assert (same_key (bill_amount b) (due_date b) b = true)
    by (apply same_key_true; split; reflexivity).
  congruence.
Qed.

Lemma add_bill_well_formed now raises info d :
  well_formed d -> well_formed (fst (add_bill now raises info d)).
Proof.
  intros Hd. destruct raises; [exact Hd|].
  destruct (find (same_key (amount info) (info_due_date info)) (bills d)) eqn:E.
  - rewrite (add_bill_duplicate _ _ _ _ E). exact Hd.
  - rewrite (add_bill_new _ _ _ E). cbn [fst]. unfold added.
    apply log_insert_well_formed. destruct Hd as [Hi [Hk Hl]].
    repeat split; cbn [bills_insert bills processing_log]; [| |exact Hl].
    + rewrite map_app. cbn [map]. apply sorted_snoc; [exact Hi|].
      intros x Hx. cbn [id new_bill_row]. now apply next_rowid_above.
    + rewrite map_app. cbn [map]. apply nodup_snoc; [exact Hk|].
      now apply key_absent_not_in.
Qed.

(** Every write keeps the constraints of the schema: row identifiers ascend
    in both tables and no two bills share amount and due date. *)
Theorem ledger_writes_keep_schema now raises info bill_id st new_notes path link
        log_bill act det d :
  well_formed d ->
  Forall well_formed
    [ fst (add_bill now raises info d);
      fst (update_bill_status now raises bill_id st new_notes d);
      fst (mark_pdf_generated now raises bill_id path d);
      fst (mark_pdf_sent now raises bill_id d);
      fst (mark_venmo_sent now raises bill_id link d);
      log_action now raises log_bill act det d ].
Proof.
  intros Hd. repeat (apply Forall_cons); try apply Forall_nil.
  - now apply add_bill_well_formed.
  - now apply update_and_log_well_formed.
  - now apply update_and_log_well_formed.
  - now apply update_and_log_well_formed.
  - now apply update_and_log_well_formed.
  - unfold log_action. destruct raises; [exact Hd|].
    now apply log_insert_well_formed.
Qed.

Lemma empty_database_well_formed : well_formed empty_database.
Proof. repeat split; constructor. Qed.

(** The constraints hold on a new database and so on what the six writes
    make of it. *)
Lemma ledger_writes_keep_schema_witness :
  Forall well_formed
    [ fst (add_bill 100 false Scenarios.august_plain empty_database);
      fst (update_bill_status 100 false 1 "completed" None empty_database);
      fst (mark_pdf_generated 100 false 1 "bill.pdf" empty_database);
      fst (mark_pdf_sent 100 false 1 empty_database);
      fst (mark_venmo_sent 100 false 1 "venmo://x" empty_database);
      log_action 100 false (Some 1) "note" None empty_database ].
Proof.
  apply (ledger_writes_keep_schema 100 false Scenarios.august_plain 1 "completed"
           None "bill.pdf" "venmo://x" (Some 1) "note" None empty_database).
  exact empty_database_well_formed.
Defined.

(** ** Lookups on a database that meets the constraints *)

Lemma find_unique {A B} (f : A -> B) (test : A -> bool) l x :
  NoDup (map f l) -> In x l ->
  (forall y, test y = true <-> f y = f x) ->
  find test l = Some x.
Proof.
  induction l as [|y l IH]; intros Hn Hx Ht; [contradiction|].
  cbn [map] in Hn. apply NoDup_cons_iff in Hn. destruct Hn as [Hy Hn].
  cbn [find]. destruct Hx as [->|Hx].
  - now rewrite (proj2 (Ht x) eq_refl).
  - destruct (test y) eqn:E.
    + exfalso. apply Hy. apply Ht in E. rewrite E. now apply in_map.
    + now apply IH.
Qed.

Lemma sorted_lt_nodup l : StronglySorted Z.lt l -> NoDup l.
Proof.
  induction l as [|x l IH]; intros Hs; constructor;
    apply StronglySorted_inv in Hs; destruct Hs as [Hs Hx].
  - intros Hin. rewrite Forall_forall in Hx. specialize (Hx x Hin). lia.
  - now apply IH.
Qed.

(** A stored bill is the one its id resolves to, and the one a lookup by its
    amount and due date finds. *)
Theorem stored_bill_is_found d b :
  well_formed d -> In b (bills d) ->
  get_bill_by_id (id b) d = Some b
  /\ find (same_key (bill_amount b) (due_date b)) (bills d) = Some b.
Proof.
  intros [Hi [Hk _]] Hb. split.
  - unfold get_bill_by_id. apply (find_unique id); [now apply sorted_lt_nodup | exact Hb |].
    intros y. apply Z.eqb_eq.
  - apply (find_unique key); [exact Hk | exact Hb |].
    intros y. rewrite same_key_true. unfold key. split.
    + intros [-> ->]. reflexivity.
    + intros E. inversion E. auto.
Qed.

Lemma stored_bill_is_found_witness :
  get_bill_by_id 2 Scenarios.year_end_database
  = Some (new_bill_row 200 2 Scenarios.january_bill)
  /\ find (same_key 12000 "01/15/2026") (bills Scenarios.year_end_database)
     = Some (new_bill_row 200 2 Scenarios.january_bill).
Proof.
  apply (stored_bill_is_found Scenarios.year_end_database
           (new_bill_row 200 2 Scenarios.january_bill)).
  - apply add_bill_well_formed, add_bill_well_formed, empty_database_well_formed.
  - right. left. reflexivity.
Defined.

End LedgerInvariants.

Section LedgerContracts.

Import Settings Sqlite Database Ledger.

#[local] Open Scope Z_scope.

Lemma find_app_found {A} (f : A -> bool) l l' x :
  find f l = Some x -> find f (l ++ l') = Some x.
Proof.
  induction l as [|y l IH]; cbn [find app]; [discriminate|].
  destruct (f y); [auto | exact IH].
Qed.

Lemma next_rowid_not_stored d :
  get_bill_by_id (next_rowid (bills_seq d) (map id (bills d))) d = None.
Proof.
  unfold get_bill_by_id. apply find_absent. intros b Hb.
  now apply next_rowid_unused.
Qed.

Lemma added_row_is_read now info d :
  get_bill_by_id (next_rowid (bills_seq d) (map id (bills d))) (added now info d)
  = Some (new_bill_row now (next_rowid (bills_seq d) (map id (bills d))) info).
Proof.
  unfold get_bill_by_id, added. cbn [log_insert bills_insert bills].
  rewrite find_app_skip.
  - cbn [find id new_bill_row]. now rewrite Z.eqb_refl.
  - intros b Hb. now apply next_rowid_unused.
Qed.

Lemma add_bill_keeps_lookups now raises info d j b :
  get_bill_by_id j d = Some b ->
  get_bill_by_id j (fst (add_bill now raises info d)) = Some b.
Proof.
  intros Hj. destruct raises; [exact Hj|].
  destruct (find (same_key (amount info) (info_due_date info)) (bills d)) eqn:E.
  - now rewrite (add_bill_duplicate _ _ _ _ E).
  - rewrite (add_bill_new _ _ _ E). unfold get_bill_by_id, added in *.
    cbn [fst log_insert bills_insert bills]. now apply find_app_found.
Qed.

(** What a call of [add_bill] leaves behind.  It reports success exactly
    when the database did not raise and no bill had the key.  A call that
    reports no success returns no id and leaves the database as it was.  An
    id that is returned was not in use, and now resolves to the new row:
    pending, no progress flag set.  An id that resolved to a bill before
    still resolves to that bill. *)
Theorem add_bill_outcome now raises info d :
  (fst (fst (snd (add_bill now raises info d))) = true
   <-> raises = false
       /\ find (same_key (amount info) (info_due_date info)) (bills d) = None)
  /\ (fst (fst (snd (add_bill now raises info d))) = false ->
      fst (add_bill now raises info d) = d
      /\ snd (snd (add_bill now raises info d)) = None)
  /\ (forall i, snd (snd (add_bill now raises info d)) = Some i ->
      fst (fst (snd (add_bill now raises info d))) = true
      /\ get_bill_by_id i d = None
      /\ get_bill_by_id i (fst (add_bill now raises info d))
         = Some (new_bill_row now i info))
  /\ (forall j b, get_bill_by_id j d = Some b ->
      get_bill_by_id j (fst (add_bill now raises info d)) = Some b).
Proof.
  split; [|split; [|split]]; [| | |apply add_bill_keeps_lookups].
  - destruct raises; [cbn; split; [discriminate | intros [H _]; discriminate]|].
    destruct (find (same_key (amount info) (info_due_date info)) (bills d)) eqn:E.
    + rewrite (add_bill_duplicate _ _ _ _ E). cbn.
      split; [discriminate | intros [_ H]; discriminate].
    + rewrite (add_bill_new _ _ _ E). cbn. split; auto.
  - destruct raises; [cbn; auto|].
    destruct (find (same_key (amount info) (info_due_date info)) (bills d)) eqn:E.
    + rewrite (add_bill_duplicate _ _ _ _ E). cbn. auto.
    + rewrite (add_bill_new _ _ _ E). cbn. discriminate.
  - intros i. destruct raises; [cbn; discriminate|].
    destruct (find (same_key (amount info) (info_due_date info)) (bills d)) eqn:E.
    + rewrite (add_bill_duplicate _ _ _ _ E). cbn. discriminate.
    + rewrite (add_bill_new _ _ _ E). cbn [fst snd]. intros H.
      inversion H; subst. split; [reflexivity|].
      split; [apply next_rowid_not_stored | apply added_row_is_read].
Qed.

(** The outcome of [add_bill] for the August bill on a new database, and
    for the same bill once more. *)
Lemma add_bill_outcome_witness :
  fst (fst (snd (add_bill 100 false Scenarios.august_plain empty_database))) = true
  /\ get_bill_by_id 1 (fst (add_bill 100 false Scenarios.august_plain empty_database))
     = Some (new_bill_row 100 1 Scenarios.august_plain)
  /\ fst (add_bill 200 false Scenarios.august_markup Scenarios.august_database)
     = Scenarios.august_database
  /\ get_bill_by_id 1 (fst (add_bill 200 false Scenarios.august_markup
                                     Scenarios.august_database))
     = Some (new_bill_row 100 1 Scenarios.august_plain).
Proof.
  destruct (add_bill_outcome 100 false Scenarios.august_plain empty_database)
    as [H1 [_ [H3 _]]].
  destruct (add_bill_outcome 200 false Scenarios.august_markup
                             Scenarios.august_database) as [_ [H2' [_ H4']]].
  split; [apply H1; split; reflexivity|].
  split; [apply (H3 1 eq_refl)|].
  split; [apply H2'; reflexivity|].
  apply H4'. reflexivity.
Defined.

(** ** LIMIT after ORDER BY *)

Lemma sql_limit_split {A} n (l : list A) :
  exists rest, l = sql_limit n l ++ rest.
Proof.
  unfold sql_limit. destruct (n <? 0).
  - exists []. now rewrite app_nil_r.
  - exists (skipn (Z.to_nat n) l). now rewrite firstn_skipn.
Qed.

Lemma sql_limit_length {A} n (l : list A) :
  0 <= n -> List.length (sql_limit n l) = Nat.min (Z.to_nat n) (List.length l).
Proof.
  intros Hn. unfold sql_limit.
  destruct (Z.ltb_spec n 0); [lia | apply length_firstn].
Qed.

Lemma sorted_app_order {A} (R : A -> A -> Prop) l1 l2 :
  (forall x y z, R x y -> R y z -> R x z) ->
  Sorted R (l1 ++ l2) -> forall x y, In x l1 -> In y l2 -> R x y.
Proof.
  intros HR Hs. apply Sorted_StronglySorted in Hs; [|exact HR].
  induction l1 as [|a l1 IH]; intros x y Hx Hy; [contradiction|].
  cbn [app] in Hs. apply StronglySorted_inv in Hs. destruct Hs as [Hs Ha].
  destruct Hx as [->|Hx].
  - rewrite Forall_forall in Ha. apply Ha. apply in_or_app. now right.
  - now apply IH.
Qed.

Lemma sorted_weaken {A} (R R' : A -> A -> Prop) l :
  (forall x y, R x y -> R' x y) -> Sorted R l -> Sorted R' l.
Proof.
  intros HR. induction l as [|x l IH]; intros Hs; constructor;
    apply Sorted_inv in Hs; destruct Hs as [Hs Hh].
  - now apply IH.
  - destruct Hh; constructor. now apply HR.
Qed.

(** [get_recent_bills] returns stored bills, newest first, as many as the
    limit allows; the bills it leaves out are no newer than the ones it
    returns, and a negative limit returns them all. *)
Theorem get_recent_bills_are_newest limit d :
  Sorted (fun x y => processed_date y <= processed_date x)
         (get_recent_bills limit d)
  /\ (exists rest,
        Permutation (get_recent_bills limit d ++ rest) (bills d)
        /\ forall x y, In x (get_recent_bills limit d) -> In y rest ->
                       processed_date y <= processed_date x)
  /\ (0 <= limit ->
      List.length (get_recent_bills limit d)
      = Nat.min (Z.to_nat limit) (List.length (bills d)))
  /\ (limit < 0 -> Permutation (get_recent_bills limit d) (bills d)).
Proof.
  set (before := fun x y : bill => processed_date y <=? processed_date x).
  assert (Htotal : forall x y, before x y = false -> before y x = true).
  { unfold before. intros x y H. apply Z.leb_gt in H. apply Z.leb_le. lia. }
  assert (Hsorted : Sorted (fun x y => processed_date y <= processed_date x)
                           (order_by before (bills d))).
  { eapply sorted_weaken; [|apply (order_by_sorted before Htotal)].
    intros x y H. now apply Z.leb_le. }
  unfold get_recent_bills. fold before. split; [|split; [|split]].
  - now apply sql_limit_sorted.
  - destruct (sql_limit_split limit (order_by before (bills d))) as [rest E].
    exists rest. split.
    + rewrite <- E. apply order_by_permutation.
    + rewrite E in Hsorted.
      apply (sorted_app_order
               (fun x y : bill => processed_date y <= processed_date x)
               _ _); [intros; lia | exact Hsorted].
  - intros Hl. rewrite sql_limit_length by exact Hl.
    now rewrite (Permutation_length (order_by_permutation before (bills d))).
  - intros Hl. unfold sql_limit. apply Z.ltb_lt in Hl. rewrite Hl.
    apply order_by_permutation.
Qed.

Lemma get_recent_bills_are_newest_witness :
  List.length (get_recent_bills 1 Scenarios.year_end_database) = 1%nat
  /\ Permutation (get_recent_bills (-1) Scenarios.year_end_database)
                 (bills Scenarios.year_end_database).
Proof.
  destruct (get_recent_bills_are_newest 1 Scenarios.year_end_database)
    as [_ [_ [H3 _]]].
  destruct (get_recent_bills_are_newest (-1) Scenarios.year_end_database)
    as [_ [_ [_ H4]]].
  split; [apply H3; lia | apply H4; lia].
Defined.

(** [get_processing_log] with a bill id other than 0 returns rows of that
    bill only, unjoined, newest first, at most [limit] of them; the rows of
    that bill it leaves out are no newer than the ones it returns, and with
    a negative limit none is left out. *)
Theorem get_processing_log_of_bill i limit d :
  i <> 0 ->
  (forall v, In v (get_processing_log (Some i) limit d) ->
             exists r, v = LogRow r /\ In r (processing_log d)
                       /\ log_bill_id r = Some i)
  /\ Sorted (fun x y => timestamp (view_row y) <= timestamp (view_row x))
            (get_processing_log (Some i) limit d)
  /\ (exists rest,
        Permutation (map view_row (get_processing_log (Some i) limit d ++ rest))
                    (filter (fun r => match log_bill_id r with
                                      | Some j => j =? i
                                      | None => false
                                      end) (processing_log d))
        /\ forall x y, In x (get_processing_log (Some i) limit d) -> In y rest ->
                       timestamp (view_row y) <= timestamp (view_row x))
  /\ (0 <= limit ->
      (List.length (get_processing_log (Some i) limit d) <= Z.to_nat limit)%nat).
Proof.
  intros Hi.
  set (mine := fun r => match log_bill_id r with
                        | Some j => j =? i
                        | None => false
                        end).
  assert (E : get_processing_log (Some i) limit d
              = sql_limit limit
                  (order_by newest_first (map LogRow (filter mine (processing_log d))))).
  { unfold get_processing_log, truthy_int.
    destruct (Z.eqb_spec i 0); [contradiction|]. reflexivity. }
  assert (Htotal : forall x y, newest_first x y = false -> newest_first y x = true).
  { unfold newest_first. intros x y H. apply Z.leb_gt in H. apply Z.leb_le. lia. }
  assert (Hsorted : Sorted (fun x y => timestamp (view_row y) <= timestamp (view_row x))
                      (order_by newest_first
                         (map LogRow (filter mine (processing_log d))))).
  { eapply sorted_weaken; [|apply (order_by_sorted newest_first Htotal)].
    intros x y H. now apply Z.leb_le. }
  rewrite E. split; [|split; [|split]].
  - intros v Hv. apply sql_limit_in in Hv.
    apply (Permutation_in _ (order_by_permutation newest_first _)) in Hv.
    apply in_map_iff in Hv. destruct Hv as [r [<- Hr]].
    apply filter_In in Hr. destruct Hr as [Hr Hm]. exists r.
    split; [reflexivity|]. split; [exact Hr|]. unfold mine in Hm.
    destruct (log_bill_id r) as [j|]; [|discriminate].
    apply Z.eqb_eq in Hm. now subst.
  - now apply sql_limit_sorted.
  - destruct (sql_limit_split limit
                (order_by newest_first (map LogRow (filter mine (processing_log d)))))
      as [rest Er].
    exists rest. split.
    + rewrite <- Er.
      eapply Permutation_trans;
        [apply Permutation_map, order_by_permutation|].
      rewrite map_map. cbn [view_row]. rewrite map_id. apply Permutation_refl.
    + rewrite Er in Hsorted.
      apply (sorted_app_order
               (fun x y : log_view =>
                  timestamp (view_row y) <= timestamp (view_row x))
               _ _); [intros; lia | exact Hsorted].
  - intros Hl. rewrite sql_limit_length by exact Hl. lia.
Qed.

Lemma get_processing_log_of_bill_witness :
  (forall v, In v (get_processing_log (Some 1) 50 Scenarios.log_with_bill_zero) ->
             exists r, v = LogRow r
                       /\ In r (processing_log Scenarios.log_with_bill_zero)
                       /\ log_bill_id r = Some 1)
  /\ (List.length (get_processing_log (Some 1%Z) 50%Z Scenarios.log_with_bill_zero)
      <= 50)%nat.
Proof.
  destruct (get_processing_log_of_bill 1 50 Scenarios.log_with_bill_zero)
    as [H1 [_ [_ H4]]]; [discriminate|].
  split; [exact H1 | apply H4; lia].
Defined.

(** ** The three flag updates *)

Lemma update_and_log_reads now i j set act det d :
  (forall b, id (set b) = id b) ->
  get_bill_by_id j (fst (update_and_log now false i set act det d))
  = if j =? i then option_map set (get_bill_by_id j d) else get_bill_by_id j d.
Proof.
  intros Hset. rewrite update_and_log_runs. cbn [fst].
  rewrite get_after_log_insert. now apply get_after_update.
Qed.

Lemma update_and_log_appends now i set act det d :
  exists row,
    processing_log (fst (update_and_log now false i set act det d))
    = processing_log d ++ [row]
    /\ log_bill_id row = Some i /\ action row = act /\ timestamp row = now.
Proof.
  rewrite update_and_log_runs. cbn [fst log_insert update_where_id processing_log].
  eexists. split; [reflexivity|]. repeat split.
Qed.

(** On an existing bill, [mark_pdf_generated] sets the flag and the path,
    [mark_pdf_sent] sets its flag, [mark_venmo_sent] sets the flag and the
    link; each leaves every other column of that bill and every other bill as
    they were, and appends one log row naming the bill and the action. *)
Theorem flag_updates_frame now i path link d b :
  get_bill_by_id i d = Some b ->
  (exists b',
      get_bill_by_id i (fst (mark_pdf_generated now false i path d)) = Some b'
      /\ pdf_generated b' = true /\ pdf_path b' = Some path
      /\ fixed_columns b' = fixed_columns b
      /\ (pdf_sent b', venmo_link b', venmo_sent b', status b', notes b')
         = (pdf_sent b, venmo_link b, venmo_sent b, status b, notes b))
  /\ (exists b',
        get_bill_by_id i (fst (mark_pdf_sent now false i d)) = Some b'
        /\ pdf_sent b' = true
        /\ fixed_columns b' = fixed_columns b
        /\ (pdf_path b', pdf_generated b', venmo_link b', venmo_sent b',
            status b', notes b')
           = (pdf_path b, pdf_generated b, venmo_link b, venmo_sent b,
              status b, notes b))
  /\ (exists b',
        get_bill_by_id i (fst (mark_venmo_sent now false i link d)) = Some b'
        /\ venmo_sent b' = true /\ venmo_link b' = Some link
        /\ fixed_columns b' = fixed_columns b
        /\ (pdf_path b', pdf_generated b', pdf_sent b', status b', notes b')
           = (pdf_path b, pdf_generated b, pdf_sent b, status b, notes b))
  /\ (forall j, j <> i ->
        get_bill_by_id j (fst (mark_pdf_generated now false i path d))
        = get_bill_by_id j d
        /\ get_bill_by_id j (fst (mark_pdf_sent now false i d)) = get_bill_by_id j d
        /\ get_bill_by_id j (fst (mark_venmo_sent now false i link d))
           = get_bill_by_id j d)
  /\ (exists r1 r2 r3,
        processing_log (fst (mark_pdf_generated now false i path d))
        = processing_log d ++ [r1]
        /\ processing_log (fst (mark_pdf_sent now false i d))
           = processing_log d ++ [r2]
        /\ processing_log (fst (mark_venmo_sent now false i link d))
           = processing_log d ++ [r3]
        /\ map log_bill_id [r1; r2; r3] = [Some i; Some i; Some i]
        /\ map action [r1; r2; r3] = ["pdf_generated"; "pdf_sent"; "venmo_sent"]).
Proof.
  intros Hb. unfold mark_pdf_generated, mark_pdf_sent, mark_venmo_sent.
  split; [|split; [|split; [|split]]].
  - exists (set_pdf_generated path b).
    rewrite update_and_log_reads, Z.eqb_refl, Hb by reflexivity.
    repeat split.
  - exists (set_pdf_sent b).
    rewrite update_and_log_reads, Z.eqb_refl, Hb by reflexivity.
    repeat split.
  - exists (set_venmo_sent link b).
    rewrite update_and_log_reads, Z.eqb_refl, Hb by reflexivity.
    repeat split.
  - intros j Hj. apply Z.eqb_neq in Hj.
    rewrite !update_and_log_reads by reflexivity. rewrite Hj. repeat split.
  - destruct (update_and_log_appends now i (set_pdf_generated path)
                "pdf_generated" (PdfSavedTo path) d) as [r1 [E1 [B1 [A1 _]]]].
    destruct (update_and_log_appends now i set_pdf_sent
                "pdf_sent" PdfSentToRoommate d) as [r2 [E2 [B2 [A2 _]]]].
    destruct (update_and_log_appends now i (set_venmo_sent link)
                "venmo_sent" (VenmoLinkGenerated link) d) as [r3 [E3 [B3 [A3 _]]]].
    exists r1, r2, r3. cbn [map]. rewrite B1, B2, B3, A1, A2, A3. auto.
Qed.

Lemma flag_updates_frame_witness :
  exists b',
    get_bill_by_id 1 (fst (mark_pdf_generated 300 false 1 "bill.pdf"
                                              Scenarios.august_database))
    = Some b'
    /\ pdf_generated b' = true /\ pdf_path b' = Some "bill.pdf"
    /\ fixed_columns b' = fixed_columns (new_bill_row 100 1 Scenarios.august_plain)
    /\ (pdf_sent b', venmo_link b', venmo_sent b', status b', notes b')
       = (false, None, false, "pending",
          Some "Added from email: Your PG&E statement").
Proof.
  exact (proj1 (flag_updates_frame 300 1 "bill.pdf" "venmo://x"
                  Scenarios.august_database
                  (new_bill_row 100 1 Scenarios.august_plain) eq_refl)).
Defined.

End LedgerContracts.

(* ===================================================================== *)
(** * Further facts about a run *)
(* ===================================================================== *)

Section RunContracts.

Import Settings Sqlite Database Ledger Gmail Processor Runs.

#[local] Open Scope Z_scope.

(** ** What a run adds *)

Lemma recorded_as_after_add now raises info d nb :
  recorded_as d nb -> recorded_as (fst (add_bill now raises info d)) nb.
Proof.
  intros [i [b [Hi [Hb H]]]]. exists i, b. split; [exact Hi|]. split; [|exact H].
  now apply add_bill_keeps_lookups.
Qed.

Lemma process_message_invariant w d0 d r m :
  run_invariant d0 d r ->
  run_invariant d0 (fst (process_message w (d, r) m))
                   (snd (process_message w (d, r) m)).
Proof.
  intros [Hlen [[rows [Hlog [Hrows Hact]]] [Hrec Hnd]]].
  unfold process_message.
  destruct (parse_pge_bill (mailbox w) m) as [[info|]|];
    [|repeat split; eauto|repeat split; eauto].
  destruct (sqlite_raises w m).
  { cbn. repeat split; eauto. }
  destruct (find (same_key (amount info) (info_due_date info)) (bills d)) eqn:E.
  { rewrite (add_bill_duplicate _ _ _ _ E). cbn. repeat split; eauto. }
  pose proof (recorded_as_after_add (clock w m) false info d) as Hkeep.
  pose proof (next_rowid_not_stored d) as Hfresh.
  pose proof (added_row_is_read (clock w m) info d) as Hread.
  rewrite (add_bill_new _ _ _ E) in *. cbn [fst snd] in *.
  set (i := next_rowid (bills_seq d) (map id (bills d))) in *.
  unfold run_invariant.
  cbn [processed new_bills count_processed].
  split; [|split; [|split]].
  - unfold added. cbn [log_insert bills_insert bills].
    rewrite length_app. cbn [List.length]. lia.
  - unfold added. cbn [log_insert bills_insert processing_log].
    eexists (rows ++ [_]). rewrite Hlog, <- app_assoc.
    split; [reflexivity|]. split.
    + rewrite length_app. cbn [List.length]. lia.
    + apply Forall_app. split; [exact Hact|]. repeat constructor.
  - apply Forall_app. split.
    + eapply Forall_impl; [|exact Hrec]. intros nb. apply Hkeep.
    + constructor; [|constructor].
      exists i, (new_bill_row (clock w m) i info).
      cbn [nb_bill_id nb_amount nb_due_date nb_email_subject].
      split; [reflexivity|]. split; [exact Hread|]. repeat split.
  - rewrite map_app. cbn [map nb_bill_id]. apply nodup_snoc; [exact Hnd|].
    intros Hin. apply in_map_iff in Hin. destruct Hin as [nb [Hnb Hin]].
    rewrite Forall_forall in Hrec. destruct (Hrec nb Hin) as [j [b [Hj [Hb _]]]].
    assert (j = i) by congruence. subst j. congruence.
Qed.

Lemma fold_process_message_invariant w d0 messages : forall d r,
  run_invariant d0 d r ->
  run_invariant d0 (fst (fold_left (process_message w) messages (d, r)))
                   (snd (fold_left (process_message w) messages (d, r))).
Proof.
  induction messages as [|m messages IH]; intros d r H; cbn [fold_left]; [exact H|].
  pose proof (process_message_invariant w d0 d r m H) as H'.
  destruct (process_message w (d, r) m) as [d' r']. now apply IH.
Qed.

Lemma run_invariant_start d : run_invariant d d no_results.
Proof.
  repeat split; cbn; try constructor; try lia.
  exists []. rewrite app_nil_r. repeat split; constructor.
Qed.

(** After a run from any database, whatever the mailbox and the database
    did: the table holds as many more bills as the summary counts under
    [processed]; the log has gained that many rows, all [bill_added], and
    nothing else; every entry of [new_bills] carries its own id, and the id
    resolves to an untouched pending bill with the entry's amount, due date
    and subject. *)
Theorem run_adds_what_it_reports w messages d :
  List.length (bills (fst (process_latest_bills w messages d)))
  = (List.length (bills d) + processed (snd (process_latest_bills w messages d)))%nat
  /\ (exists rows,
        processing_log (fst (process_latest_bills w messages d))
        = processing_log d ++ rows
        /\ List.length rows = processed (snd (process_latest_bills w messages d))
        /\ Forall (fun row => action row = "bill_added") rows)
  /\ Forall (recorded_as (fst (process_latest_bills w messages d)))
            (new_bills (snd (process_latest_bills w messages d)))
  /\ NoDup (map nb_bill_id (new_bills (snd (process_latest_bills w messages d)))).
Proof.
  unfold process_latest_bills. destruct messages as [|m messages].
  - apply run_invariant_start.
  - apply fold_process_message_invariant, run_invariant_start.
Qed.

(** ** Running again *)

Lemma add_bill_keeps_keys now raises info d a due :
  existsb (same_key a due) (bills d) = true ->
  existsb (same_key a due) (bills (fst (add_bill now raises info d))) = true.
Proof.
  intros H. destruct raises; [exact H|].
  destruct (find (same_key (amount info) (info_due_date info)) (bills d)) eqn:E.
  - now rewrite (add_bill_duplicate _ _ _ _ E).
  - rewrite (add_bill_new _ _ _ E). unfold added.
    cbn [fst log_insert bills_insert bills]. rewrite existsb_app, H. reflexivity.
Qed.

Lemma add_bill_stores_key now info d :
  existsb (same_key (amount info) (info_due_date info))
          (bills (fst (add_bill now false info d))) = true.
Proof.
  destruct (find (same_key (amount info) (info_due_date info)) (bills d)) eqn:E.
  - rewrite (add_bill_duplicate _ _ _ _ E). cbn [fst].
    apply find_some in E. apply existsb_exists. eauto.
  - rewrite (add_bill_new _ _ _ E). unfold added.
    cbn [fst log_insert bills_insert bills]. rewrite existsb_app.
    cbn [existsb]. unfold same_key at 2. cbn [bill_amount due_date new_bill_row].
    rewrite Z.eqb_refl, String.eqb_refl. cbn. apply orb_true_r.
Qed.

Lemma process_message_keeps_keys w d r m a due :
  existsb (same_key a due) (bills d) = true ->
  existsb (same_key a due) (bills (fst (process_message w (d, r) m))) = true.
Proof.
  intros H. unfold process_message.
  destruct (parse_pge_bill (mailbox w) m) as [[info|]|]; [|exact H|exact H].
  pose proof (add_bill_keeps_keys (clock w m) (sqlite_raises w m) info d a due H) as K.
  destruct (add_bill (clock w m) (sqlite_raises w m) info d) as [d' [[[|] msg] i]];
    exact K.
Qed.

Lemma fold_keeps_keys w messages a due : forall d r,
  existsb (same_key a due) (bills d) = true ->
  existsb (same_key a due)
          (bills (fst (fold_left (process_message w) messages (d, r)))) = true.
Proof.
  induction messages as [|m messages IH]; intros d r H; cbn [fold_left]; [exact H|].
  pose proof (process_message_keeps_keys w d r m a due H) as K.
  destruct (process_message w (d, r) m) as [d' r']. now apply IH.
Qed.

Lemma fold_stores_keys w messages :
  (forall m, sqlite_raises w m = false) ->
  forall d r m info,
    In m messages -> parse_pge_bill (mailbox w) m = Returned (Some info) ->
    existsb (same_key (amount info) (info_due_date info))
            (bills (fst (fold_left (process_message w) messages (d, r)))) = true.
Proof.
  intros Hok. induction messages as [|m0 messages IH]; intros d r m info Hin Hp;
    [contradiction|].
  cbn [fold_left]. destruct Hin as [->|Hin].
  - assert (K : existsb (same_key (amount info) (info_due_date info))
                        (bills (fst (process_message w (d, r) m))) = true).
    { unfold process_message. rewrite Hp, Hok.
      pose proof (add_bill_stores_key (clock w m) info d) as K.
      destruct (add_bill (clock w m) false info d) as [d' [[[|] msg] i]]; exact K. }
    destruct (process_message w (d, r) m) as [d' r']. now apply fold_keeps_keys.
  - destruct (process_message w (d, r) m0) as [d' r']. now apply IH with (m := m).
Qed.

Lemma existsb_found {A} (f : A -> bool) l :
  existsb f l = true -> exists x, find f l = Some x.
Proof.
  induction l as [|y l IH]; cbn; [discriminate|].
  destruct (f y); [eauto | exact IH].
Qed.

Lemma parses_some w m info :
  parse_pge_bill (mailbox w) m = Returned (Some info) -> parses w m = true.
Proof. unfold parses. now intros ->. Qed.

Lemma parses_none w m :
  parse_pge_bill (mailbox w) m = Returned None -> parses w m = false.
Proof. unfold parses. now intros ->. Qed.

Lemma parses_raised w m :
  parse_pge_bill (mailbox w) m = Raised -> parses w m = false.
Proof. unfold parses. now intros ->. Qed.

Lemma process_message_unparsed w d r m :
  parses w m = false ->
  exists e, process_message w (d, r) m = (d, count_error e r).
Proof.
  unfold parses, process_message.
  destruct (parse_pge_bill (mailbox w) m) as [[info|]|]; [discriminate| |]; eauto.
Qed.

Lemma process_message_known w d r m info :
  sqlite_raises w m = false ->
  parse_pge_bill (mailbox w) m = Returned (Some info) ->
  existsb (same_key (amount info) (info_due_date info)) (bills d) = true ->
  process_message w (d, r) m
  = (d, count_duplicate (mkDuplicateBill (amount info) (info_due_date info)
                                         (info_email_subject info)) r).
Proof.
  intros Hok Hp Hk. unfold process_message. rewrite Hp, Hok.
  destruct (existsb_found _ _ Hk) as [b Hb].
  now rewrite (add_bill_duplicate _ _ _ _ Hb).
Qed.

(** A run over messages whose bills are all on file. *)
Lemma fold_over_known_bills w messages d :
  (forall m, sqlite_raises w m = false) ->
  (forall m info, In m messages ->
                  parse_pge_bill (mailbox w) m = Returned (Some info) ->
                  existsb (same_key (amount info) (info_due_date info)) (bills d)
                  = true) ->
  forall r,
    fst (fold_left (process_message w) messages (d, r)) = d
    /\ processed (snd (fold_left (process_message w) messages (d, r))) = processed r
    /\ new_bills (snd (fold_left (process_message w) messages (d, r))) = new_bills r
    /\ duplicates (snd (fold_left (process_message w) messages (d, r)))
       = (duplicates r + List.length (filter (parses w) messages))%nat
    /\ errors (snd (fold_left (process_message w) messages (d, r)))
       = (errors r
          + List.length (filter (fun m => negb (parses w m)) messages))%nat.
Proof.
  intros Hok. induction messages as [|m messages IH]; intros Hknown r.
  - cbn. repeat split; lia.
  - cbn [fold_left filter].
    assert (Hrest : forall m' info, In m' messages ->
              parse_pge_bill (mailbox w) m' = Returned (Some info) ->
              existsb (same_key (amount info) (info_due_date info)) (bills d) = true).
    { intros m' info Hin. apply Hknown. now right. }
    destruct (parse_pge_bill (mailbox w) m) as [[info|]|] eqn:Hp.
    + rewrite (process_message_known w d r m info (Hok m) Hp
                 (Hknown m info (or_introl eq_refl) Hp)).
      rewrite (parses_some _ _ _ Hp). cbn [negb].
      destruct (IH Hrest (count_duplicate
                            (mkDuplicateBill (amount info) (info_due_date info)
                                             (info_email_subject info)) r))
        as [H1 [H2 [H3 [H4 H5]]]].
      rewrite H1, H2, H3, H4, H5.
      cbn [List.length processed duplicates errors new_bills count_duplicate].
      repeat split; lia.
    + destruct (process_message_unparsed w d r m (parses_none _ _ Hp)) as [e He].
      rewrite He, (parses_none _ _ Hp). cbn [negb].
      destruct (IH Hrest (count_error e r)) as [H1 [H2 [H3 [H4 H5]]]].
      rewrite H1, H2, H3, H4, H5.
      cbn [List.length processed duplicates errors new_bills count_error].
      repeat split; lia.
    + destruct (process_message_unparsed w d r m (parses_raised _ _ Hp)) as [e He].
      rewrite He, (parses_raised _ _ Hp). cbn [negb].
      destruct (IH Hrest (count_error e r)) as [H1 [H2 [H3 [H4 H5]]]].
      rewrite H1, H2, H3, H4, H5.
      cbn [List.length processed duplicates errors new_bills count_error].
      repeat split; lia.
Qed.

Lemma process_message_parsed w d r m :
  sqlite_raises w m = false -> parses w m = true ->
  exists d' r',
    process_message w (d, r) m = (d', r')
    /\ (processed r' + duplicates r')%nat = S (processed r + duplicates r)
    /\ errors r' = errors r.
Proof.
  intros Hok. unfold parses, process_message.
  destruct (parse_pge_bill (mailbox w) m) as [[info|]|]; try discriminate.
  intros _. rewrite Hok.
  destruct (add_bill (clock w m) false info d) as [d' [[[|] msg] i]];
    eexists _, _; (split; [reflexivity|]); cbn; split; lia.
Qed.

(** A run while the database works: what parses is processed or found to be
    a duplicate, what does not parse is an error. *)
Lemma fold_counts_by_parsing w messages :
  (forall m, sqlite_raises w m = false) ->
  forall d r,
    (processed (snd (fold_left (process_message w) messages (d, r)))
     + duplicates (snd (fold_left (process_message w) messages (d, r))))%nat
    = (processed r + duplicates r + List.length (filter (parses w) messages))%nat
    /\ errors (snd (fold_left (process_message w) messages (d, r)))
       = (errors r + List.length (filter (fun m => negb (parses w m)) messages))%nat.
Proof.
  intros Hok. induction messages as [|m messages IH]; intros d r.
  - cbn. split; lia.
  - cbn [fold_left filter]. destruct (parses w m) eqn:Hp.
    + destruct (process_message_parsed w d r m (Hok m) Hp) as [d' [r' [E [H1 H2]]]].
      rewrite E. destruct (IH d' r') as [I1 I2]. rewrite I1, I2.
      cbn [negb List.length]. split; lia.
    + destruct (process_message_unparsed w d r m Hp) as [e E].
      rewrite E. destruct (IH d (count_error e r)) as [I1 I2]. rewrite I1, I2.
      cbn [negb List.length processed duplicates errors count_error]. split; lia.
Qed.

Lemma parses_same_mail w1 w2 m :
  mailbox w2 m = mailbox w1 m -> parses w2 m = parses w1 m.
Proof.
  intros H. unfold parses, parse_pge_bill, get_email_content. now rewrite H.
Qed.

Lemma process_latest_bills_fold w messages d :
  process_latest_bills w messages d
  = fold_left (process_message w) messages (d, no_results).
Proof. now destruct messages. Qed.

Lemma second_run_facts w messages d :
  (forall m, sqlite_raises w m = false) ->
  fst (process_latest_bills w messages (fst (process_latest_bills w messages d)))
  = fst (process_latest_bills w messages d)
  /\ processed (snd (process_latest_bills w messages
                        (fst (process_latest_bills w messages d)))) = 0%nat
  /\ duplicates (snd (process_latest_bills w messages
                         (fst (process_latest_bills w messages d))))
     = List.length (filter (parses w) messages)
  /\ errors (snd (process_latest_bills w messages
                     (fst (process_latest_bills w messages d))))
     = List.length (filter (fun m => negb (parses w m)) messages).
Proof.
  intros Hok. rewrite !process_latest_bills_fold.
  set (d1 := fst (fold_left (process_message w) messages (d, no_results))).
  assert (Hknown : forall m info, In m messages ->
            parse_pge_bill (mailbox w) m = Returned (Some info) ->
            existsb (same_key (amount info) (info_due_date info)) (bills d1) = true).
  { intros m info Hin Hp.
    now apply (fold_stores_keys w messages Hok d no_results m info). }
  destruct (fold_over_known_bills w messages d1 Hok Hknown no_results)
    as [H1 [H2 [H3 [H4 H5]]]].
  rewrite H1, H2, H4, H5. cbn. repeat split.
Qed.

(** Running again adds nothing.  When the database raises no error, a second
    run over messages the first run has seen, with the mailbox answering as
    before, leaves the database as the first run left it and processes no
    bill: every message that parses is counted as a duplicate, every other
    one as an error. *)
Theorem second_run_adds_nothing w1 messages1 w2 messages2 d :
  (forall m, sqlite_raises w1 m = false) ->
  (forall m, sqlite_raises w2 m = false) ->
  (forall m, In m messages2 -> In m messages1 /\ mailbox w2 m = mailbox w1 m) ->
  fst (process_latest_bills w2 messages2 (fst (process_latest_bills w1 messages1 d)))
  = fst (process_latest_bills w1 messages1 d)
  /\ processed (snd (process_latest_bills w2 messages2
                        (fst (process_latest_bills w1 messages1 d)))) = 0%nat
  /\ new_bills (snd (process_latest_bills w2 messages2
                        (fst (process_latest_bills w1 messages1 d)))) = []
  /\ duplicates (snd (process_latest_bills w2 messages2
                         (fst (process_latest_bills w1 messages1 d))))
     = List.length (filter (parses w2) messages2)
  /\ errors (snd (process_latest_bills w2 messages2
                     (fst (process_latest_bills w1 messages1 d))))
     = List.length (filter (fun m => negb (parses w2 m)) messages2).
Proof.
  intros Hok1 Hok2 Hseen. rewrite !process_latest_bills_fold.
  set (d1 := fst (fold_left (process_message w1) messages1 (d, no_results))).
  assert (Hknown : forall m info, In m messages2 ->
            parse_pge_bill (mailbox w2) m = Returned (Some info) ->
            existsb (same_key (amount info) (info_due_date info)) (bills d1) = true).
  { intros m info Hin Hp. destruct (Hseen m Hin) as [Hin1 Hmail].
    assert (Hp1 : parse_pge_bill (mailbox w1) m = Returned (Some info)).
    { unfold parse_pge_bill, get_email_content in *. now rewrite <- Hmail. }
    now apply (fold_stores_keys w1 messages1 Hok1 d no_results m info). }
  destruct (fold_over_known_bills w2 messages2 d1 Hok2 Hknown no_results)
    as [H1 [H2 [H3 [H4 H5]]]].
  rewrite H1, H2, H3, H4, H5. cbn. repeat split.
Qed.

(** Two runs over the inbox that holds the August statement. *)
Lemma second_run_adds_nothing_witness :
  fst (process_latest_bills Scenarios.august_world ["msg-plain"]
         (fst (process_latest_bills Scenarios.august_world ["msg-plain"]
                 empty_database)))
  = fst (process_latest_bills Scenarios.august_world ["msg-plain"] empty_database)
  /\ processed (snd (process_latest_bills Scenarios.august_world ["msg-plain"]
                        (fst (process_latest_bills Scenarios.august_world
                                ["msg-plain"] empty_database)))) = 0%nat.
Proof.
  destruct (second_run_adds_nothing Scenarios.august_world ["msg-plain"]
              Scenarios.august_world ["msg-plain"] empty_database)
    as [H1 [H2 _]].
  - reflexivity.
  - reflexivity.
  - intros m Hm. split; [exact Hm | reflexivity].
  - split; [exact H1 | exact H2].
Defined.

(** [test_duplicate_detection] over the same inbox, the database raising no
    error: the test passes exactly when at least one message parses, and the
    second run counts as duplicates what the first run processed or found to
    be a duplicate. *)
Theorem test_duplicate_detection_verdict w messages d :
  (forall m, sqlite_raises w m = false) ->
  (snd (test_duplicate_detection w messages w messages d) = true
   <-> exists m, In m messages /\ parses w m = true)
  /\ fst (test_duplicate_detection w messages w messages d)
     = fst (process_latest_bills w messages d)
  /\ duplicates (snd (process_latest_bills w messages
                         (fst (process_latest_bills w messages d))))
     = (processed (snd (process_latest_bills w messages d))
        + duplicates (snd (process_latest_bills w messages d)))%nat
  /\ errors (snd (process_latest_bills w messages
                     (fst (process_latest_bills w messages d))))
     = errors (snd (process_latest_bills w messages d)).
Proof.
  intros Hok.
  destruct (second_run_facts w messages d Hok) as [H1 [H2 [H4 H5]]].
  assert (Hfirst :
    (processed (snd (process_latest_bills w messages d))
     + duplicates (snd (process_latest_bills w messages d)))%nat
    = List.length (filter (parses w) messages)
    /\ errors (snd (process_latest_bills w messages d))
       = List.length (filter (fun m => negb (parses w m)) messages)).
  { rewrite !process_latest_bills_fold.
    apply (fold_counts_by_parsing w messages Hok d no_results). }
  destruct Hfirst as [F1 F2].
  unfold test_duplicate_detection. cbn [fst snd].
  rewrite H1, H2, H4, H5, F1, F2. cbn [Nat.eqb andb].
  split; [|repeat split].
  rewrite Nat.ltb_lt. split.
  - intros Hpos. destruct (filter (parses w) messages) as [|m l] eqn:E;
      [cbn in Hpos; lia|].
    exists m. apply filter_In. rewrite E. now left.
  - intros [m Hm]. apply filter_In in Hm.
    destruct (filter (parses w) messages); [contradiction | cbn; lia].
Qed.

Lemma test_duplicate_detection_verdict_witness :
  snd (test_duplicate_detection Scenarios.august_world ["msg-plain"]
                                Scenarios.august_world ["msg-plain"]
                                empty_database) = true.
Proof.
  apply (proj1 (test_duplicate_detection_verdict Scenarios.august_world
                  ["msg-plain"] empty_database (fun _ => eq_refl))).
  exists "msg-plain". split; [now left | reflexivity].
Defined.

End RunContracts.

(* ===================================================================== *)
(** * Further facts about the pass over new bills *)
(* ===================================================================== *)

Section PassContracts.

Import Settings Sqlite Database Ledger Gmail Processor Automation Runs Passes.

#[local] Open Scope Z_scope.

Lemma update_and_log_other now raises i j set act det d :
  (forall b, id (set b) = id b) -> j <> i ->
  get_bill_by_id j (fst (update_and_log now raises i set act det d))
  = get_bill_by_id j d.
Proof.
  intros Hset Hj. destruct raises; [reflexivity|].
  rewrite update_and_log_reads by exact Hset.
  apply Z.eqb_neq in Hj. now rewrite Hj.
Qed.

Lemma update_and_log_columns {A} (g : bill -> A) now raises i set act det d :
  (forall b, g (set b) = g b) ->
  map g (bills (fst (update_and_log now raises i set act det d))) = map g (bills d).
Proof.
  intros Hg. destruct raises; [reflexivity|].
  rewrite update_and_log_runs. cbn [fst log_insert update_where_id bills].
  rewrite map_map. apply map_ext. intros b.
  destruct (id b =? i); [apply Hg | reflexivity].
Qed.

Lemma update_and_log_other_actions name now raises i set act det d :
  String.eqb act name = false ->
  filter (is_action name)
         (processing_log (fst (update_and_log now raises i set act det d)))
  = filter (is_action name) (processing_log d).
Proof.
  intros Hact. destruct raises; [reflexivity|].
  rewrite update_and_log_runs. cbn [fst log_insert update_where_id processing_log].
  rewrite filter_app. cbn [filter]. unfold is_action at 2. cbn [action].
  rewrite Hact. apply app_nil_r.
Qed.

(** The three ways a pass can leave a bill that had no document. *)
Lemma process_bill_without_document c d ps nb i b :
  nb_bill_id nb = Some i ->
  get_bill_by_id i d = Some b ->
  pdf_generated b = false ->
  process_new_bill c (d, ps) nb = (d, ps)
  \/ exists ch path,
       process_new_bill c (d, ps) nb
       = (fst (mark_pdf_generated (now c) (db_raises c) i (String ch path) d), ps)
       \/ exists url,
            process_new_bill c (d, ps) nb
            = (fst (mark_venmo_sent (now c) (db_raises c) i url
                      (fst (mark_pdf_generated (now c) (db_raises c) i
                                               (String ch path) d))),
               ps ++ [mkProcessedBill i (bill_amount b) (due_date b)
                                      (roommate_portion b) (my_portion b)]).
Proof.
  intros Hi Hb Hgen. unfold process_new_bill. rewrite Hi, Hb, Hgen. cbn [negb].
  destruct (get_email_content (inbox c) (email_id b)) as [[e|]|]; auto.
  destruct (generate_bill_pdf c b (body e)) as [[|ch path]|]; auto.
  right. exists ch, path. unfold email_step. rewrite Hgen, andb_false_r.
  unfold venmo_step.
  destruct (success (process_bill_venmo_request c b (ENABLE_AUTO_OPEN c))); eauto.
Qed.

(** ** Any pass *)

Lemma pass_step_refl d : pass_step d d.
Proof. split; [reflexivity|]. exists []. now rewrite app_nil_r. Qed.

Lemma pass_step_trans d1 d2 d3 : pass_step d1 d2 -> pass_step d2 d3 -> pass_step d1 d3.
Proof.
  intros [K1 [r1 [L1 A1]]] [K2 [r2 [L2 A2]]]. split; [congruence|].
  exists (r1 ++ r2). rewrite L2, L1, app_assoc. split; [reflexivity|].
  now apply Forall_app.
Qed.

Lemma update_and_log_pass_step now raises i set act det d :
  (forall b, kept_by_pass (set b) = kept_by_pass b) ->
  In act ["pdf_generated"; "pdf_sent"; "venmo_sent"] ->
  pass_step d (fst (update_and_log now raises i set act det d)).
Proof.
  intros Hset Hact. split; [now apply update_and_log_columns|].
  destruct raises.
  - exists []. now rewrite app_nil_r.
  - rewrite update_and_log_runs. cbn [fst log_insert update_where_id processing_log].
    eexists. split; [reflexivity|]. constructor; [exact Hact | constructor].
Qed.

Lemma mark_pdf_generated_pass_step now raises i path d :
  pass_step d (fst (mark_pdf_generated now raises i path d)).
Proof. apply update_and_log_pass_step; [reflexivity | cbn; auto]. Qed.

Lemma mark_pdf_sent_pass_step now raises i d :
  pass_step d (fst (mark_pdf_sent now raises i d)).
Proof. apply update_and_log_pass_step; [reflexivity | cbn; auto]. Qed.

Lemma mark_venmo_sent_pass_step now raises i link d :
  pass_step d (fst (mark_venmo_sent now raises i link d)).
Proof. apply update_and_log_pass_step; [reflexivity | cbn; auto]. Qed.

Lemma venmo_step_pass_step c i b d ps :
  pass_step d (fst (venmo_step c i b (d, ps)))
  /\ (List.length (snd (venmo_step c i b (d, ps))) <= S (List.length ps))%nat.
Proof.
  unfold venmo_step.
  destruct (success (process_bill_venmo_request c b (ENABLE_AUTO_OPEN c)));
    cbn [fst snd].
  - split; [apply mark_venmo_sent_pass_step|].
    rewrite length_app. cbn [List.length]. lia.
  - split; [apply pass_step_refl | lia].
Qed.

Lemma email_step_pass_step c i b d ps :
  pass_step d (fst (email_step c i b (d, ps)))
  /\ (List.length (snd (email_step c i b (d, ps))) <= S (List.length ps))%nat.
Proof.
  unfold email_step.
  destruct (negb (pdf_sent b) && pdf_generated b);
    [|apply venmo_step_pass_step].
  destruct (success (process_bill_venmo_request c b false));
    [|apply venmo_step_pass_step].
  destruct (send_bill_notification c b (pdf_path b)
              (process_bill_venmo_request c b false)) as [[|]|].
  - destruct (venmo_step_pass_step c i b
                (fst (mark_pdf_sent (now c) (db_raises c) i d)) ps) as [H1 H2].
    split; [|exact H2].
    eapply pass_step_trans; [apply mark_pdf_sent_pass_step | exact H1].
  - apply venmo_step_pass_step.
  - cbn [fst snd]. split; [apply pass_step_refl | lia].
Qed.

Lemma process_new_bill_pass_step c d ps nb :
  pass_step d (fst (process_new_bill c (d, ps) nb))
  /\ (List.length (snd (process_new_bill c (d, ps) nb)) <= S (List.length ps))%nat.
Proof.
  assert (Hstay : pass_step d d /\ (List.length ps <= S (List.length ps))%nat)
    by (split; [apply pass_step_refl | lia]).
  unfold process_new_bill.
  destruct (nb_bill_id nb) as [i|]; [|exact Hstay].
  destruct (get_bill_by_id i d) as [b|]; [|exact Hstay].
  destruct (negb (pdf_generated b)); [|apply email_step_pass_step].
  destruct (get_email_content (inbox c) (email_id b)) as [[e|]|];
    [|exact Hstay|exact Hstay].
  destruct (generate_bill_pdf c b (body e)) as [[|ch path]|];
    [exact Hstay| |exact Hstay].
  destruct (email_step_pass_step c i b
              (fst (mark_pdf_generated (now c) (db_raises c) i (String ch path) d))
              ps) as [H1 H2].
  split; [|exact H2].
  eapply pass_step_trans; [apply mark_pdf_generated_pass_step | exact H1].
Qed.

(** A pass over any entries, whatever the collaborators do: no bill is added
    or removed; amount, due date, period, portions, mail columns, processing
    date, status and notes of every bill stay as they were; the log gains
    only rows of the actions [pdf_generated], [pdf_sent] and [venmo_sent];
    and the list for the monthly summary has at most one entry for each entry
    handled. *)
Theorem pass_keeps_bills c news d :
  map kept_by_pass (bills (fst (process_new_bills c news d)))
  = map kept_by_pass (bills d)
  /\ (exists rows,
        processing_log (fst (process_new_bills c news d)) = processing_log d ++ rows
        /\ Forall (fun r => In (action r) ["pdf_generated"; "pdf_sent"; "venmo_sent"])
                  rows)
  /\ (List.length (snd (process_new_bills c news d)) <= List.length news)%nat.
Proof.
  unfold process_new_bills.
  assert (H : forall ps d0,
             pass_step d0 (fst (fold_left (process_new_bill c) news (d0, ps)))
             /\ (List.length (snd (fold_left (process_new_bill c) news (d0, ps)))
                 <= List.length ps + List.length news)%nat).
  { induction news as [|nb news IH]; intros ps d0; cbn [fold_left].
    - cbn [fst snd List.length]. split; [apply pass_step_refl | lia].
    - destruct (process_new_bill_pass_step c d0 ps nb) as [H1 H2].
      destruct (process_new_bill c (d0, ps) nb) as [d1 ps1]. cbn [fst snd] in *.
      destruct (IH ps1 d1) as [I1 I2]. split.
      + eapply pass_step_trans; eassumption.
      + cbn [List.length]. lia. }
  destruct (H [] d) as [[K [rows L]] N]. split; [exact K|].
  split; [exists rows; exact L | exact N].
Qed.

(** ** The pass that follows a run *)

Lemma mark_pdf_generated_other now raises i j path d :
  j <> i ->
  get_bill_by_id j (fst (mark_pdf_generated now raises i path d)) = get_bill_by_id j d.
Proof. apply update_and_log_other. reflexivity. Qed.

Lemma mark_venmo_sent_other now raises i j link d :
  j <> i ->
  get_bill_by_id j (fst (mark_venmo_sent now raises i link d)) = get_bill_by_id j d.
Proof. apply update_and_log_other. reflexivity. Qed.

(** One entry of a ready list. *)
Lemma ready_bill_step c d ps nb i :
  nb_bill_id nb = Some i -> recorded_as d nb ->
  exists d' ps',
    process_new_bill c (d, ps) nb = (d', ps')
    /\ (forall j, j <> i -> get_bill_by_id j d' = get_bill_by_id j d)
    /\ map pdf_sent (bills d') = map pdf_sent (bills d)
    /\ filter (is_action "pdf_sent") (processing_log d')
       = filter (is_action "pdf_sent") (processing_log d)
    /\ (ps' = ps
        \/ exists pb, ps' = ps ++ [pb] /\ pb_bill_id pb = i
                      /\ (db_raises c = false -> requested d' pb)).
Proof.
  intros Hi [i0 [b [Hi0 [Hb [[U1 [U2 [U3 [U4 [U5 U6]]]]] [Ha [Hd Hs]]]]]]].
  assert (i0 = i) by congruence. subst i0.
  destruct (process_bill_without_document c d ps nb i b Hi Hb U2)
    as [E|[ch [path [E|[url E]]]]]; rewrite E; eexists _, _; (split; [reflexivity|]).
  - repeat split; auto.
  - split; [intros j Hj; now apply mark_pdf_generated_other|].
    split; [apply update_and_log_columns; reflexivity|].
    split; [apply update_and_log_other_actions; reflexivity | now left].
  - split; [intros j Hj;
            now rewrite mark_venmo_sent_other, mark_pdf_generated_other|].
    split; [unfold mark_venmo_sent, mark_pdf_generated;
            now rewrite !update_and_log_columns|].
    split; [unfold mark_venmo_sent, mark_pdf_generated;
            now rewrite !update_and_log_other_actions|].
    right. eexists. split; [reflexivity|]. split; [reflexivity|].
    intros Hok. rewrite Hok.
    exists (set_venmo_sent url (set_pdf_generated (String ch path) b)).
    cbn [pb_bill_id pb_bill_amount pb_due_date].
    split.
    { unfold mark_venmo_sent, mark_pdf_generated.
      rewrite !update_and_log_reads by reflexivity.
      now rewrite Z.eqb_refl, Hb. }
    cbn. repeat split; try discriminate; assumption.
Qed.

Lemma recorded_as_elsewhere d d' nb i :
  (forall j, j <> i -> get_bill_by_id j d' = get_bill_by_id j d) ->
  nb_bill_id nb <> Some i -> recorded_as d nb -> recorded_as d' nb.
Proof.
  intros Hsame Hnb [j [b [Hj [Hb H]]]]. exists j, b.
  split; [exact Hj|]. split; [|exact H].
  rewrite Hsame; [exact Hb | congruence].
Qed.

Lemma requested_elsewhere d d' pb i :
  (forall j, j <> i -> get_bill_by_id j d' = get_bill_by_id j d) ->
  pb_bill_id pb <> i -> requested d pb -> requested d' pb.
Proof.
  intros Hsame Hpb [b [Hb H]]. exists b. split; [|exact H].
  now rewrite Hsame.
Qed.

Lemma fold_over_ready_bills c news : forall d ps,
  pass_ready news d ->
  (forall pb, In pb ps -> ~ In (Some (pb_bill_id pb)) (map nb_bill_id news)) ->
  map pdf_sent (bills (fst (fold_left (process_new_bill c) news (d, ps))))
  = map pdf_sent (bills d)
  /\ filter (is_action "pdf_sent")
            (processing_log (fst (fold_left (process_new_bill c) news (d, ps))))
     = filter (is_action "pdf_sent") (processing_log d)
  /\ (db_raises c = false -> Forall (requested d) ps ->
      Forall (requested (fst (fold_left (process_new_bill c) news (d, ps))))
             (snd (fold_left (process_new_bill c) news (d, ps)))).
Proof.
  induction news as [|nb news IH]; intros d ps [Hnd Hrec] Hps; cbn [fold_left].
  - cbn [fst snd]. auto.
  - cbn [map] in Hnd. apply NoDup_cons_iff in Hnd. destruct Hnd as [Hnb Hnd].
    apply Forall_cons_iff in Hrec. destruct Hrec as [Hhead Hrec].
    destruct Hhead as [i [b [Hi Hrest]]].
    destruct (ready_bill_step c d ps nb i Hi (ex_intro _ i (ex_intro _ b (conj Hi Hrest))))
      as [d' [ps' [E [Hsame [Hsent [Hlog Hps']]]]]].
    rewrite E.
    assert (Hready : pass_ready news d').
    { split; [exact Hnd|]. rewrite Forall_forall in *. intros nb' Hin.
      apply (recorded_as_elsewhere d d' nb' i Hsame); [|now apply Hrec].
      intros Heq. apply Hnb. rewrite Hi, <- Heq. now apply in_map. }
    assert (Hps_new : forall pb, In pb ps' ->
              ~ In (Some (pb_bill_id pb)) (map nb_bill_id news)).
    { intros pb Hin. destruct Hps' as [->|[pb' [-> [Hid _]]]].
      - intros Hbad. apply (Hps pb Hin). now right.
      - apply in_app_or in Hin. destruct Hin as [Hin|[<-|[]]].
        + intros Hbad. apply (Hps pb Hin). now right.
        + rewrite Hid, <- Hi. exact Hnb. }
    destruct (IH d' ps' Hready Hps_new) as [I1 [I2 I3]].
    split; [congruence|]. split; [congruence|].
    intros Hok Hreq. apply I3; [exact Hok|].
    assert (Hold : Forall (requested d') ps).
    { rewrite Forall_forall in *. intros pb Hin.
      apply (requested_elsewhere d d' pb i Hsame); [|now apply Hreq].
      intros Heq. apply (Hps pb Hin). left. now rewrite Hi, Heq. }
    destruct Hps' as [->|[pb [-> [_ Hnew]]]]; [exact Hold|].
    apply Forall_app. split; [exact Hold|]. constructor; [now apply Hnew|constructor].
Qed.

Lemma run_hands_over_ready_bills w messages d :
  pass_ready (new_bills (snd (process_latest_bills w messages d)))
             (fst (process_latest_bills w messages d)).
Proof.
  rewrite process_latest_bills_fold.
  destruct (fold_process_message_invariant w d messages d no_results
              (run_invariant_start d)) as [_ [_ [Hrec Hnd]]].
  split; [exact Hnd | exact Hrec].
Qed.

(** A run followed by its pass never records a notification: whatever the
    mailbox, the database and the collaborators do, the pass sets the
    [pdf_sent] flag of no bill and writes no [pdf_sent] log row. *)
Theorem monthly_run_records_no_notice w messages c d :
  map pdf_sent
      (bills (fst (process_new_bills c
                     (new_bills (snd (process_latest_bills w messages d)))
                     (fst (process_latest_bills w messages d)))))
  = map pdf_sent (bills (fst (process_latest_bills w messages d)))
  /\ filter (is_action "pdf_sent")
            (processing_log
               (fst (process_new_bills c
                       (new_bills (snd (process_latest_bills w messages d)))
                       (fst (process_latest_bills w messages d)))))
     = filter (is_action "pdf_sent")
              (processing_log (fst (process_latest_bills w messages d))).
Proof.
  unfold process_new_bills.
  destruct (fold_over_ready_bills c
              (new_bills (snd (process_latest_bills w messages d)))
              (fst (process_latest_bills w messages d)) []
              (run_hands_over_ready_bills w messages d))
    as [H1 [H2 _]]; [intros pb []|].
  split; [exact H1 | exact H2].
Qed.

(** The entries a pass over a ready list adds carry ids of that list. *)
Lemma fold_over_ready_bills_ids c news : forall d ps,
  pass_ready news d ->
  forall pb, In pb (snd (fold_left (process_new_bill c) news (d, ps))) ->
             In pb ps \/ In (Some (pb_bill_id pb)) (map nb_bill_id news).
Proof.
  induction news as [|nb news IH]; intros d ps [Hnd Hrec] pb; cbn [fold_left].
  - cbn [snd]. auto.
  - cbn [map] in Hnd. apply NoDup_cons_iff in Hnd. destruct Hnd as [Hnb Hnd].
    apply Forall_cons_iff in Hrec. destruct Hrec as [Hhead Hrec].
    destruct Hhead as [i [b [Hi Hrest]]].
    destruct (ready_bill_step c d ps nb i Hi (ex_intro _ i (ex_intro _ b (conj Hi Hrest))))
      as [d' [ps' [E [Hsame [_ [_ Hps']]]]]].
    rewrite E.
    assert (Hready : pass_ready news d').
    { split; [exact Hnd|]. rewrite Forall_forall in *. intros nb' Hin.
      apply (recorded_as_elsewhere d d' nb' i Hsame); [|now apply Hrec].
      intros Heq. apply Hnb. rewrite Hi, <- Heq. now apply in_map. }
    intros Hin. destruct (IH d' ps' Hready pb Hin) as [Hold|Hlater].
    + destruct Hps' as [->|[pb' [-> [Hid _]]]]; [now left|].
      apply in_app_or in Hold. destruct Hold as [Hold|[<-|[]]]; [now left|].
      right. left. now rewrite Hid, Hi.
    + right. now right.
Qed.

(** The ids a run reports were not on file before the run. *)
Lemma fold_reports_new_ids w d0 messages : forall d r,
  (forall j b, get_bill_by_id j d0 = Some b -> get_bill_by_id j d = Some b) ->
  (forall nb i, In nb (new_bills r) -> nb_bill_id nb = Some i ->
                get_bill_by_id i d0 = None) ->
  forall nb i,
    In nb (new_bills (snd (fold_left (process_message w) messages (d, r)))) ->
    nb_bill_id nb = Some i -> get_bill_by_id i d0 = None.
Proof.
  induction messages as [|m messages IH]; intros d r Hkeep Hnew; cbn [fold_left];
    [exact Hnew|].
  assert (Hstep :
    (forall j b, get_bill_by_id j d0 = Some b ->
                 get_bill_by_id j (fst (process_message w (d, r) m)) = Some b)
    /\ (forall nb i, In nb (new_bills (snd (process_message w (d, r) m))) ->
                     nb_bill_id nb = Some i -> get_bill_by_id i d0 = None)).
  { unfold process_message.
    destruct (parse_pge_bill (mailbox w) m) as [[info|]|];
      [|split; assumption|split; assumption].
    destruct (sqlite_raises w m); [split; assumption|].
    destruct (find (same_key (amount info) (info_due_date info)) (bills d)) eqn:E.
    { rewrite (add_bill_duplicate _ _ _ _ E). split; assumption. }
    pose proof (add_bill_keeps_lookups (clock w m) false info d) as Hlater.
    pose proof (next_rowid_not_stored d) as Hfresh.
    rewrite (add_bill_new _ _ _ E) in *. cbn [fst snd] in *. split.
    - intros j b Hj. apply Hlater. now apply Hkeep.
    - cbn [new_bills count_processed]. intros nb i Hin Hi.
      apply in_app_or in Hin. destruct Hin as [Hin|[<-|[]]];
        [now apply (Hnew nb)|].
      cbn [nb_bill_id] in Hi. injection Hi as <-.
      destruct (get_bill_by_id _ d0) as [b|] eqn:Eb; [|reflexivity].
      apply Hkeep in Eb. congruence. }
  destruct Hstep as [Hkeep' Hnew'].
  destruct (process_message w (d, r) m) as [d' r']. now apply IH.
Qed.

Lemma run_reports_new_ids w messages d nb i :
  In nb (new_bills (snd (process_latest_bills w messages d))) ->
  nb_bill_id nb = Some i -> get_bill_by_id i d = None.
Proof.
  rewrite process_latest_bills_fold.
  apply fold_reports_new_ids; [auto | intros ? ? []].
Qed.

(** The list handed to the monthly summary, when the database raises no
    error during the pass.  Every entry names a bill added in this run: its
    id is one the run reports in [new_bills], and no bill had that id before
    the run.  The document and the payment request of that bill are
    recorded, its notification is not, and it is still pending, with the
    amount and the due date the entry carries. *)
Theorem monthly_summary_lists_requested_bills w messages c d :
  db_raises c = false ->
  Forall (fun pb =>
            In (Some (pb_bill_id pb))
               (map nb_bill_id (new_bills (snd (process_latest_bills w messages d))))
            /\ get_bill_by_id (pb_bill_id pb) d = None
            /\ requested
                 (fst (process_new_bills c
                         (new_bills (snd (process_latest_bills w messages d)))
                         (fst (process_latest_bills w messages d))))
                 pb)
         (snd (process_new_bills c
                 (new_bills (snd (process_latest_bills w messages d)))
                 (fst (process_latest_bills w messages d)))).
Proof.
  intros Hok. unfold process_new_bills.
  destruct (fold_over_ready_bills c
              (new_bills (snd (process_latest_bills w messages d)))
              (fst (process_latest_bills w messages d)) []
              (run_hands_over_ready_bills w messages d))
    as [_ [_ H3]]; [intros pb []|].
  specialize (H3 Hok (Forall_nil _)).
  apply Forall_forall. intros pb Hpb.
  assert (Hlisted : In (Some (pb_bill_id pb))
                       (map nb_bill_id
                          (new_bills (snd (process_latest_bills w messages d))))).
  { destruct (fold_over_ready_bills_ids c _ _ []
                (run_hands_over_ready_bills w messages d) pb Hpb) as [[]|H].
    exact H. }
  split; [exact Hlisted|]. split.
  - apply in_map_iff in Hlisted. destruct Hlisted as [nb [Hid Hnb]].
    now apply (run_reports_new_ids w messages d nb).
  - rewrite Forall_forall in H3. now apply H3.
Qed.

(** The pass after the run over the August statement, on a new database:
    the one entry of the summary is bill 1, which the run added. *)
Lemma monthly_summary_lists_requested_bills_witness :
  map pb_bill_id (snd Scenarios.august_pass) = [1%Z]
  /\ Forall (fun pb =>
               In (Some (pb_bill_id pb))
                  (map nb_bill_id (new_bills (snd Scenarios.august_run)))
               /\ get_bill_by_id (pb_bill_id pb) empty_database = None
               /\ requested (fst Scenarios.august_pass) pb)
            (snd Scenarios.august_pass).
Proof.
  split; [reflexivity|].
  exact (monthly_summary_lists_requested_bills Scenarios.august_world
           ["msg-plain"] Scenarios.willing empty_database eq_refl).
Defined.

(** ** A bill that already has its document *)

(** A pass over a bill whose document exists, with a working database and a
    payment request that succeeds.  If the notification is still due and
    goes out, both the notification and the payment request are recorded.  If
    the notification was recorded before, the payment request is issued and
    recorded all the same, also when one was recorded before: one more
    [venmo_sent] row, one more entry for the monthly summary. *)
Theorem pass_over_bill_with_document c d ps nb i b :
  nb_bill_id nb = Some i ->
  get_bill_by_id i d = Some b ->
  pdf_generated b = true ->
  success (process_bill_venmo_request c b (ENABLE_AUTO_OPEN c)) = true ->
  db_raises c = false ->
  (pdf_sent b = false ->
   success (process_bill_venmo_request c b false) = true ->
   send_bill_notification c b (pdf_path b) (process_bill_venmo_request c b false)
   = Returned true ->
   get_bill_by_id i (fst (process_new_bill c (d, ps) nb))
   = Some (set_venmo_sent
             (venmo_url (process_bill_venmo_request c b (ENABLE_AUTO_OPEN c)))
             (set_pdf_sent b))
   /\ map action (skipn (List.length (processing_log d))
                        (processing_log (fst (process_new_bill c (d, ps) nb))))
      = ["pdf_sent"; "venmo_sent"])
  /\ (pdf_sent b = true ->
      get_bill_by_id i (fst (process_new_bill c (d, ps) nb))
      = Some (set_venmo_sent
                (venmo_url (process_bill_venmo_request c b (ENABLE_AUTO_OPEN c)))
                b)
      /\ map action (skipn (List.length (processing_log d))
                           (processing_log (fst (process_new_bill c (d, ps) nb))))
         = ["venmo_sent"]
      /\ snd (process_new_bill c (d, ps) nb)
         = ps ++ [mkProcessedBill i (bill_amount b) (due_date b)
                                  (roommate_portion b) (my_portion b)]).
Proof.
  intros Hi Hb Hgen Hvenmo Hok.
  assert (Hskip : forall (l : list log_row) rows,
             skipn (List.length l) (l ++ rows) = rows).
  { intros l rows. induction l; cbn; auto. }
  split.
  - intros Hsent Hmail Hnote.
    unfold process_new_bill. rewrite Hi, Hb, Hgen. cbn [negb].
    unfold email_step. rewrite Hsent, Hgen, Hmail, Hnote. cbn [negb andb].
    unfold venmo_step. rewrite Hvenmo, Hok. cbn [fst].
    unfold mark_venmo_sent, mark_pdf_sent. split.
    + rewrite !update_and_log_reads by reflexivity.
      now rewrite Z.eqb_refl, Hb.
    + rewrite !update_and_log_runs.
      cbn [fst log_insert update_where_id processing_log].
      rewrite <- app_assoc, Hskip. reflexivity.
  - intros Hsent.
    unfold process_new_bill. rewrite Hi, Hb, Hgen. cbn [negb].
    unfold email_step. rewrite Hsent. cbn [negb andb].
    unfold venmo_step. rewrite Hvenmo, Hok. cbn [fst snd].
    unfold mark_venmo_sent. split; [|split; [|reflexivity]].
    + rewrite update_and_log_reads by reflexivity.
      now rewrite Z.eqb_refl, Hb.
    + rewrite update_and_log_runs.
      cbn [fst log_insert update_where_id processing_log].
      rewrite Hskip. reflexivity.
Qed.

(** A second pass over the bill of August, after the pass of its run. *)
Lemma pass_over_bill_with_document_witness :
  get_bill_by_id 1
    (fst (process_new_bill Scenarios.willing (fst Scenarios.august_pass, [])
                           (mkNewBill (Some 1) 28815 "08/08/2025"
                                      (Times 28815 ROOMMATE_SPLIT_RATIO)
                                      "Your PG&E statement")))
  = Some (set_venmo_sent "venmo://paycharge?txn=charge"
            (set_pdf_sent
               (set_venmo_sent "venmo://paycharge?txn=charge"
                  (set_pdf_generated "data/pdfs/08-08-2025-pge-bill.pdf"
                     (new_bill_row 100 1 Scenarios.august_plain))))).
Proof.
  apply (proj1 (pass_over_bill_with_document Scenarios.willing
                  (fst Scenarios.august_pass) []
                  (mkNewBill (Some 1) 28815 "08/08/2025"
                             (Times 28815 ROOMMATE_SPLIT_RATIO) "Your PG&E statement")
                  1
                  (set_venmo_sent "venmo://paycharge?txn=charge"
                     (set_pdf_generated "data/pdfs/08-08-2025-pge-bill.pdf"
                        (new_bill_row 100 1 Scenarios.august_plain)))
                  eq_refl eq_refl eq_refl eq_refl eq_refl));
    reflexivity.
Defined.

End PassContracts.

(* ===================================================================== *)
(** * Further facts about the extractor *)
(* ===================================================================== *)

Section TokenFacts.

Import Patterns Tokens.

Ltac each_ascii c :=
  destruct c as [[] [] [] [] [] [] [] []].

Lemma slash_only c : atom_matches (Lit "/") c = true -> c = "/"%char.
Proof. each_ascii c; vm_compute; intros H; (reflexivity || discriminate H). Qed.

Lemma greedy_run a s : forall lo hi t r,
  In (t, r) (greedy a lo (Some hi) s) ->
  lo <= String.length t <= hi /\ string_forall (atom_matches a) t = true.
Proof.
  assert (Hstop : forall lo hi (u : string) t r,
             In (t, r) (if Nat.eqb lo 0 then [(EmptyString, u)] else []) ->
             lo <= String.length t <= hi
             /\ string_forall (atom_matches a) t = true).
  { intros lo hi u t r H. destruct (Nat.eqb_spec lo 0) as [->|_]; cbn in H.
    - destruct H as [E|[]]. inversion E; subst. cbn. split; [lia | reflexivity].
    - contradiction. }
  induction s as [|c s IH]; intros lo hi t r H; cbn [greedy] in H.
  - eapply Hstop; eassumption.
  - destruct (may_take (Some hi) && atom_matches a c) eqn:E.
    + apply in_app_or in H. destruct H as [H|H]; [|eapply Hstop; eassumption].
      apply in_map_iff in H. destruct H as [[t' r'] [Et H]].
      inversion Et; subst; clear Et. apply IH in H. cbn [fst].
      apply andb_true_iff in E. destruct E as [Ehi Ec].
      destruct hi as [|hi]; [discriminate|]. cbn [string_forall String.length].
      rewrite Ec. cbn in H. split; [lia | apply H].
    + eapply Hstop; eassumption.
Qed.

Lemma two_digits t :
  String.length t = 2 -> string_forall is_digit t = true ->
  exists a b, t = String a (String b EmptyString)
              /\ is_digit a = true /\ is_digit b = true.
Proof.
  destruct t as [|a [|b [|c t]]]; cbn; try discriminate. intros _ H.
  apply andb_true_iff in H. destruct H as [Ha H].
  apply andb_true_iff in H. destruct H as [Hb _]. eauto.
Qed.

Lemma four_digits t :
  String.length t = 4 -> string_forall is_digit t = true ->
  exists a b c e, t = String a (String b (String c (String e EmptyString)))
                  /\ is_digit a = true /\ is_digit b = true
                  /\ is_digit c = true /\ is_digit e = true.
Proof.
  destruct t as [|a [|b [|c [|e [|f t]]]]]; cbn; try discriminate. intros _ H.
  repeat (apply andb_true_iff in H; destruct H as [? H]).
  exists a, b, c, e. auto.
Qed.

Lemma exact_digits n s t r :
  In (t, r) (match_item (Many Digit n (Some n)) s) ->
  String.length t = n /\ string_forall is_digit t = true.
Proof.
  intros H. apply greedy_run in H. cbn [atom_matches] in H.
  destruct H as [H1 H2]. split; [lia | exact H2].
Qed.

Lemma one_slash s t r :
  In (t, r) (match_item (One (Lit "/")) s) -> t = "/".
Proof.
  cbn [match_item]. destruct s as [|c s]; [contradiction|].
  destruct (atom_matches (Lit "/") c) eqn:E; [|contradiction].
  intros [H|[]]. inversion H; subst. now rewrite (slash_only c E).
Qed.

Lemma match_seq_step i g s t r :
  In (t, r) (match_seq (i :: g) s) ->
  exists t1 r1 t2,
    In (t1, r1) (match_item i s) /\ In (t2, r) (match_seq g r1)
    /\ t = String.append t1 t2.
Proof.
  cbn [match_seq]. intros H. apply in_flat_map in H.
  destruct H as [[t1 r1] [H1 H2]]. apply in_map_iff in H2.
  destruct H2 as [[t2 r2] [E H2]]. inversion E; subst. cbn [fst snd] in *.
  exists t1, r1, t2. auto.
Qed.

(** A group matched by the date token is a date token. *)
Lemma date_token_shape s t r :
  In (t, r) (match_seq date_token s) -> is_date_token t = true.
Proof.
  unfold date_token. intros H.
  apply match_seq_step in H. destruct H as [t1 [r1 [u1 [H1 [H ->]]]]].
  apply match_seq_step in H. destruct H as [t2 [r2 [u2 [H2 [H ->]]]]].
  apply match_seq_step in H. destruct H as [t3 [r3 [u3 [H3 [H ->]]]]].
  apply match_seq_step in H. destruct H as [t4 [r4 [u4 [H4 [H ->]]]]].
  apply match_seq_step in H. destruct H as [t5 [r5 [u5 [H5 [H ->]]]]].
  cbn [match_seq] in H. destruct H as [E|[]]. inversion E; subst; clear E.
  apply exact_digits in H1. destruct H1 as [L1 D1].
  apply one_slash in H2. subst t2.
  apply exact_digits in H3. destruct H3 as [L3 D3].
  apply one_slash in H4. subst t4.
  apply exact_digits in H5. destruct H5 as [L5 D5].
  destruct (two_digits _ L1 D1) as [a1 [b1 [-> [A1 B1]]]].
  destruct (two_digits _ L3 D3) as [a3 [b3 [-> [A3 B3]]]].
  destruct (four_digits _ L5 D5) as [a5 [b5 [c5 [e5 [-> [A5 [B5 [C5 E5]]]]]]]].
  cbn. now rewrite A1, B1, A3, B3, A5, B5, C5, E5.
Qed.

Lemma match_here_plain i p s gs r :
  In (gs, r) (match_here (Plain i :: p) s) ->
  exists t1 r1, In (t1, r1) (match_item i s) /\ In (gs, r) (match_here p r1).
Proof.
  cbn [match_here]. intros H. apply in_flat_map in H.
  destruct H as [[t1 r1] [H1 H2]]. eauto.
Qed.

Lemma match_here_group g p s gs r :
  In (gs, r) (match_here (Group g :: p) s) ->
  exists t1 r1 gs',
    In (t1, r1) (match_seq g s) /\ In (gs', r) (match_here p r1) /\ gs = t1 :: gs'.
Proof.
  cbn [match_here]. intros H. apply in_flat_map in H.
  destruct H as [[t1 r1] [H1 H2]]. apply in_map_iff in H2.
  destruct H2 as [[gs' r'] [E H2]]. inversion E; subst. cbn [fst snd] in *.
  exists t1, r1, gs'. auto.
Qed.

(** Whatever a pattern matches, the groups that are date tokens in the
    pattern are date tokens in the match. *)
Lemma match_here_date_groups p : forall s gs r,
  Forall (fun g => g = date_token) (groups_of p) ->
  In (gs, r) (match_here p s) ->
  Forall (fun t => is_date_token t = true) gs.
Proof.
  induction p as [|[i|g] p IH]; intros s gs r Hp H.
  - cbn in H. destruct H as [E|[]]. inversion E. constructor.
  - apply match_here_plain in H. destruct H as [t1 [r1 [_ H]]].
    eapply IH; eassumption.
  - apply match_here_group in H. destruct H as [t1 [r1 [gs' [H1 [H2 ->]]]]].
    cbn [groups_of] in Hp. apply Forall_cons_iff in Hp. destruct Hp as [-> Hp].
    constructor; [eapply date_token_shape; eassumption | eapply IH; eassumption].
Qed.

Lemma search_found p : forall s gs,
  search p s = Some gs -> exists s' r, In (gs, r) (match_here p s').
Proof.
  induction s as [|c s IH]; intros gs H; cbn [search] in H.
  - destruct (match_here p EmptyString) as [|[gs' r] ms] eqn:E; [discriminate|].
    inversion H; subst. exists EmptyString, r. rewrite E. now left.
  - destruct (match_here p (String c s)) as [|[gs' r] ms] eqn:E.
    + now apply IH.
    + inversion H; subst. exists (String c s), r. rewrite E. now left.
Qed.

Lemma first_match_date_groups ps text gs :
  Forall (fun p => Forall (fun g => g = date_token) (groups_of p)) ps ->
  first_match ps text = Some gs ->
  Forall (fun t => is_date_token t = true) gs.
Proof.
  intros Hps H. apply first_match_some in H. destruct H as [p [Hp Hs]].
  apply search_found in Hs. destruct Hs as [s' [r Hin]].
  rewrite Forall_forall in Hps.
  eapply match_here_date_groups; [apply Hps; exact Hp | exact Hin].
Qed.

Lemma date_patterns_groups :
  Forall (fun p => Forall (fun g => g = date_token) (groups_of p)) DATE_PATTERNS.
Proof. repeat constructor. Qed.

Lemma period_patterns_groups :
  Forall (fun p => Forall (fun g => g = date_token) (groups_of p)) PERIOD_PATTERNS.
Proof. repeat constructor. Qed.

Lemma extract_due_date_token text d :
  extract_due_date text = Some d -> is_date_token d = true.
Proof.
  unfold extract_due_date.
  destruct (first_match DATE_PATTERNS text) as [gs|] eqn:E; [|discriminate].
  apply (first_match_date_groups _ text _ date_patterns_groups) in E.
  destruct gs as [|g gs]; [discriminate|]. intros H. inversion H; subst.
  now apply Forall_inv in E.
Qed.

Lemma extract_bill_period_tokens text s e :
  extract_bill_period text = Some (s, e) ->
  is_date_token s = true /\ is_date_token e = true.
Proof.
  unfold extract_bill_period.
  destruct (first_match PERIOD_PATTERNS text) as [gs|] eqn:E; [|discriminate].
  apply (first_match_date_groups _ text _ period_patterns_groups) in E.
  destruct gs as [|g1 [|g2 gs]]; try discriminate. intros H. inversion H; subst.
  apply Forall_cons_iff in E. destruct E as [E1 E].
  apply Forall_inv in E. auto.
Qed.

Lemma digits_from_nonneg s : forall acc, (0 <= acc)%Z -> (0 <= digits_from acc s)%Z.
Proof.
  induction s as [|c s IH]; intros acc Hacc; cbn [digits_from]; [exact Hacc|].
  destruct (is_digit c) eqn:E; [|now apply IH]. apply IH.
  unfold is_digit in E. apply andb_true_iff in E. destruct E as [E _].
  apply Nat.leb_le in E. unfold digit_value. lia.
Qed.

Lemma extract_amount_nonneg text a : extract_amount text = Some a -> (0 <= a)%Z.
Proof.
  unfold extract_amount.
  destruct (first_match AMOUNT_PATTERNS text) as [[|g gs]|]; try discriminate.
  intros H. inversion H; subst. apply digits_from_nonneg. lia.
Qed.

(** What [parse_bill_email] returns when it returns: the text itself, an
    amount above zero, a due date of the form dd/dd/dddd and, if a billing
    period was found, two dates of that form. *)
Theorem parsed_fields_are_sound text p :
  parse_bill_email text = inr p ->
  p_raw_text p = text
  /\ (0 < p_amount p)%Z
  /\ extract_amount text = Some (p_amount p)
  /\ is_date_token (p_due_date p) = true
  /\ match p_bill_period p with
     | Some (s, e) => is_date_token s = true /\ is_date_token e = true
     | None => True
     end.
Proof.
  unfold parse_bill_email.
  destruct (extract_amount text) as [a|] eqn:Ea; [|discriminate].
  cbn [truthy_float]. destruct (Z.eqb_spec a 0) as [->|Ha]; [discriminate|].
  cbn [negb]. destruct (extract_due_date text) as [d|] eqn:Ed; [|discriminate].
  destruct (negb (truthy_str (Some d))); [discriminate|].
  intros H. inversion H; subst; clear H. cbn.
  split; [reflexivity|]. split.
  - pose proof (extract_amount_nonneg _ _ Ea). lia.
  - split; [reflexivity|]. split; [now apply (extract_due_date_token text)|].
    destruct (extract_bill_period text) as [[s e]|] eqn:Ep; [|exact I].
    now apply (extract_bill_period_tokens text).
Qed.

Lemma parsed_fields_are_sound_witness :
  parse_bill_email Scenarios.labelled_text
  = inr (mkParsed 12345%Z "01/15/2026" None Scenarios.labelled_text)
  /\ (0 < p_amount (mkParsed 12345%Z "01/15/2026" None Scenarios.labelled_text))%Z
  /\ is_date_token
       (p_due_date (mkParsed 12345%Z "01/15/2026" None Scenarios.labelled_text))
     = true.
Proof.
  destruct (parsed_fields_are_sound Scenarios.labelled_text
              (mkParsed 12345%Z "01/15/2026" None Scenarios.labelled_text)
              eq_refl) as [_ [H2 [_ [H4 _]]]].
  split; [reflexivity|]. split; [exact H2 | exact H4].
Defined.

(** ** Letter case *)

Lemma lower_idempotent c : lower (lower c) = lower c.
Proof. each_ascii c; vm_compute; reflexivity. Qed.

Lemma is_digit_lower c : is_digit (lower c) = is_digit c.
Proof. each_ascii c; vm_compute; reflexivity. Qed.

Lemma is_space_lower c : is_space (lower c) = is_space c.
Proof. each_ascii c; vm_compute; reflexivity. Qed.

Lemma is_colon_lower c : Ascii.eqb (lower c) ":" = Ascii.eqb c ":".
Proof. each_ascii c; vm_compute; reflexivity. Qed.

Lemma lower_digit c : is_digit c = true -> lower c = c.
Proof. each_ascii c; vm_compute; intros H; (reflexivity || discriminate H). Qed.

Lemma atom_matches_lower a c : atom_matches a (lower c) = atom_matches a c.
Proof.
  destruct a; cbn [atom_matches].
  - now rewrite lower_idempotent.
  - apply is_digit_lower.
  - apply is_space_lower.
  - now rewrite is_colon_lower, is_space_lower.
Qed.

Lemma fold_case_append s t :
  fold_case (String.append s t) = String.append (fold_case s) (fold_case t).
Proof. induction s as [|c s IH]; cbn; [reflexivity | now rewrite IH]. Qed.

Lemma greedy_fold_case a s : forall lo hi,
  greedy a lo hi (fold_case s) = map fold_split (greedy a lo hi s).
Proof.
  induction s as [|c s IH]; intros lo hi; cbn [fold_case greedy].
  - now destruct (Nat.eqb lo 0).
  - rewrite atom_matches_lower.
    destruct (may_take hi && atom_matches a c).
    + rewrite IH, map_app, !map_map. f_equal. now destruct (Nat.eqb lo 0).
    + now destruct (Nat.eqb lo 0).
Qed.

Lemma match_item_fold_case i s :
  match_item i (fold_case s) = map fold_split (match_item i s).
Proof.
  destruct i as [a|a lo hi]; cbn [match_item]; [|apply greedy_fold_case].
  destruct s as [|c s]; cbn [fold_case]; [reflexivity|].
  rewrite atom_matches_lower. now destruct (atom_matches a c).
Qed.

Lemma flat_map_of_map {A B C} (f : B -> list C) (g : A -> B) l :
  flat_map f (map g l) = flat_map (fun x => f (g x)) l.
Proof. induction l as [|x l IH]; cbn; [reflexivity | now rewrite IH]. Qed.

Lemma map_of_flat_map {A B C} (h : B -> C) (f : A -> list B) l :
  map h (flat_map f l) = flat_map (fun x => map h (f x)) l.
Proof. induction l as [|x l IH]; cbn; [reflexivity | now rewrite map_app, IH]. Qed.

Lemma match_seq_fold_case g : forall s,
  match_seq g (fold_case s) = map fold_split (match_seq g s).
Proof.
  induction g as [|i g IH]; intros s; cbn [match_seq]; [reflexivity|].
  rewrite match_item_fold_case, flat_map_of_map, map_of_flat_map.
  apply flat_map_ext. intros [t r]. cbn [fold_split fst snd].
  rewrite IH, !map_map. apply map_ext. intros [u v]. unfold fold_split.
  cbn [fst snd]. now rewrite fold_case_append.
Qed.

Lemma match_here_fold_case p : forall s,
  match_here p (fold_case s) = map fold_groups (match_here p s).
Proof.
  induction p as [|[i|g] p IH]; intros s; cbn [match_here]; [reflexivity| |].
  - rewrite match_item_fold_case, flat_map_of_map, map_of_flat_map.
    apply flat_map_ext. intros [t r]. cbn [fold_split fst snd]. apply IH.
  - rewrite match_seq_fold_case, flat_map_of_map, map_of_flat_map.
    apply flat_map_ext. intros [t r]. cbn [fold_split fst snd].
    rewrite IH, !map_map. apply map_ext. intros [gs v]. reflexivity.
Qed.

Lemma search_fold_case p : forall s,
  search p (fold_case s) = option_map (map fold_case) (search p s).
Proof.
  induction s as [|c s IH].
  - pose proof (match_here_fold_case p EmptyString) as E. cbn [fold_case] in *.
    cbn [search]. destruct (match_here p EmptyString) as [|[gs r] ms];
      [reflexivity|].
    unfold fold_groups in E. cbn [map fst snd] in E. injection E as Eg _ _.
    cbn [fst option_map]. f_equal. exact Eg.
  - pose proof (match_here_fold_case p (String c s)) as E.
    cbn [fold_case] in E. cbn [fold_case search]. rewrite E.
    destruct (match_here p (String c s)) as [|[gs r] ms]; cbn [map]; [exact IH|].
    reflexivity.
Qed.

Lemma first_match_fold_case ps text :
  first_match ps (fold_case text)
  = option_map (map fold_case) (first_match ps text).
Proof.
  induction ps as [|p ps IH]; cbn [first_match]; [reflexivity|].
  rewrite search_fold_case. now destruct (search p text).
Qed.

Lemma digits_from_fold_case s : forall acc,
  digits_from acc (fold_case s) = digits_from acc s.
Proof.
  induction s as [|c s IH]; intros acc; cbn [fold_case digits_from]; [reflexivity|].
  rewrite is_digit_lower. destruct (is_digit c) eqn:E; [|apply IH].
  rewrite (lower_digit c E). apply IH.
Qed.

Lemma date_token_fold_case d : is_date_token d = true -> fold_case d = d.
Proof.
  unfold is_date_token.
  destruct d as [|m1 [|m2 [|s1 [|d1 [|d2 [|s2 [|y1 [|y2 [|y3 [|y4 [|x d]]]]]]]]]]];
    try discriminate.
  intros H. do 9 (apply andb_true_iff in H; destruct H as [H ?]).
  repeat match goal with
         | E : Ascii.eqb _ _ = true |- _ => apply Ascii.eqb_eq in E; subst
         end.
  cbn [fold_case].
  rewrite (lower_digit m1), (lower_digit m2), (lower_digit d1), (lower_digit d2),
    (lower_digit y1), (lower_digit y2), (lower_digit y3), (lower_digit y4)
    by assumption.
  reflexivity.
Qed.

Lemma extract_amount_fold_case text :
  extract_amount (fold_case text) = extract_amount text.
Proof.
  unfold extract_amount. rewrite first_match_fold_case.
  destruct (first_match AMOUNT_PATTERNS text) as [[|g gs]|]; cbn; try reflexivity.
  unfold float_of_token. now rewrite digits_from_fold_case.
Qed.

Lemma extract_due_date_fold_case text :
  extract_due_date (fold_case text) = extract_due_date text.
Proof.
  unfold extract_due_date. rewrite first_match_fold_case.
  destruct (first_match DATE_PATTERNS text) as [gs|] eqn:E; [|reflexivity].
  apply (first_match_date_groups _ text _ date_patterns_groups) in E.
  destruct gs as [|g gs]; [reflexivity|]. cbn.
  apply Forall_inv in E. now rewrite date_token_fold_case.
Qed.

Lemma extract_bill_period_fold_case text :
  extract_bill_period (fold_case text) = extract_bill_period text.
Proof.
  unfold extract_bill_period. rewrite first_match_fold_case.
  destruct (first_match PERIOD_PATTERNS text) as [gs|] eqn:E; [|reflexivity].
  apply (first_match_date_groups _ text _ period_patterns_groups) in E.
  destruct gs as [|g1 [|g2 gs]]; try reflexivity. cbn.
  apply Forall_cons_iff in E. destruct E as [E1 E]. apply Forall_inv in E.
  now rewrite !date_token_fold_case.
Qed.

(** Matching ignores the case of letters: two texts that differ only in the
    case of letters A-Z give the same amount, the same due date and the same
    billing period, or fail alike. *)
Theorem extraction_ignores_case text1 text2 :
  fold_case text1 = fold_case text2 ->
  extract_amount text1 = extract_amount text2
  /\ extract_due_date text1 = extract_due_date text2
  /\ extract_bill_period text1 = extract_bill_period text2
  /\ match parse_bill_email text1, parse_bill_email text2 with
     | inl e1, inl e2 => e1 = e2
     | inr p1, inr p2 =>
         p_amount p1 = p_amount p2 /\ p_due_date p1 = p_due_date p2
         /\ p_bill_period p1 = p_bill_period p2
     | _, _ => False
     end.
Proof.
  intros H.
  assert (Ea : extract_amount text1 = extract_amount text2)
    by now rewrite <- (extract_amount_fold_case text1), H, extract_amount_fold_case.
  assert (Ed : extract_due_date text1 = extract_due_date text2)
    by now rewrite <- (extract_due_date_fold_case text1), H,
                   extract_due_date_fold_case.
  assert (Ep : extract_bill_period text1 = extract_bill_period text2)
    by now rewrite <- (extract_bill_period_fold_case text1), H,
                   extract_bill_period_fold_case.
  repeat split; try assumption.
  unfold parse_bill_email. rewrite Ea, Ed, Ep.
  destruct (negb (truthy_float (extract_amount text2))); [reflexivity|].
  destruct (negb (truthy_str (extract_due_date text2))); [reflexivity|].
  destruct (extract_amount text2); [|reflexivity].
  destruct (extract_due_date text2); [|reflexivity].
  cbn. auto.
Qed.

Lemma extraction_ignores_case_witness :
  extract_amount "AMOUNT DUE: $123.45 due date: 01/15/2026"
  = extract_amount Scenarios.labelled_text
  /\ extract_due_date "AMOUNT DUE: $123.45 due date: 01/15/2026"
     = extract_due_date Scenarios.labelled_text.
Proof.
  destruct (extraction_ignores_case "AMOUNT DUE: $123.45 due date: 01/15/2026"
              Scenarios.labelled_text eq_refl) as [H1 [H2 _]].
  split; [exact H1 | exact H2].
Defined.

End TokenFacts.

(* ===================================================================== *)
(** * Facts about _clean_email_content *)
(* ===================================================================== *)

Section CleaningFacts.

Import Patterns Tokens Cleaning.

(** ** strip *)

Lemma lstrip_starts_clean s : starts_clean (lstrip s) = true.
Proof.
  induction s as [|c s IH]; cbn [lstrip]; [reflexivity|].
  destruct (is_space c) eqn:E; [exact IH | cbn; now rewrite E].
Qed.

Lemma lstrip_clean s : starts_clean s = true -> lstrip s = s.
Proof.
  destruct s as [|c s]; cbn; [reflexivity|].
  now destruct (is_space c).
Qed.

Lemma rstrip_starts_clean s : starts_clean s = true -> starts_clean (rstrip s) = true.
Proof.
  destruct s as [|c s]; cbn [rstrip starts_clean]; [reflexivity|].
  intros H. destruct (rstrip s); [|exact H].
  destruct (is_space c) eqn:E; [discriminate H | cbn; now rewrite E].
Qed.

Lemma rstrip_idempotent s : rstrip (rstrip s) = rstrip s.
Proof.
  induction s as [|c s IH]; cbn [rstrip]; [reflexivity|].
  destruct (rstrip s) as [|c' r] eqn:E.
  - destruct (is_space c) eqn:Ec; cbn [rstrip]; [reflexivity | now rewrite Ec].
  - cbn [rstrip] in IH |- *. rewrite IH. reflexivity.
Qed.

Lemma strip_idempotent s : strip (strip s) = strip s.
Proof.
  unfold strip. rewrite (lstrip_clean (rstrip (lstrip s))).
  - apply rstrip_idempotent.
  - apply rstrip_starts_clean, lstrip_starts_clean.
Qed.

Lemma lstrip_keeps f s : string_forall f s = true -> string_forall f (lstrip s) = true.
Proof.
  induction s as [|c s IH]; cbn [lstrip]; [auto|].
  intros H. destruct (is_space c); [|exact H].
  cbn in H. apply andb_true_iff in H. now apply IH.
Qed.

Lemma rstrip_keeps f s : string_forall f s = true -> string_forall f (rstrip s) = true.
Proof.
  induction s as [|c s IH]; cbn [rstrip]; [auto|].
  intros H. cbn in H. apply andb_true_iff in H. destruct H as [Hc Hs].
  specialize (IH Hs). destruct (rstrip s).
  - destruct (is_space c); cbn; [reflexivity | now rewrite Hc].
  - cbn [string_forall] in *. now rewrite Hc, IH.
Qed.

Lemma strip_keeps f s : string_forall f s = true -> string_forall f (strip s) = true.
Proof. intros H. apply rstrip_keeps, lstrip_keeps, H. Qed.

(** ** split and join *)

Lemma split_lines_not_nil s : split_lines s <> [].
Proof.
  destruct s as [|c s]; cbn [split_lines]; [discriminate|].
  destruct (Ascii.eqb c newline); [discriminate|].
  destruct (split_lines s); discriminate.
Qed.

Lemma split_lines_no_newline s : Forall (fun l => no_newline l = true) (split_lines s).
Proof.
  induction s as [|c s IH]; cbn [split_lines].
  - repeat constructor.
  - destruct (Ascii.eqb c newline) eqn:E.
    + constructor; [reflexivity | exact IH].
    + destruct (split_lines s) as [|l ls];
        [constructor; [unfold no_newline; cbn [string_forall]; now rewrite E
                     | constructor]|].
      apply Forall_cons_iff in IH. destruct IH as [Hl Hls].
      constructor; [|exact Hls]. unfold no_newline in *. cbn [string_forall].
      now rewrite E, Hl.
Qed.

Lemma split_lines_line l s :
  no_newline l = true ->
  split_lines (String.append l (String newline s)) = l :: split_lines s.
Proof.
  induction l as [|c l IH]; intros H.
  - cbn [String.append split_lines]. now rewrite Ascii.eqb_refl.
  - unfold no_newline in H. cbn [string_forall] in H. apply andb_true_iff in H.
    destruct H as [Hc Hl]. apply negb_true_iff in Hc.
    cbn [String.append split_lines]. rewrite Hc, (IH Hl). reflexivity.
Qed.

Lemma split_lines_last l : no_newline l = true -> split_lines l = [l].
Proof.
  induction l as [|c l IH]; intros H; [reflexivity|].
  unfold no_newline in H. cbn [string_forall] in H. apply andb_true_iff in H.
  destruct H as [Hc Hl]. apply negb_true_iff in Hc.
  cbn [split_lines]. rewrite Hc, (IH Hl). reflexivity.
Qed.

Lemma split_join lines :
  lines <> [] -> Forall (fun l => no_newline l = true) lines ->
  split_lines (join_lines lines) = lines.
Proof.
  unfold join_lines. induction lines as [|l lines IH]; intros Hne H; [contradiction|].
  apply Forall_cons_iff in H. destruct H as [Hl Hls].
  destruct lines as [|l2 lines].
  - cbn [String.concat]. now apply split_lines_last.
  - assert (E : String.concat (String newline EmptyString) (l :: l2 :: lines)
                 = String.append l
                     (String newline
                        (String.concat (String newline EmptyString) (l2 :: lines))))
      by reflexivity.
    rewrite E, (split_lines_line l _ Hl). f_equal.
    apply IH; [discriminate | exact Hls].
Qed.

(** ** The loop *)

Lemma tail_text_snoc before lines l : tail_text before (lines ++ [l]) = nonempty l.
Proof. unfold tail_text. now rewrite rev_app_distr. Qed.

Lemma tail_text_cons before x lines :
  tail_text before (x :: lines) = tail_text (nonempty x) lines.
Proof.
  unfold tail_text. cbn [rev]. destruct (rev lines); reflexivity.
Qed.

Lemma single_blanks_snoc lines : forall before l,
  single_blanks before (lines ++ [l])
  = single_blanks before lines && (nonempty l || tail_text before lines).
Proof.
  induction lines as [|x lines IH]; intros before l; cbn [app single_blanks].
  - unfold tail_text. cbn. now rewrite andb_true_r.
  - rewrite IH, tail_text_cons, andb_assoc. reflexivity.
Qed.

Lemma keep_line_tidy acc line :
  no_newline line = true -> tidy acc -> tidy (keep_line acc line).
Proof.
  intros Hn [Hs [Hnl Hb]]. unfold keep_line.
  destruct (nonempty (strip line) || ends_with_text acc) eqn:E;
    [|repeat split; assumption].
  repeat split.
  - apply Forall_app. split; [exact Hs|]. repeat constructor. apply strip_idempotent.
  - apply Forall_app. split; [exact Hnl|]. repeat constructor.
    now apply strip_keeps.
  - rewrite single_blanks_snoc, Hb. exact E.
Qed.

Lemma fold_keep_line_tidy lines : forall acc,
  Forall (fun l => no_newline l = true) lines -> tidy acc ->
  tidy (fold_left keep_line lines acc).
Proof.
  induction lines as [|l lines IH]; intros acc H Hacc; cbn [fold_left]; [exact Hacc|].
  apply Forall_cons_iff in H. destruct H as [Hl Hls].
  apply IH; [exact Hls | now apply keep_line_tidy].
Qed.

Lemma cleaned_lines_tidy s : tidy (fold_left keep_line (split_lines s) []).
Proof.
  apply fold_keep_line_tidy; [apply split_lines_no_newline|].
  repeat split; constructor.
Qed.

(** Tidy lines pass through the loop unchanged. *)
Lemma fold_keep_line_fixed lines : forall acc,
  Forall (fun l => strip l = l) lines ->
  single_blanks (tail_text false acc) lines = true ->
  fold_left keep_line lines acc = acc ++ lines.
Proof.
  induction lines as [|l lines IH]; intros acc Hs Hb; cbn [fold_left].
  - now rewrite app_nil_r.
  - apply Forall_cons_iff in Hs. destruct Hs as [Hl Hs].
    cbn [single_blanks] in Hb. apply andb_true_iff in Hb. destruct Hb as [Hk Hb].
    unfold keep_line. rewrite Hl. unfold ends_with_text.
    change (match rev acc with
            | [] => false
            | last_line :: _ => nonempty last_line
            end) with (tail_text false acc).
    rewrite Hk, IH; [now rewrite <- app_assoc | exact Hs |].
    now rewrite tail_text_snoc.
Qed.

Lemma clean_of_tidy h lines :
  tidy lines -> looks_like_html (join_lines lines) = false ->
  _clean_email_content h (join_lines lines) = join_lines lines.
Proof.
  intros [Hs [Hn Hb]] Hhtml. unfold _clean_email_content. rewrite Hhtml.
  destruct lines as [|l lines]; [reflexivity|].
  rewrite split_join by (discriminate || exact Hn).
  now rewrite (fold_keep_line_fixed (l :: lines) [] Hs Hb).
Qed.

(** The text [_clean_email_content] returns, read line by line: no line
    begins or ends with white space, and unless the text is empty it does
    not begin with a blank line and has no two blank lines in a row. *)
Theorem cleaned_text_is_tidy h email_content :
  Forall (fun l => strip l = l) (split_lines (_clean_email_content h email_content))
  /\ (_clean_email_content h email_content = EmptyString
      \/ single_blanks false (split_lines (_clean_email_content h email_content))
         = true).
Proof.
  unfold _clean_email_content.
  set (text := if looks_like_html email_content then h email_content
               else email_content).
  destruct (cleaned_lines_tidy text) as [Hs [Hn Hb]].
  destruct (fold_left keep_line (split_lines text) []) as [|l lines] eqn:E.
  - cbn. split; [repeat constructor | now left].
  - rewrite split_join by (discriminate || exact Hn). split; [exact Hs | now right].
Qed.

(** Cleaning a cleaned text again changes nothing, as long as the cleaned
    text is not taken for HTML. *)
Theorem cleaning_twice_is_cleaning_once h1 h2 email_content :
  looks_like_html (_clean_email_content h1 email_content) = false ->
  _clean_email_content h2 (_clean_email_content h1 email_content)
  = _clean_email_content h1 email_content.
Proof.
  intros H. unfold _clean_email_content at 2 3.
  unfold _clean_email_content in H.
  apply clean_of_tidy; [apply cleaned_lines_tidy | exact H].
Qed.

Lemma cleaning_twice_is_cleaning_once_witness :
  _clean_email_content (fun s => s)
    (_clean_email_content (fun s => s) "  Amount Due:   
 
   
 $288.15 ")
  = _clean_email_content (fun s => s) "  Amount Due:   
 
   
 $288.15 ".
Proof.
  apply (cleaning_twice_is_cleaning_once (fun s => s) (fun s => s)).
  reflexivity.
Defined.

End CleaningFacts.

(* ===================================================================== *)
(** * What reaches the table, and what leaves the pending list *)
(* ===================================================================== *)

Section StoredBills.

Import Patterns Tokens Settings Sqlite Database Ledger Gmail Processor Runs.

#[local] Open Scope Z_scope.

Lemma parse_pge_bill_fields mailbox m info :
  parse_pge_bill mailbox m = Returned (Some info) ->
  0 < amount info /\ is_date_token (info_due_date info) = true
  /\ info_email_id info = m.
Proof.
  unfold parse_pge_bill.
  destruct (get_email_content mailbox m) as [[e|]|]; try discriminate.
  destruct (parse_bill_email (body e)) as [err|p] eqn:E; [discriminate|].
  intros H. inversion H; subst; clear H. cbn [amount info_due_date info_email_id].
  unfold parse_bill_email in E.
  destruct (extract_amount (body e)) as [a|] eqn:Ea; [|discriminate].
  cbn [truthy_float] in E. destruct (Z.eqb_spec a 0) as [->|Ha]; [discriminate|].
  cbn [negb] in E. destruct (extract_due_date (body e)) as [dd|] eqn:Ed;
    [|discriminate].
  destruct (negb (truthy_str (Some dd))); [discriminate|].
  inversion E; subst; clear E. cbn.
  pose proof (extract_amount_nonneg _ _ Ea).
  split; [lia|]. split; [now apply (extract_due_date_token (body e)) | reflexivity].
Qed.

Lemma process_message_sound w d r m :
  Forall sound_bill (bills d) ->
  Forall sound_bill (bills (fst (process_message w (d, r) m))).
Proof.
  intros Hd. unfold process_message.
  destruct (parse_pge_bill (mailbox w) m) as [[info|]|] eqn:Hp;
    [|exact Hd|exact Hd].
  destruct (parse_pge_bill_fields _ _ _ Hp) as [Ha [Hdt _]].
  destruct (sqlite_raises w m); [exact Hd|].
  destruct (find (same_key (amount info) (info_due_date info)) (bills d)) eqn:E.
  - rewrite (add_bill_duplicate _ _ _ _ E). exact Hd.
  - rewrite (add_bill_new _ _ _ E). unfold added.
    cbn [fst log_insert bills_insert bills]. apply Forall_app. split; [exact Hd|].
    constructor; [|constructor]. repeat split; assumption.
Qed.

(** A run stores only what was parsed: if every bill on file has an amount
    above zero, a due date of the form dd/dd/dddd and the two products of its
    amount as portions, the same holds after the run, whatever the mailbox
    held. *)
Theorem run_stores_sound_bills w messages d :
  Forall sound_bill (bills d) ->
  Forall sound_bill (bills (fst (process_latest_bills w messages d))).
Proof.
  intros Hd. rewrite process_latest_bills_fold.
  generalize no_results. revert d Hd.
  induction messages as [|m messages IH]; intros d Hd r; cbn [fold_left];
    [exact Hd|].
  pose proof (process_message_sound w d r m Hd) as H.
  destruct (process_message w (d, r) m) as [d' r']. now apply IH.
Qed.

Lemma run_stores_sound_bills_witness :
  Forall sound_bill (bills (fst Scenarios.august_run)).
Proof.
  apply (run_stores_sound_bills Scenarios.august_world ["msg-plain"] empty_database).
  constructor.
Defined.

(** ** Completing a bill *)

Lemma in_get_bills_by_status st d b :
  In b (get_bills_by_status st d) <-> In b (bills d) /\ status b = st.
Proof.
  unfold get_bills_by_status. split.
  - intros H. apply (Permutation_in _ (order_by_permutation _ _)) in H.
    apply filter_In in H. now rewrite String.eqb_eq in H.
  - intros [H1 H2].
    apply (Permutation_in _ (Permutation_sym (order_by_permutation _ _))).
    apply filter_In. now rewrite String.eqb_eq.
Qed.

(** After [mark_bill_completed] the pending list is the old pending list
    without the bills of that id, and the bill is listed as completed with
    its other columns as they were. *)
Theorem completed_bill_leaves_pending now i new_notes d :
  (forall b,
      In b (get_pending_bills (fst (mark_bill_completed now false i new_notes d)))
      <-> In b (get_pending_bills d) /\ id b <> i)
  /\ (forall b, In b (bills d) -> id b = i ->
                In (set_status "completed" new_notes b)
                   (get_bills_by_status "completed"
                      (fst (mark_bill_completed now false i new_notes d)))).
Proof.
  unfold mark_bill_completed, update_bill_status, get_pending_bills.
  rewrite update_and_log_runs. cbn [fst]. split.
  - intros b. rewrite !in_get_bills_by_status.
    cbn [log_insert update_where_id bills]. rewrite in_map_iff. split.
    + intros [[b0 [E Hin]] Hst]. destruct (Z.eqb_spec (id b0) i) as [Hi|Hi].
      * subst b. cbn in Hst. discriminate.
      * subst b. auto.
    + intros [[Hin Hst] Hi]. split; [|exact Hst]. exists b. split; [|exact Hin].
      apply Z.eqb_neq in Hi. now rewrite Hi.
  - intros b Hin Hi. apply in_get_bills_by_status.
    cbn [log_insert update_where_id bills]. split; [|reflexivity].
    apply in_map_iff. exists b. split; [|exact Hin].
    apply Z.eqb_eq in Hi. now rewrite Hi.
Qed.

(** Completing the bill of August empties the pending list. *)
Lemma completed_bill_leaves_pending_witness :
  (forall b,
      In b (get_pending_bills
              (fst (mark_bill_completed 400 false 1 None Scenarios.august_database)))
      -> id b <> 1)
  /\ In (set_status "completed" None (new_bill_row 100 1 Scenarios.august_plain))
        (get_bills_by_status "completed"
           (fst (mark_bill_completed 400 false 1 None Scenarios.august_database))).
Proof.
  destruct (completed_bill_leaves_pending 400 1 None Scenarios.august_database)
    as [H1 H2].
  split.
  - intros b Hb. apply H1 in Hb. apply Hb.
  - apply H2; [now left | reflexivity].
Defined.

End StoredBills.

(* ===================================================================== *)
(** * Due dates of one year *)
(* ===================================================================== *)

Section OneYear.

Import Patterns Tokens Settings Sqlite Database Calendar.

#[local] Open Scope Z_scope.

Lemma date_token_chars x :
  is_date_token x = true ->
  exists m1 m2 d1 d2 y,
    x = String m1 (String m2 (String "/" (String d1 (String d2 (String "/" y)))))
    /\ is_digit m1 = true /\ is_digit m2 = true
    /\ is_digit d1 = true /\ is_digit d2 = true
    /\ String.length y = 4%nat.
Proof.
  unfold is_date_token.
  destruct x as [|m1 [|m2 [|s1 [|d1 [|d2 [|s2 [|y1 [|y2 [|y3 [|y4 [|z x]]]]]]]]]]];
    try discriminate.
  intros H. do 9 (apply andb_true_iff in H; destruct H as [H ?]).
  repeat match goal with
         | E : Ascii.eqb _ _ = true |- _ => apply Ascii.eqb_eq in E; subst
         end.
  exists m1, m2, d1, d2, (String y1 (String y2 (String y3 (String y4 EmptyString)))).
  repeat split; assumption.
Qed.

Lemma digit_bounds c : is_digit c = true -> 0 <= digit_value c <= 9.
Proof.
  unfold is_digit, digit_value. intros H. apply andb_true_iff in H.
  destruct H as [H1 H2]. apply Nat.leb_le in H1, H2. lia.
Qed.

Lemma ascii_compare_values a b :
  match Ascii.compare a b with
  | Eq => a = b
  | Lt => digit_value a < digit_value b
  | Gt => digit_value b < digit_value a
  end.
Proof.
  unfold Ascii.compare, digit_value, nat_of_ascii.
  destruct (N.compare_spec (N_of_ascii a) (N_of_ascii b)) as [E|E|E].
  - rewrite <- (ascii_N_embedding a), <- (ascii_N_embedding b). now rewrite E.
  - lia.
  - lia.
Qed.

Lemma string_compare_refl s : String.compare s s = Eq.
Proof.
  induction s as [|c s IH]; cbn [String.compare]; [reflexivity|].
  unfold Ascii.compare. now rewrite N.compare_refl.
Qed.

Lemma two_digit_value a b :
  is_digit a = true -> is_digit b = true ->
  digits_from 0 (String a (String b EmptyString)) = 10 * digit_value a + digit_value b.
Proof. intros Ha Hb. cbn [digits_from]. rewrite Ha, Hb. lia. Qed.

(** For two date tokens of the same year, the order of the texts is the
    order of the dates. *)
Lemma same_year_text_order x y :
  is_date_token x = true -> is_date_token y = true ->
  substring 6 4 x = substring 6 4 y ->
  String.leb x y = true -> not_after x y = true.
Proof.
  intros Hx Hy Hyear Hle.
  destruct (date_token_chars x Hx) as [m1 [m2 [d1 [d2 [yx [-> [M1 [M2 [D1 [D2 Lx]]]]]]]]]].
  destruct (date_token_chars y Hy) as [n1 [n2 [e1 [e2 [yy [-> [N1 [N2 [E1 [E2 Ly]]]]]]]]]].
  assert (Eyear : yx = yy).
  { destruct yx as [|a1 [|a2 [|a3 [|a4 [|a5 yx]]]]]; try discriminate.
    destruct yy as [|b1 [|b2 [|b3 [|b4 [|b5 yy]]]]]; try discriminate.
    cbn in Hyear. exact Hyear. }
  subst yy.
  unfold not_after, date_of.
  assert (Sx : forall a b c e (z : string),
             substring 0 2 (String a (String b (String "/" (String c (String e
                            (String "/" z))))))
             = String a (String b EmptyString)
             /\ substring 3 2 (String a (String b (String "/" (String c (String e
                               (String "/" z))))))
                = String c (String e EmptyString)).
  { intros. split; reflexivity. }
  destruct (Sx m1 m2 d1 d2 yx) as [-> ->].
  destruct (Sx n1 n2 e1 e2 yx) as [-> ->].
  rewrite Hyear, !two_digit_value by assumption.
  rewrite Z.ltb_irrefl, Z.eqb_refl. cbn [orb andb].
  pose proof (digit_bounds _ M1). pose proof (digit_bounds _ M2).
  pose proof (digit_bounds _ D1). pose proof (digit_bounds _ D2).
  pose proof (digit_bounds _ N1). pose proof (digit_bounds _ N2).
  pose proof (digit_bounds _ E1). pose proof (digit_bounds _ E2).
  unfold String.leb in Hle. cbn [String.compare] in Hle.
  pose proof (ascii_compare_values m1 n1) as C1.
  pose proof (ascii_compare_values m2 n2) as C2.
  pose proof (ascii_compare_values d1 e1) as C3.
  pose proof (ascii_compare_values d2 e2) as C4.
  assert (Hgoal : forall M N D E : Z,
             M < N \/ (M = N /\ D <= E) ->
             (M <? N) || ((M =? N) && (D <=? E)) = true).
  { intros M N D E [H'|[H' H'']].
    - apply Z.ltb_lt in H'. now rewrite H'.
    - apply Z.eqb_eq in H'. apply Z.leb_le in H''. rewrite H', H''.
      apply orb_true_r. }
  apply Hgoal.
  destruct (Ascii.compare m1 n1); [subst n1| left; lia | discriminate].
  destruct (Ascii.compare m2 n2); [subst n2| left; lia | discriminate].
  change (Ascii.compare "/" "/") with Eq in Hle. cbn iota in Hle.
  destruct (Ascii.compare d1 e1); [subst e1| right; lia | discriminate].
  destruct (Ascii.compare d2 e2); [subst e2| right; lia | discriminate].
  right. lia.
Qed.

Lemma sorted_texts_ascend l :
  Forall (fun b => is_date_token (due_date b) = true) l ->
  (forall b b', In b l -> In b' l ->
                substring 6 4 (due_date b) = substring 6 4 (due_date b')) ->
  Sorted (fun x y => String.leb (due_date x) (due_date y) = true) l ->
  ascending (map due_date l) = true.
Proof.
  induction l as [|b l IH]; intros Ht Hy Hs; [reflexivity|].
  apply Forall_cons_iff in Ht. destruct Ht as [Hb Ht].
  apply Sorted_inv in Hs. destruct Hs as [Hs Hh].
  assert (IHl : ascending (map due_date l) = true).
  { apply IH; [exact Ht | | exact Hs]. intros x y Hx Hy'. apply Hy; now right. }
  destruct l as [|b' l]; [reflexivity|].
  cbn [map ascending] in *. rewrite IHl, andb_true_r.
  apply Forall_inv in Ht. apply HdRel_inv in Hh.
  apply same_year_text_order; try assumption.
  apply Hy; [now left | right; now left].
Qed.

(** When the bills of a status all have due dates of the form dd/dd/dddd in
    one and the same year, [get_bills_by_status] lists them in ascending
    order of the dates. *)
Theorem bills_of_one_year_are_in_date_order st year d :
  (forall b, In b (bills d) -> status b = st ->
             is_date_token (due_date b) = true
             /\ substring 6 4 (due_date b) = year) ->
  ascending (map due_date (get_bills_by_status st d)) = true.
Proof.
  intros H.
  assert (Hin : forall b, In b (get_bills_by_status st d) ->
                          In b (bills d) /\ status b = st).
  { intros b. apply in_get_bills_by_status. }
  apply sorted_texts_ascend.
  - apply Forall_forall. intros b Hb. destruct (Hin b Hb) as [H1 H2].
    now apply H.
  - intros b b' Hb Hb'. destruct (Hin b Hb) as [H1 H2].
    destruct (Hin b' Hb') as [H1' H2'].
    destruct (H b H1 H2) as [_ ->]. destruct (H b' H1' H2') as [_ ->]. reflexivity.
  - apply (order_by_sorted (fun x y => String.leb (due_date x) (due_date y))).
    intros x y. apply string_leb_total.
Qed.

Lemma bills_of_one_year_are_in_date_order_witness :
  ascending
    (map due_date
       (get_bills_by_status "pending"
          (fst (add_bill 200 false Scenarios.august_plain
                  (fst (add_bill 100 false Scenarios.december_bill
                          empty_database))))))
  = true.
Proof.
  apply (bills_of_one_year_are_in_date_order "pending" "2025").
  intros b [<-|[<-|[]]] _; split; reflexivity.
Defined.

End OneYear.

(* ===================================================================== *)
(** * The latest bill *)
(* ===================================================================== *)

Section LatestBill.

Import Patterns Tokens Database Gmail Inbox.

#[local] Open Scope Z_scope.

Lemma parse_pge_bill_none mailbox m :
  parse_pge_bill mailbox m = Returned None <-> gives_no_bill mailbox m.
Proof.
  unfold parse_pge_bill, get_email_content, gives_no_bill.
  destruct (mailbox m) as [e| |].
  - destruct (parse_bill_email (body e)) as [err|p] eqn:E.
    + split; [intros _; right; now exists e, err | reflexivity].
    + split; [discriminate|].
      intros [H|[e' [err [H H']]]]; [discriminate|]. congruence.
  - split; [now left | reflexivity].
  - split; [discriminate|]. intros [H|[e [err [H _]]]]; discriminate.
Qed.

Lemma parse_pge_bill_some mailbox m bill :
  parse_pge_bill mailbox m = Returned (Some bill) <-> gives_bill mailbox m bill.
Proof.
  unfold parse_pge_bill, get_email_content, gives_bill.
  destruct (mailbox m) as [e| |].
  - destruct (parse_bill_email (body e)) as [err|p] eqn:E.
    + split; [discriminate|]. intros [e' [p [H [H' _]]]]. congruence.
    + split.
      * intros H. injection H as <-. now exists e, p.
      * intros [e' [p' [H [H' ->]]]]. congruence.
  - split; [discriminate|]. intros [e [p [H _]]]. discriminate.
  - split; [discriminate|]. intros [e [p [H _]]]. discriminate.
Qed.

Lemma parse_pge_bill_raised mailbox m :
  parse_pge_bill mailbox m = Raised <-> mailbox m = OtherFailure.
Proof.
  unfold parse_pge_bill, get_email_content.
  destruct (mailbox m) as [e| |]; [|split; discriminate|split; reflexivity].
  destruct (parse_bill_email (body e)); split; discriminate.
Qed.

Lemma get_latest_bill_skips mailbox before : forall rest,
  Forall (gives_no_bill mailbox) before ->
  get_latest_bill mailbox (before ++ rest) = get_latest_bill mailbox rest.
Proof.
  induction before as [|m before IH]; intros rest H; [reflexivity|].
  apply Forall_cons_iff in H. destruct H as [Hm H].
  cbn [app get_latest_bill].
  rewrite (proj2 (parse_pge_bill_none mailbox m) Hm). now apply IH.
Qed.

(** Where [get_latest_bill] stops: at the first message that does not give
    no bill, if there is one. *)
Lemma get_latest_bill_stops mailbox messages :
  Forall (gives_no_bill mailbox) messages
  \/ exists before m after,
       messages = before ++ m :: after
       /\ Forall (gives_no_bill mailbox) before
       /\ ~ gives_no_bill mailbox m.
Proof.
  induction messages as [|m messages IH]; [left; constructor|].
  destruct (parse_pge_bill mailbox m) as [[b|]|] eqn:Hp.
  - right. exists [], m, messages. split; [reflexivity|]. split; [constructor|].
    intros H. apply parse_pge_bill_none in H. congruence.
  - apply parse_pge_bill_none in Hp.
    destruct IH as [IH|[before [m' [after [-> [Hb Hm]]]]]].
    + left. now constructor.
    + right. exists (m :: before), m', after.
      split; [reflexivity|]. split; [now constructor | exact Hm].
  - right. exists [], m, messages. split; [reflexivity|]. split; [constructor|].
    intros H. apply parse_pge_bill_none in H. congruence.
Qed.

(** [get_latest_bill] goes through the messages of the search result in
    order.  A message that cannot be fetched because of an [HttpError], or
    whose body does not parse, is passed over.  The call returns the bill of
    the first message that is fetched and parses: the fields parsed from its
    body, its id and its headers, with an amount above zero and a due date
    of the form dd/dd/dddd.  It returns [None] exactly when every message is
    passed over, and it raises exactly when the fetch of the first message
    that is not passed over fails otherwise. *)
Theorem latest_bill_is_first_parsed mailbox messages :
  (forall bill,
      get_latest_bill mailbox messages = Returned (Some bill)
      <-> exists before m after,
            messages = before ++ m :: after
            /\ Forall (gives_no_bill mailbox) before
            /\ gives_bill mailbox m bill)
  /\ (get_latest_bill mailbox messages = Returned None
      <-> Forall (gives_no_bill mailbox) messages)
  /\ (get_latest_bill mailbox messages = Raised
      <-> exists before m after,
            messages = before ++ m :: after
            /\ Forall (gives_no_bill mailbox) before
            /\ mailbox m = OtherFailure)
  /\ (forall bill,
        get_latest_bill mailbox messages = Returned (Some bill) ->
        0 < amount bill /\ is_date_token (info_due_date bill) = true).
Proof.
  assert (Hall : Forall (gives_no_bill mailbox) messages ->
                 get_latest_bill mailbox messages = Returned None).
  { intros H. rewrite <- (app_nil_r messages).
    now rewrite get_latest_bill_skips. }
  assert (Hstop : forall before m after,
             messages = before ++ m :: after ->
             Forall (gives_no_bill mailbox) before ->
             ~ gives_no_bill mailbox m ->
             get_latest_bill mailbox messages
             = match parse_pge_bill mailbox m with
               | Returned None => get_latest_bill mailbox after
               | other => other
               end
             /\ parse_pge_bill mailbox m <> Returned None).
  { intros before m after -> Hb Hm. rewrite get_latest_bill_skips by exact Hb.
    cbn [get_latest_bill].
    split; [now destruct (parse_pge_bill mailbox m) as [[b|]|]|].
    intros H. now apply parse_pge_bill_none in H. }
  assert (Hbill : forall m bill, gives_bill mailbox m bill -> ~ gives_no_bill mailbox m).
  { intros m bill Hg Hn. apply parse_pge_bill_some in Hg.
    apply parse_pge_bill_none in Hn. congruence. }
  assert (Hfail : forall m, mailbox m = OtherFailure -> ~ gives_no_bill mailbox m).
  { intros m Hg Hn. apply parse_pge_bill_raised in Hg.
    apply parse_pge_bill_none in Hn. congruence. }
  split; [|split; [|split]].
  - intros bill. split.
    + intros H. destruct (get_latest_bill_stops mailbox messages)
        as [Hnone|[before [m [after [E [Hb Hm]]]]]].
      * rewrite (Hall Hnone) in H. discriminate.
      * destruct (Hstop _ _ _ E Hb Hm) as [Eq Hne]. rewrite Eq in H.
        exists before, m, after. split; [exact E|]. split; [exact Hb|].
        apply parse_pge_bill_some.
        destruct (parse_pge_bill mailbox m) as [[b|]|]; congruence.
    + intros [before [m [after [E [Hb Hg]]]]].
      destruct (Hstop _ _ _ E Hb (Hbill _ _ Hg)) as [Eq _]. rewrite Eq.
      apply parse_pge_bill_some in Hg. now rewrite Hg.
  - split; [|exact Hall].
    intros H. destruct (get_latest_bill_stops mailbox messages)
      as [Hnone|[before [m [after [E [Hb Hm]]]]]]; [exact Hnone|].
    destruct (Hstop _ _ _ E Hb Hm) as [Eq Hne]. rewrite Eq in H.
    destruct (parse_pge_bill mailbox m) as [[b|]|]; congruence.
  - split.
    + intros H. destruct (get_latest_bill_stops mailbox messages)
        as [Hnone|[before [m [after [E [Hb Hm]]]]]].
      * rewrite (Hall Hnone) in H. discriminate.
      * destruct (Hstop _ _ _ E Hb Hm) as [Eq Hne]. rewrite Eq in H.
        exists before, m, after. split; [exact E|]. split; [exact Hb|].
        apply parse_pge_bill_raised.
        destruct (parse_pge_bill mailbox m) as [[b|]|]; congruence.
    + intros [before [m [after [E [Hb Hg]]]]].
      destruct (Hstop _ _ _ E Hb (Hfail _ Hg)) as [Eq _]. rewrite Eq.
      apply parse_pge_bill_raised in Hg. now rewrite Hg.
  - intros bill. clear Hall Hstop.
    induction messages as [|m messages IH]; cbn [get_latest_bill];
      [discriminate|].
    destruct (parse_pge_bill mailbox m) as [[b|]|] eqn:Hp; [| |discriminate].
    + intros H. inversion H; subst.
      destruct (parse_pge_bill_fields _ _ _ Hp) as [H1 [H2 _]]. auto.
    + apply IH.
Qed.

(** An inbox of three messages: the fetch of the first ends in an
    [HttpError], the second is an outage notice that does not parse, the
    third is the August statement.  The first two are passed over and the
    bill of the third is returned. *)
Lemma latest_bill_is_first_parsed_witness :
  Scenarios.three_messages "msg-gone" = HttpError
  /\ gives_no_bill Scenarios.three_messages "msg-notice"
  /\ get_latest_bill Scenarios.three_messages ["msg-gone"; "msg-notice"; "msg-plain"]
     = Returned (Some Scenarios.august_plain).
Proof.
  assert (Hnotice : gives_no_bill Scenarios.three_messages "msg-notice").
  { right. eexists _, _. split; reflexivity. }
  split; [reflexivity|]. split; [exact Hnotice|].
  apply (proj1 (latest_bill_is_first_parsed _ _)).
  exists ["msg-gone"; "msg-notice"], "msg-plain", [].
  split; [reflexivity|]. split.
  - constructor; [now left|]. constructor; [exact Hnotice | constructor].
  - eexists _, _. split; [reflexivity|]. split; reflexivity.
Defined.

End LatestBill.

(* ===================================================================== *)
(** * The two portions of a bill *)
(* ===================================================================== *)

Section Rounding.

Import Binary64.

#[local] Open Scope Z_scope.


Lemma digits2_pos_bounds p :
  2 ^ (Z.pos (digits2_pos p) - 1) <= Z.pos p < 2 ^ Z.pos (digits2_pos p).
Proof.
  induction p as [p IH|p IH|]; cbn [digits2_pos].
  - rewrite Pos2Z.inj_succ. change (Z.pos p~1) with (2 * Z.pos p + 1).
    replace (Z.succ (Z.pos (digits2_pos p)) - 1)
      with (Z.succ (Z.pos (digits2_pos p) - 1)) by lia.
    rewrite !Z.pow_succ_r by lia.
    revert IH. generalize (2 ^ (Z.pos (digits2_pos p) - 1)) (2 ^ Z.pos (digits2_pos p)).
    intros; lia.
  - rewrite Pos2Z.inj_succ. change (Z.pos p~0) with (2 * Z.pos p).
    replace (Z.succ (Z.pos (digits2_pos p)) - 1)
      with (Z.succ (Z.pos (digits2_pos p) - 1)) by lia.
    rewrite !Z.pow_succ_r by lia.
    revert IH. generalize (2 ^ (Z.pos (digits2_pos p) - 1)) (2 ^ Z.pos (digits2_pos p)).
    intros; lia.
  - cbn. lia.
Qed.

Lemma Zdigits2_bounds q :
  0 <= q ->
  0 <= Zdigits2 q /\ q < 2 ^ Zdigits2 q /\ (0 < q -> 2 ^ (Zdigits2 q - 1) <= q).
Proof.
  intros Hq. destruct q as [|p|p]; [cbn; lia| |lia].
  cbn [Zdigits2]. pose proof (digits2_pos_bounds p). lia.
Qed.

Lemma shr_1_located N P mrs :
  located N P mrs -> located N (2 * P) (shr_1 mrs).
Proof.
  unfold located. destruct mrs as [m r s]. cbn [shr_m shr_r shr_s].
  intros [Hm [Hrest [H1 [H2 [H3 H4]]]]].
  destruct m as [|p|p]; [|destruct p as [p|p|]|lia];
    destruct r, s; cbn [shr_1 shr_m shr_r shr_s orb];
    repeat split; try discriminate; intros;
    try (specialize (H1 eq_refl)); try (specialize (H2 eq_refl));
    try (specialize (H3 eq_refl eq_refl)); try (specialize (H4 eq_refl eq_refl));
    try lia.
Qed.

Lemma iter_shr_1_located n : forall N P mrs,
  located N P mrs -> located N (2 ^ Z.pos n * P) (iter_pos shr_1 n mrs).
Proof.
  induction n as [n IH|n IH|]; intros N P mrs H; cbn [iter_pos].
  - replace (2 ^ Z.pos n~1 * P) with (2 ^ Z.pos n * (2 ^ Z.pos n * (2 * P))).
    + apply IH, IH. now apply shr_1_located.
    + replace (Z.pos n~1) with (Z.pos n + Z.pos n + 1) by lia.
      rewrite !Z.pow_add_r by lia. change (2 ^ 1) with 2. ring.
  - replace (2 ^ Z.pos n~0 * P) with (2 ^ Z.pos n * (2 ^ Z.pos n * P)).
    + now apply IH, IH.
    + replace (Z.pos n~0) with (Z.pos n + Z.pos n) by lia.
      rewrite !Z.pow_add_r by lia. ring.
  - change (2 ^ 1) with 2. now apply shr_1_located.
Qed.

(** [shr]: the exponent grows by the number of places, and the record still
    stands for the same number. *)
Lemma shr_located N P mrs e n :
  located N P mrs ->
  snd (shr mrs e n) = e + Z.max n 0
  /\ located N (2 ^ Z.max n 0 * P) (fst (shr mrs e n))
  /\ (n <= 0 -> fst (shr mrs e n) = mrs).
Proof.
  intros H. destruct n as [|p|p]; cbn [shr fst snd].
  - split; [lia|]. change (2 ^ Z.max 0 0) with 1. now rewrite Z.mul_1_l.
  - rewrite Z.max_l by lia. split; [reflexivity|].
    split; [now apply iter_shr_1_located | lia].
  - rewrite Z.max_r by lia. split; [lia|]. change (2 ^ 0) with 1.
    now rewrite Z.mul_1_l.
Qed.

Lemma round_nearest_even_located N P mrs :
  located N P mrs ->
  let m := round_nearest_even (shr_m mrs) (loc_of_shr_record mrs) in
  shr_m mrs <= m <= shr_m mrs + 1
  /\ 2 * Z.abs (m * P - N) <= P
  /\ (shr_r mrs = false -> shr_s mrs = false -> m * P = N).
Proof.
  unfold located. destruct mrs as [m r s]. cbn [shr_m shr_r shr_s].
  intros [Hm [Hrest [H1 [H2 [H3 H4]]]]].
  destruct r, s; cbn [loc_of_shr_record round_nearest_even];
    try (specialize (H1 eq_refl)); try (specialize (H2 eq_refl));
    try (specialize (H3 eq_refl eq_refl)); try (specialize (H4 eq_refl eq_refl));
    try destruct (Z.even m);
    (split; [lia|]); (split; [lia|]); intros; try discriminate; lia.
Qed.


Lemma shr_record_of_loc_m q loc : shr_m (shr_record_of_loc q loc) = q.
Proof. destruct loc as [|[| |]]; reflexivity. Qed.

(** The second normalisation of [binary_round_aux] loses nothing: the
    rounded mantissa has at most one binary place too many, and then it is
    a power of two. *)
Lemma shr_fexp_exact m e :
  0 <= m <= 2 ^ 53 -> -1074 <= e ->
  exists m' e',
    shr_m (fst (shr_fexp prec emax m e loc_Exact)) = m'
    /\ snd (shr_fexp prec emax m e loc_Exact) = e'
    /\ 0 <= m' /\ e <= e'
    /\ m' * 2 ^ (e' - e) = m
    /\ (m < 2 ^ 53 -> e' = e /\ m' = m).
Proof.
  intros Hm He. unfold shr_fexp. cbn [shr_record_of_loc].
  destruct (Zdigits2_bounds m (proj1 Hm)) as [Hd0 [Hd1 Hd2]].
  set (d := Zdigits2 m) in *.
  assert (Hd : d <= 54).
  { destruct (Z.le_gt_cases d 54) as [H|H]; [exact H|].
    assert (0 < m) by (destruct (Z.eq_dec m 0) as [->|]; [cbn in d; lia | lia]).
    pose proof (Z.pow_le_mono_r 2 54 (d - 1) ltac:(lia) ltac:(lia)).
    specialize (Hd2 ltac:(lia)). change (2 ^ 54) with (2 * 2 ^ 53) in *. lia. }
  assert (Hsmall : m < 2 ^ 53 -> d <= 53).
  { intros Hlt. destruct (Z.le_gt_cases d 53) as [H|H]; [exact H|].
    assert (0 < m) by (destruct (Z.eq_dec m 0) as [->|]; [cbn in d; lia | lia]).
    pose proof (Z.pow_le_mono_r 2 53 (d - 1) ltac:(lia) ltac:(lia)).
    specialize (Hd2 ltac:(lia)). lia. }
  unfold fexp, emin, prec, emax.
  destruct (Z.max (d + e - 53) (3 - 1024 - 53) - e) as [|p|p] eqn:En;
    cbn [shr fst snd shr_m].
  - exists m, e. rewrite Z.sub_diag. change (2 ^ 0) with 1.
    repeat split; lia.
  - assert (Hp : Z.pos p = 1) by lia.
    assert (Hd54 : d = 54) by lia.
    assert (Em : m = 2 ^ 53).
    { destruct (Z.eq_dec m (2 ^ 53)) as [H|H]; [exact H|].
      assert (m < 2 ^ 53) by lia. specialize (Hsmall H0). lia. }
    injection Hp as ->. subst m. cbn [iter_pos].
    exists (2 ^ 52), (e + 1).
    replace (e + 1 - e) with 1 by lia.
    repeat split; try reflexivity; try lia.
  - exists m, e. rewrite Z.sub_diag. change (2 ^ 0) with 1.
    repeat split; lia.
Qed.

Lemma binary_round_result sx m e :
  0 <= m ->
  match m with
  | Z0 => S754_zero sx
  | Zpos p => if e <=? emax - prec then S754_finite sx p e else S754_infinity sx
  | Zneg _ => S754_nan
  end
  = if m =? 0 then S754_zero sx
    else if e <=? emax - prec then S754_finite sx (Z.to_pos m) e
    else S754_infinity sx.
Proof. intros H. destruct m as [|p|p]; [reflexivity | reflexivity | lia]. Qed.

Lemma binary_round_aux_steps sx q E loc :
  binary_round_aux prec emax sx q E loc
  = let first := shr_fexp prec emax q E loc in
    let rounded :=
      round_nearest_even (shr_m (fst first)) (loc_of_shr_record (fst first)) in
    let second := shr_fexp prec emax rounded (snd first) loc_Exact in
    match shr_m (fst second) with
    | Z0 => S754_zero sx
    | Zpos p =>
        if snd second <=? emax - prec then S754_finite sx p (snd second)
        else S754_infinity sx
    | Zneg _ => S754_nan
    end.
Proof.
  unfold binary_round_aux. destruct (shr_fexp prec emax q E loc) as [mrs e].
  cbn [fst snd].
  destruct (shr_fexp prec emax _ e loc_Exact) as [mrs' e']. reflexivity.
Qed.

(** What [binary_round_aux] returns for a number N / D * 2^E given by its
    integer part [q] and the place of the rest [loc]: a mantissa and an
    exponent within half a unit in the last place of the number, and
    within 2^-53 of it in proportion unless the exponent is the least one. *)
Lemma binary_round_aux_spec sx q E loc N D :
  0 < D ->
  located N D (shr_record_of_loc q loc) ->
  loc = loc_Exact \/ 2 ^ 52 <= q ->
  exists m e,
    binary_round_aux prec emax sx q E loc
    = (if m =? 0 then S754_zero sx
       else if e <=? emax - prec then S754_finite sx (Z.to_pos m) e
       else S754_infinity sx)
    /\ 0 <= m /\ E <= e /\ -1074 <= e
    /\ 2 * Z.abs (m * (2 ^ (e - E) * D) - N) <= 2 ^ (e - E) * D
    /\ (e = -1074 \/ 2 ^ 53 * Z.abs (m * (2 ^ (e - E) * D) - N) <= N).
Proof.
  intros HD Hq Hbig.
  assert (Hq0 : 0 <= q /\ 0 <= N - q * D < D).
  { destruct Hq as [H1 [H2 _]]. rewrite shr_record_of_loc_m in *. lia. }
  destruct (Zdigits2_bounds q (proj1 Hq0)) as [Hd0 [Hd1 Hd2]].
  rewrite binary_round_aux_steps. cbv zeta.
  change (shr_fexp prec emax q E loc)
    with (shr (shr_record_of_loc q loc) E (fexp prec emax (Zdigits2 q + E) - E)).
  set (d0 := Zdigits2 q) in *.
  set (n := fexp prec emax (d0 + E) - E).
  assert (En : n = Z.max (d0 + E - 53) (-1074) - E) by reflexivity.
  destruct (shr_located N D (shr_record_of_loc q loc) E n Hq) as [He' [Hloc Hsame]].
  destruct (shr (shr_record_of_loc q loc) E n) as [mrs' e'].
  cbn [fst snd] in He', Hloc, Hsame |- *.
  set (k := Z.max n 0) in *.
  assert (Hk : 0 <= k) by lia.
  assert (HK : 0 < 2 ^ k) by (apply Z.pow_pos_nonneg; lia).
  set (K := 2 ^ k) in *.
  destruct (round_nearest_even_located N (K * D) mrs' Hloc) as [Hm'' [Herr Hexact]].
  set (m'' := round_nearest_even (shr_m mrs') (loc_of_shr_record mrs')) in *.
  destruct Hloc as [Hm' [Hrest _]].
  set (m' := shr_m mrs') in *.
  assert (HmK : m' * K <= q) by nia.
  assert (Hd53 : d0 <= k + 53) by lia.
  assert (Hpow : 2 ^ d0 <= K * 2 ^ 53).
  { unfold K. rewrite <- Z.pow_add_r by lia. apply Z.pow_le_mono_r; lia. }
  assert (Hm53 : m' < 2 ^ 53) by nia.
  assert (He'min : -1074 <= e') by lia.
  destruct (shr_fexp_exact m'' e' ltac:(lia) He'min)
    as [m [e [Em [Ee [Hm0 [Hee [Hval Hsmall]]]]]]].
  rewrite Em, Ee.
  exists m, e. split; [now apply binary_round_result|].
  assert (Hpow2 : 2 ^ (e - E) = 2 ^ (e - e') * K).
  { unfold K. rewrite <- Z.pow_add_r by lia. f_equal. lia. }
  assert (Hone : 1 <= 2 ^ (e - e'))
    by (pose proof (Z.pow_pos_nonneg 2 (e - e') ltac:(lia) ltac:(lia)); lia).
  assert (Hmm : m * (2 ^ (e - E) * D) = m'' * (K * D)).
  { rewrite Hpow2, <- Hval. ring. }
  rewrite Hmm, Hpow2.
  split; [exact Hm0|]. split; [lia|]. split; [lia|].
  assert (HP : 0 < K * D) by nia.
  split; [nia|].
  destruct (Z.le_gt_cases (2 ^ 52) m') as [Hnormal|Hsub].
  - right. assert (2 ^ 52 * (K * D) <= N) by nia.
    change (2 ^ 53) with (2 * 2 ^ 52). nia.
  - destruct (Hsmall ltac:(change (2 ^ 53) with (2 * 2 ^ 52); lia)) as [-> _].
    destruct (Z.le_gt_cases n 0) as [Hn|Hn].
    + right. specialize (Hsame Hn). subst mrs'.
      unfold m' in Hsub. rewrite shr_record_of_loc_m in Hsub.
      destruct Hbig as [-> |Hbig]; [|lia].
      cbn [shr_record_of_loc shr_r shr_s] in Hexact.
      rewrite (Hexact eq_refl eq_refl), Z.sub_diag. cbn [Z.abs]. lia.
    + destruct (Z.le_gt_cases (d0 + E - 53) (-1074)) as [Hmin|Hmin]; [left; lia|].
      exfalso.
      assert (Ek : k = d0 - 53) by lia.
      assert (0 < q) by (destruct (Z.eq_dec q 0) as [E0|]; [|lia];
                         subst q; cbn in d0; lia).
      specialize (Hd2 H).
      assert (Hlow : 2 ^ (d0 - 1) = K * 2 ^ 52).
      { unfold K. rewrite <- Z.pow_add_r by lia. f_equal. lia. }
      nia.
Qed.


(** ** Products *)

Lemma pow2_pos k : 0 <= k -> 0 < 2 ^ k.
Proof. intros. apply Z.pow_pos_nonneg; lia. Qed.

Lemma units_finite m e :
  units (S754_finite false m e) = Z.pos m * 2 ^ (e + 1074).
Proof. cbn [units]. lia. Qed.

Lemma plain_nonneg x : plain x = true -> 0 <= units x.
Proof.
  destruct x as [s|s| |[|] m e]; cbn [plain units]; try discriminate;
    intros H; try lia.
Qed.

(** The product of two plain numbers that stays below 2^30 is plain, and it
    is the exact product rounded: off by at most half of the least unit, or
    by at most 2^-53 of the product. *)
Lemma fmul_units x y :
  plain x = true -> plain y = true ->
  units x * units y < 2 ^ 30 * (one * one) ->
  plain (SFmul prec emax x y) = true
  /\ (2 * Z.abs (one * units (SFmul prec emax x y) - units x * units y) <= one
      \/ 2 ^ 53 * Z.abs (one * units (SFmul prec emax x y) - units x * units y)
         <= units x * units y).
Proof.
  assert (Hone : 0 < one) by (apply pow2_pos; lia).
  destruct x as [sx|sx| |[|] mx ex]; try discriminate;
    destruct y as [sy|sy| |[|] my ey]; try discriminate;
    cbn [plain SFmul]; intros Hx Hy Hsmall;
    try (split; [reflexivity|]; left; cbn [units];
         rewrite ?Z.mul_0_r, ?Z.mul_0_l; cbn [Z.sub Z.opp Z.abs]; lia).
  apply Z.leb_le in Hx, Hy.
  rewrite !units_finite in *.
  set (N := Z.pos (mx * my)). set (E := ex + ey).
  assert (Hloc : located N 1 (shr_record_of_loc N loc_Exact)).
  { unfold located. cbn [shr_record_of_loc shr_m shr_r shr_s].
    repeat split; intros; try discriminate; lia. }
  destruct (binary_round_aux_spec (xorb false false) N E loc_Exact N 1
              ltac:(lia) Hloc (or_introl eq_refl))
    as [m [e [Eq [Hm [HE [He [Herr Hrel]]]]]]].
  rewrite Eq. cbn [xorb]. clear Eq Hloc.
  rewrite !Z.mul_1_r in Herr, Hrel.
  set (S := 2 ^ (E + 2148)).
  assert (HS : 0 < S) by (apply pow2_pos; unfold E; lia).
  assert (Hprod : Z.pos mx * 2 ^ (ex + 1074) * (Z.pos my * 2 ^ (ey + 1074)) = N * S).
  { unfold N, S, E. rewrite Pos2Z.inj_mul.
    replace (ex + ey + 2148) with ((ex + 1074) + (ey + 1074)) by lia.
    rewrite (Z.pow_add_r 2 (ex + 1074) (ey + 1074)) by lia. ring. }
  rewrite Hprod in *.
  assert (Hscale : 2 ^ (e - E) * S = 2 ^ (e + 1074) * one).
  { unfold S, one. rewrite <- !Z.pow_add_r by (unfold E; lia). f_equal. lia. }
  assert (Hpe : 0 < 2 ^ (e - E)) by (apply pow2_pos; lia).
  assert (Hval : one * (m * 2 ^ (e + 1074)) - N * S = (m * 2 ^ (e - E) - N) * S).
  { replace (one * (m * 2 ^ (e + 1074))) with (m * (2 ^ (e + 1074) * one)) by ring.
    rewrite <- Hscale. ring. }
  assert (Hbound :
    2 * Z.abs ((m * 2 ^ (e - E) - N) * S) <= one
    \/ 2 ^ 53 * Z.abs ((m * 2 ^ (e - E) - N) * S) <= N * S).
  { rewrite Z.abs_mul, (Z.abs_eq S) by lia.
    destruct Hrel as [->|Hrel].
    - left.
      assert (2 ^ (-1074 - E) * S = one).
      { unfold S, one. rewrite <- Z.pow_add_r by (unfold E; lia). f_equal. lia. }
      nia.
    - right. nia. }
  destruct (Z.eqb_spec m 0) as [->|Hm0].
  - split; [reflexivity|]. cbn [units]. rewrite Z.mul_0_r.
    rewrite Z.mul_0_l in Hbound.
    replace (0 - N * S) with ((0 - N) * S) by ring. exact Hbound.
  - assert (He30 : e <= 30).
    { destruct (Z.le_gt_cases e 30) as [H|H]; [exact H|]. exfalso.
      assert (H1 : 2 ^ (e - E) <= 2 * N) by nia.
      assert (H2 : 2 ^ 31 * (one * one) <= 2 ^ (e - E) * S).
      { rewrite Hscale.
        assert (H3 : 2 ^ 31 * one <= 2 ^ (e + 1074)).
        { unfold one. rewrite <- Z.pow_add_r by lia.
          apply Z.pow_le_mono_r; lia. }
        nia. }
      change (2 ^ 31) with (2 * 2 ^ 30) in H2. nia. }
    destruct (Z.leb_spec e (emax - prec)) as [_|Hover];
      [|unfold emax, prec in Hover; lia].
    cbn [plain]. split; [now apply Z.leb_le|].
    rewrite units_finite, Z2Pos.id by lia. rewrite Hval. exact Hbound.
Qed.

(** ** Amounts *)

Lemma float_of_cents_units c :
  0 < c < 10 ^ 10 ->
  plain (float_of_cents c) = true
  /\ 0 < units (float_of_cents c)
  /\ 2 ^ 53 * Z.abs (100 * units (float_of_cents c) - c * one) <= c * one.
Proof.
  intros Hc. destruct c as [|p|p]; [lia| |lia].
  unfold float_of_cents, float_of_decimal, SFdiv, SFdiv_core_binary.
  cbn [xorb].
  destruct (Zdigits2_bounds (Z.pos p) ltac:(lia)) as [Hd0 [Hd1 Hd2]].
  specialize (Hd2 ltac:(lia)).
  set (d1 := Zdigits2 (Z.pos p)) in *.
  assert (Hd34 : 1 <= d1 <= 34).
  { split.
    - destruct (Z.le_gt_cases 1 d1) as [H|H]; [exact H|].
      assert (d1 = 0) by lia. rewrite H0 in Hd1. cbn in Hd1. lia.
    - destruct (Z.le_gt_cases d1 34) as [H|H]; [exact H|].
      pose proof (Z.pow_le_mono_r 2 34 (d1 - 1) ltac:(lia) ltac:(lia)).
      change (2 ^ 34) with 17179869184 in *. change (10 ^ 10) with 10000000000 in *.
      lia. }
  change (Zdigits2 100) with 7.
  replace (Z.min (fexp prec emax (d1 + 0 - (7 + 0))) (0 - 0)) with (d1 - 60)
    by (unfold fexp, emin, prec, emax; lia).
  replace (0 - 0 - (d1 - 60)) with (60 - d1) by lia.
  set (s := 60 - d1).
  assert (Hs : 26 <= s <= 59) by (unfold s; lia).
  assert (Hshift : match s with
                   | 0 => Z.pos p
                   | Z.pos _ => Z.shiftl (Z.pos p) s
                   | Z.neg _ => 0
                   end = Z.pos p * 2 ^ s).
  { destruct s as [|k|k] eqn:Es; [lia| |lia]. rewrite Z.shiftl_mul_pow2 by lia.
    reflexivity. }
  rewrite Hshift. clear Hshift.
  set (N := Z.pos p * 2 ^ s).
  assert (H59 : 2 ^ 59 <= N).
  { unfold N. replace 59 with ((d1 - 1) + s) by (unfold s; lia).
    rewrite (Z.pow_add_r 2 (d1 - 1) s) by lia.
    pose proof (pow2_pos s ltac:(lia)). nia. }
  pose proof (Z_div_mod N 100 ltac:(lia)) as Hdiv.
  destruct (Z.div_eucl N 100) as [q r]. destruct Hdiv as [Hq Hr].
  change (2 ^ 59) with 576460752303423488 in H59.
  assert (Hq52 : 2 ^ 52 <= q) by (change (2 ^ 52) with 4503599627370496; lia).
  assert (Hloc : located N 100 (shr_record_of_loc q (new_location 100 r))).
  { unfold new_location. change (Z.even 100) with true. unfold new_location_even.
    unfold located.
    destruct (Z.eqb_spec r 0) as [->|Hr0].
    - cbn [shr_record_of_loc shr_m shr_r shr_s].
      repeat split; intros; try discriminate; lia.
    - destruct (Z.compare_spec (2 * r) 100) as [Ec|Ec|Ec];
        cbn [shr_record_of_loc shr_m shr_r shr_s];
        repeat split; intros; try discriminate; lia. }
  destruct (binary_round_aux_spec false q (d1 - 60) (new_location 100 r) N 100
              ltac:(lia) Hloc (or_intror Hq52))
    as [m [e [Eq [Hm [HE [He [Herr Hrel]]]]]]].
  rewrite Eq. clear Eq Hloc.
  destruct Hrel as [Hrel|Hrel]; [lia|].
  set (S := 2 ^ (1074 - s)).
  assert (HS : 0 < S) by (apply pow2_pos; lia).
  assert (HN : N * S = Z.pos p * one).
  { unfold N, S, one. rewrite <- Z.mul_assoc, <- Z.pow_add_r by lia.
    do 2 f_equal. lia. }
  assert (Hpe : 0 < 2 ^ (e - (d1 - 60))) by (apply pow2_pos; lia).
  assert (Hscale : 2 ^ (e - (d1 - 60)) * S = 2 ^ (e + 1074)).
  { unfold S. rewrite <- Z.pow_add_r by lia. f_equal. unfold s. lia. }
  assert (Hm0 : m <> 0).
  { intros ->. rewrite Z.mul_0_l in Hrel. cbn [Z.sub Z.opp] in Hrel.
    change (2 ^ 53) with 9007199254740992 in Hrel. lia. }
  destruct (Z.eqb_spec m 0) as [|_]; [contradiction|].
  assert (He40 : e <= 40).
  { destruct (Z.le_gt_cases e 40) as [H|H]; [exact H|]. exfalso.
    assert (H1 : 2 ^ (e - (d1 - 60)) * 100 <= 2 * N) by nia.
    assert (H2 : 2 ^ 40 * 2 ^ s <= 2 ^ (e - (d1 - 60))).
    { rewrite <- Z.pow_add_r by lia. apply Z.pow_le_mono_r; unfold s; lia. }
    unfold N in H1. pose proof (pow2_pos s ltac:(lia)).
    change (2 ^ 40) with 1099511627776 in H2.
    change (10 ^ 10) with 10000000000 in Hc. nia. }
  destruct (Z.leb_spec e (emax - prec)) as [_|Hover];
    [|unfold emax, prec in Hover; lia].
  cbn [plain]. split; [now apply Z.leb_le|].
  rewrite units_finite, Z2Pos.id by lia.
  pose proof (pow2_pos (e + 1074) ltac:(lia)).
  split; [nia|].
  rewrite <- HN.
  replace (100 * (m * 2 ^ (e + 1074)) - N * S)
    with ((m * (2 ^ (e - (d1 - 60)) * 100) - N) * S)
    by (rewrite <- Hscale; ring).
  rewrite Z.abs_mul, (Z.abs_eq S) by lia. nia.
Qed.


End Rounding.

Section SplitFacts.

Import Settings Sqlite Database Binary64.

#[local] Open Scope Z_scope.

Lemma conservation_arith T c Ua U1 U2 R1 R2 :
  2 ^ 60 <= T -> 0 < c < 10 ^ 10 -> 0 <= Ua -> 0 <= U1 -> 0 <= U2 ->
  2 ^ 53 * Z.abs (100 * Ua - c * T) <= c * T ->
  10 ^ 12 * Z.abs (U1 + U2 - T) <= T ->
  (2 * Z.abs (T * R1 - Ua * U1) <= T
   \/ 2 ^ 53 * Z.abs (T * R1 - Ua * U1) <= Ua * U1) ->
  (2 * Z.abs (T * R2 - Ua * U2) <= T
   \/ 2 ^ 53 * Z.abs (T * R2 - Ua * U2) <= Ua * U2) ->
  2 * Z.abs (100 * (R1 + R2) - c * T) < T.
Proof.
  change (2 ^ 60) with 1152921504606846976.
  change (10 ^ 10) with 10000000000.
  change (10 ^ 12) with 1000000000000.
  change (2 ^ 53) with 9007199254740992.
  intros HT Hc Ha H1 H2 Hamount Hsum Hr1 Hr2.
  set (Q := T * T).
  assert (HQ : 0 < Q) by (unfold Q; nia).
  assert (A1 : 100 * Ua <= 2 * (c * T)) by lia.
  assert (A2 : U1 <= 2 * T /\ U2 <= 2 * T) by lia.
  assert (HcQ : c * T * T = c * Q) by (unfold Q; ring).
  assert (A3 : forall U, 0 <= U -> U <= 2 * T -> 100 * (Ua * U) <= 4 * (c * Q)).
  { intros U HU0 HU.
    assert (100 * Ua * U <= 2 * (c * T) * U) by (apply Z.mul_le_mono_nonneg_r; lia).
    assert (2 * (c * T) * U <= 2 * (c * T) * (2 * T))
      by (apply Z.mul_le_mono_nonneg_l; nia).
    replace (2 * (c * T) * (2 * T)) with (4 * (c * T * T)) in * by ring.
    rewrite HcQ in *. lia. }
  assert (HcQ10 : c * Q < 10000000000 * Q) by (apply Z.mul_lt_mono_pos_r; lia).
  assert (HTQ : 4503599627370496 * T <= Q).
  { unfold Q. apply Z.mul_le_mono_nonneg_r; lia. }
  assert (B : forall R U, 0 <= U -> U <= 2 * T ->
            (2 * Z.abs (T * R - Ua * U) <= T
             \/ 9007199254740992 * Z.abs (T * R - Ua * U) <= Ua * U) ->
            9007199254740992 * Z.abs (T * R - Ua * U) <= 1073741824 * Q).
  { intros R U HU0 HU [H|H].
    - lia.
    - pose proof (A3 U HU0 HU). lia. }
  pose proof (B R1 U1 H1 (proj1 A2) Hr1) as B1.
  pose proof (B R2 U2 H2 (proj2 A2) Hr2) as B2.
  set (X1 := T * R1 - Ua * U1) in *. set (X2 := T * R2 - Ua * U2) in *.
  set (y := 100 * Ua * (U1 + U2 - T)).
  set (z := T * (100 * Ua - c * T)).
  assert (Hy : 1000000000000 * Z.abs y <= 20000000000 * Q).
  { unfold y. rewrite Z.abs_mul, (Z.abs_eq (100 * Ua)) by lia.
    assert (100 * Ua * (1000000000000 * Z.abs (U1 + U2 - T)) <= 100 * Ua * T)
      by (apply Z.mul_le_mono_nonneg_l; lia).
    assert (100 * Ua * T <= 2 * (c * T) * T)
      by (apply Z.mul_le_mono_nonneg_r; lia).
    replace (2 * (c * T) * T) with (2 * (c * T * T)) in * by ring.
    rewrite HcQ in *. lia. }
  assert (Hz : 9007199254740992 * Z.abs z <= 10000000000 * Q).
  { unfold z. rewrite Z.abs_mul, (Z.abs_eq T) by lia.
    assert (T * (9007199254740992 * Z.abs (100 * Ua - c * T)) <= T * (c * T))
      by (apply Z.mul_le_mono_nonneg_l; lia).
    replace (T * (c * T)) with (c * T * T) in * by ring.
    rewrite HcQ in *. lia. }
  assert (Hid : T * (100 * (R1 + R2) - c * T) = 100 * (X1 + X2) + y + z).
  { unfold X1, X2, y, z. ring. }
  assert (Hfin : 2 * Z.abs (T * (100 * (R1 + R2) - c * T)) < Q).
  { rewrite Hid. lia. }
  rewrite Z.abs_mul, (Z.abs_eq T) in Hfin by lia.
  unfold Q in Hfin.
  apply (Z.mul_lt_mono_pos_l T); lia.
Qed.

Lemma is_ratio_plain x : is_ratio x = true -> plain x = true.
Proof. unfold is_ratio. intros H. now apply andb_true_iff in H. Qed.

(** The two products of one amount, below a hundred million dollars, with
    two ratios that sum to 1.0. *)
Lemma products_sum_to_the_cent cfg c :
  valid_ratios cfg = true -> 0 < c < 10 ^ 10 ->
  sums_to_the_cent (stored cfg (Times c ROOMMATE_SPLIT_RATIO))
                   (stored cfg (Times c MY_SPLIT_RATIO)) c = true.
Proof.
  unfold valid_ratios, stored. cbn [factor_amount factor_ratio ratio_value].
  intros Hcfg Hc.
  apply andb_true_iff in Hcfg. destruct Hcfg as [Hcfg Hsum].
  apply andb_true_iff in Hcfg. destruct Hcfg as [Hr1 Hr2].
  apply is_ratio_plain in Hr1, Hr2. apply Z.leb_le in Hsum.
  destruct (float_of_cents_units c Hc) as [Hpa [Ha0 Ha]].
  pose proof (plain_nonneg _ Hr1) as H1. pose proof (plain_nonneg _ Hr2) as H2.
  set (a := float_of_cents c) in *.
  set (r1 := roommate_ratio cfg) in *. set (r2 := my_ratio cfg) in *.
  assert (Hone : 2 ^ 60 <= one).
  { unfold one. apply Z.pow_le_mono_r; lia. }
  assert (Hsmall : forall r, 0 <= units r -> units r <= 2 * one ->
                             units a * units r < 2 ^ 30 * (one * one)).
  { intros r Hr0 Hr.
    change (2 ^ 53) with 9007199254740992 in Ha.
    change (10 ^ 10) with 10000000000 in Hc.
    change (2 ^ 60) with 1152921504606846976 in Hone.
    change (2 ^ 30) with 1073741824.
    assert (A1 : 100 * units a <= 2 * (c * one)) by lia.
    assert (A2 : 100 * units a * units r <= 2 * (c * one) * units r)
      by (apply Z.mul_le_mono_nonneg_r; lia).
    assert (A3 : 2 * (c * one) * units r <= 2 * (c * one) * (2 * one))
      by (apply Z.mul_le_mono_nonneg_l; nia).
    assert (A4 : c * (one * one) < 10000000000 * (one * one))
      by (apply Z.mul_lt_mono_pos_r; nia).
    nia. }
  assert (Hle : units r1 <= 2 * one /\ units r2 <= 2 * one).
  { change (10 ^ 12) with 1000000000000 in Hsum.
    change (2 ^ 60) with 1152921504606846976 in Hone. lia. }
  destruct (fmul_units a r1 Hpa Hr1 (Hsmall r1 H1 (proj1 Hle))) as [Hp1 Hm1].
  destruct (fmul_units a r2 Hpa Hr2 (Hsmall r2 H2 (proj2 Hle))) as [Hp2 Hm2].
  unfold sums_to_the_cent. rewrite Hp1, Hp2. cbn [andb].
  apply Z.ltb_lt.
  now apply (conservation_arith one c (units a) (units r1) (units r2)); try lia.
Qed.

(** C3, as amended.  For a bill that [add_bill] has just created, with an
    amount above zero and below a hundred million dollars, and for any two
    configured ratios that are finite, not negative and sum to 1.0 to within
    10^-12: the two stored portions, which are the unrounded binary64
    products of the amount and the ratios, are finite, and their exact sum
    is less than half a cent away from the amount of the bill. *)
Theorem stored_portions_sum_to_amount cfg now raises info d i b :
  valid_ratios cfg = true ->
  0 < amount info < 10 ^ 10 ->
  snd (snd (add_bill now raises info d)) = Some i ->
  get_bill_by_id i (fst (add_bill now raises info d)) = Some b ->
  bill_amount b = amount info
  /\ roommate_portion b = Times (amount info) ROOMMATE_SPLIT_RATIO
  /\ my_portion b = Times (amount info) MY_SPLIT_RATIO
  /\ sums_to_the_cent (stored cfg (roommate_portion b))
                      (stored cfg (my_portion b)) (bill_amount b) = true.
Proof.
  intros Hcfg Hamount Hid Hb.
  destruct raises; [discriminate|].
  destruct (find (same_key (amount info) (info_due_date info)) (bills d)) eqn:E.
  { rewrite (add_bill_duplicate _ _ _ _ E) in Hid. discriminate. }
  rewrite (add_bill_new _ _ _ E) in Hid, Hb. cbn [fst snd] in Hid, Hb.
  injection Hid as <-. rewrite added_row_is_read in Hb. injection Hb as <-.
  cbn [bill_amount roommate_portion my_portion new_bill_row].
  repeat split. now apply products_sum_to_the_cent.
Qed.

(** The amended C3 for the bill of August, 288.15, with the default ratios:
    the stored portions are 96.04990395 and 192.10009605, up to binary64
    rounding, and they sum to 288.15 to the cent. *)
Lemma stored_portions_sum_to_amount_witness :
  valid_ratios default_ratios = true
  /\ get_bill_by_id 1 Scenarios.august_database
     = Some (new_bill_row 100 1 Scenarios.august_plain)
  /\ stored default_ratios (Times 28815 ROOMMATE_SPLIT_RATIO)
     = S754_finite false 6758911119346748 (-46)
  /\ stored default_ratios (Times 28815 MY_SPLIT_RATIO)
     = S754_finite false 6758921257723566 (-45)
  /\ sums_to_the_cent (stored default_ratios (Times 28815 ROOMMATE_SPLIT_RATIO))
                      (stored default_ratios (Times 28815 MY_SPLIT_RATIO))
                      28815 = true.
Proof.
  assert (Hcfg : valid_ratios default_ratios = true) by (vm_compute; reflexivity).
  split; [exact Hcfg|]. split; [reflexivity|].
  split; [vm_compute; reflexivity|]. split; [vm_compute; reflexivity|].
  apply (stored_portions_sum_to_amount default_ratios 100 false
           Scenarios.august_plain empty_database 1
           (new_bill_row 100 1 Scenarios.august_plain) Hcfg).
  - cbn. lia.
  - reflexivity.
  - reflexivity.
Defined.

(** C3 as stated fails for a very large amount.  The extractor accepts a
    statement over 53,077,652,236,138.90, [add_bill] stores it, and with the
    default ratios, which sum to 1.0 exactly, the two stored portions sum to
    an amount that is 0.00546875 short: more than half a cent.  Binary64
    numbers of that size are 2^-7 or 2^-8 apart. *)
Lemma large_amount_is_not_conserved :
  Patterns.extract_amount Scenarios.large_text = Some 5307765223613890
  /\ units (roommate_ratio default_ratios) + units (my_ratio default_ratios) = one
  /\ valid_ratios default_ratios = true
  /\ map (fun b => (id b, bill_amount b, roommate_portion b, my_portion b))
         (bills (fst (add_bill 100 false Scenarios.large_bill empty_database)))
     = [(1, 5307765223613890,
         Times 5307765223613890 ROOMMATE_SPLIT_RATIO,
         Times 5307765223613890 MY_SPLIT_RATIO)]
  /\ stored default_ratios (Times 5307765223613890 ROOMMATE_SPLIT_RATIO)
     = S754_finite false 4529288461524195 (-8)
  /\ stored default_ratios (Times 5307765223613890 MY_SPLIT_RATIO)
     = S754_finite false 4529295255463681 (-7)
  /\ 256 * (100 * (units (stored default_ratios
                            (Times 5307765223613890 ROOMMATE_SPLIT_RATIO))
                   + units (stored default_ratios
                              (Times 5307765223613890 MY_SPLIT_RATIO)))
            - 5307765223613890 * one)
     = -140 * one
  /\ sums_to_the_cent
       (stored default_ratios (Times 5307765223613890 ROOMMATE_SPLIT_RATIO))
       (stored default_ratios (Times 5307765223613890 MY_SPLIT_RATIO))
       5307765223613890 = false.
Proof. repeat split; vm_compute; reflexivity. Qed.

End SplitFacts.
